(** * Toy Agent Backend: a shallow embedding of the request handlers

    The service is a FastAPI application over a relational store
    (SQLAlchemy models in [app/database/models.py]).  The handlers of
    [app/auth.py], [app/routes/auth_routes.py], [app/routes/parent_routes.py]
    and [app/routes/toy_routes.py] are embedded as computations in a small
    state-and-exception monad over a session (committed store and
    transaction view).  Tables are lists of rows in storage order, because
    [q.scalars().first()] depends on it.

    What the handlers draw from the outside world is an explicit argument:
    the clock ([now], microseconds since the epoch), the UUIDs produced by
    [uuid.uuid4] and the random strings of [secrets.token_urlsafe].

    The database is PostgreSQL behind asyncpg: a value that does not fit
    the type of its column is refused with a [DataError], which is not an
    [IntegrityError], and a naive [datetime] bound to a
    [DateTime(timezone=True)] column is taken for local time of the
    host. *)

From Stdlib Require Import ZArith NArith List String Ascii Bool Lia.
Import ListNotations.
Open Scope string_scope.
Open Scope list_scope.
Open Scope Z_scope.

Set Implicit Arguments.

(* ================================================================== *)
(** ** Basic data *)

(** A UUID is a 128-bit value; only its equality is observed. *)
Definition UUID := N.
Bind Scope N_scope with UUID.

Definition uuid_eqb (a b : UUID) : bool := N.eqb a b.

(** [x == y] on a nullable UUID column against a UUID. *)
Definition nullable_is (x : option UUID) (y : UUID) : bool :=
  match x with
  | Some v => uuid_eqb v y
  | None => false
  end.

(** Time is counted in microseconds, the resolution of Python's
    [datetime]. *)
Definition timedelta_minutes (m : Z) : Z := m * 60 * 1000000.
Definition timedelta_days (d : Z) : Z := d * 24 * 60 * 60 * 1000000.

Inductive tzinfo := utc.

(** A [datetime] value: the instant it denotes when read as UTC, and its
    [tzinfo] (absent for a naive value such as [datetime.utcnow()]). *)
Record datetime := mk_datetime { instant : Z; tz : option tzinfo }.

Definition datetime_utcnow (now : Z) : datetime :=
  {| instant := now; tz := None |}.
Definition datetime_now_utc (now : Z) : datetime :=
  {| instant := now; tz := Some utc |}.
Definition replace_tzinfo (d : datetime) (z : tzinfo) : datetime :=
  {| instant := instant d; tz := Some z |}.

(** [datetime.date()], as a day number. *)
Definition date_of (now : Z) : Z := now / timedelta_days 1.

(** [len(s)] counts code points; a string is held as its UTF-8 bytes, so
    continuation bytes (10xxxxxx) are skipped.  [len(s.encode("utf-8"))]
    is [String.length]. *)
Fixpoint py_len (s : string) : Z :=
  match s with
  | EmptyString => 0
  | String c rest =>
      (if Z.eqb (Z.land (Z.of_N (N_of_ascii c)) 192) 128 then 0 else 1) + py_len rest
  end.
Definition utf8_len (s : string) : Z := Z.of_nat (String.length s).

(* ------------------------------------------------------------------ *)
(** *** What a column accepts

    The checks PostgreSQL and the driver make on a value bound to a
    column.  INTEGER is 32 bits wide; no text value holds the NUL
    character; [VARCHAR(n)] holds at most [n] characters, and a longer
    value is accepted, cut to [n] characters, exactly when all it loses
    is spaces. *)

Definition INT32_MIN : Z := -2147483648.
Definition INT32_MAX : Z := 2147483647.

Definition fits_integer (v : Z) : bool := (INT32_MIN <=? v) && (v <=? INT32_MAX).

Definition is_continuation (c : ascii) : bool :=
  Z.eqb (Z.land (Z.of_N (N_of_ascii c)) 192) 128.

Fixpoint has_nul (s : string) : bool :=
  match s with
  | EmptyString => false
  | String c rest => N.eqb (N_of_ascii c) 0 || has_nul rest
  end.

Fixpoint all_spaces (s : string) : bool :=
  match s with
  | EmptyString => true
  | String c rest => Ascii.eqb c " " && all_spaces rest
  end.

(** The bytes of the first [n] characters of [s], and the bytes after
    them. *)
Fixpoint split_chars (n : nat) (s : string) : string * string :=
  match s with
  | EmptyString => (EmptyString, EmptyString)
  | String c rest =>
      if is_continuation c
      then let (a, b) := split_chars n rest in (String c a, b)
      else match n with
           | O => (EmptyString, s)
           | S m => let (a, b) := split_chars m rest in (String c a, b)
           end
  end.

(** TEXT, and VARCHAR without a length. *)
Definition fits_text (s : string) : bool := negb (has_nul s).

(** [VARCHAR(n)], for a value that is stored as it is. *)
Definition fits_varchar (n : Z) (s : string) : bool :=
  fits_text s && (py_len s <=? n).

(** [VARCHAR(n)]: the value stored for [s], if [s] is accepted. *)
Definition varchar (n : Z) (s : string) : option string :=
  if fits_varchar n s then Some s
  else if has_nul s then None
  else let (kept, lost) := split_chars (Z.to_nat n) s in
       if all_spaces lost then Some kept else None.

(* ================================================================== *)
(** ** The data model ([app/database/models.py])

    Columns that no embedded handler reads ([phone], [created_at],
    [model_no], ...) are left out.  A number or a string is held as the
    integer or the string it is; what the type of its column accepts is
    checked where a handler writes it.  A UUID primary key is the value
    [uuid.uuid4] drew when the row was built. *)

Module Parent.
Record t := mk {
  id : UUID;
  name : string;
  email : string;
  password_hash : string;
  role : string;
  token_version : Z;
  is_active : bool }.
Definition set_token_version (v : Z) (p : t) : t :=
  mk (id p) (name p) (email p) (password_hash p) (role p) v (is_active p).
End Parent.

Module Toy.
Record t := mk {
  id : UUID;
  toy_uuid : UUID;
  is_active : bool;
  last_seen : option datetime;
  active_child_id : option UUID }.
(** Column defaults: [is_active = False], the nullable columns unset. *)
Definition new (i u : UUID) : t := mk i u false None None.
Definition set_liveness (a : bool) (seen : option datetime) (x : t) : t :=
  mk (id x) (toy_uuid x) a seen (active_child_id x).
Definition set_active_child_id (c : option UUID) (x : t) : t :=
  mk (id x) (toy_uuid x) (is_active x) (last_seen x) c.
End Toy.

Module Child.
Record t := mk {
  id : UUID;
  parent_id : UUID;
  toy_id : option UUID;
  child_name : string;
  age : Z }.
Definition set_toy_id (v : option UUID) (c : t) : t :=
  mk (id c) (parent_id c) v (child_name c) (age c).
End Child.

Module ChildAnalytics.
Record t := mk {
  id : UUID;
  child_id : UUID;
  total_questions : Z;
  weekly_questions : Z;
  last_active_date : option Z }.
(** Column defaults of a row built as [ChildAnalytics(child_id=...)]. *)
Definition new (i c : UUID) : t := mk i c 0 0 None.
End ChildAnalytics.

Module Conversation.
Record t := mk {
  id : UUID;
  child_id : UUID;
  last_activity : Z }.
Definition set_last_activity (v : Z) (c : t) : t :=
  mk (id c) (child_id c) v.
End Conversation.

Inductive RoleEnum := user | assistant | system.

Module Message.
Record t := mk {
  id : UUID;
  conversation_id : UUID;
  role : RoleEnum;
  content : string }.
End Message.

Module APIKey.
Record t := mk {
  id : UUID;
  key : string;
  owner : string;
  revoked : bool }.
End APIKey.

Module RefreshToken.
Record t := mk {
  id : UUID;
  parent_id : UUID;
  token_hash : string;
  user_agent : option string;
  expires_at : Z }.
End RefreshToken.

(** The persistent store: one list of rows per table, named as the
    tables are. *)
Record Store := mk_store {
  parents : list Parent.t;
  toys : list Toy.t;
  children : list Child.t;
  child_analytics : list ChildAnalytics.t;
  conversations : list Conversation.t;
  messages : list Message.t;
  api_keys : list APIKey.t;
  refresh_tokens : list RefreshToken.t }.

Definition empty_store : Store := mk_store [] [] [] [] [] [] [] [].

Definition with_parents (f : list Parent.t -> list Parent.t) (s : Store) : Store :=
  mk_store (f (parents s)) (toys s) (children s) (child_analytics s)
           (conversations s) (messages s) (api_keys s) (refresh_tokens s).
Definition with_toys (f : list Toy.t -> list Toy.t) (s : Store) : Store :=
  mk_store (parents s) (f (toys s)) (children s) (child_analytics s)
           (conversations s) (messages s) (api_keys s) (refresh_tokens s).
Definition with_children (f : list Child.t -> list Child.t) (s : Store) : Store :=
  mk_store (parents s) (toys s) (f (children s)) (child_analytics s)
           (conversations s) (messages s) (api_keys s) (refresh_tokens s).
Definition with_child_analytics
    (f : list ChildAnalytics.t -> list ChildAnalytics.t) (s : Store) : Store :=
  mk_store (parents s) (toys s) (children s) (f (child_analytics s))
           (conversations s) (messages s) (api_keys s) (refresh_tokens s).
Definition with_conversations
    (f : list Conversation.t -> list Conversation.t) (s : Store) : Store :=
  mk_store (parents s) (toys s) (children s) (child_analytics s)
           (f (conversations s)) (messages s) (api_keys s) (refresh_tokens s).
Definition with_messages (f : list Message.t -> list Message.t) (s : Store) : Store :=
  mk_store (parents s) (toys s) (children s) (child_analytics s)
           (conversations s) (f (messages s)) (api_keys s) (refresh_tokens s).
Definition with_api_keys (f : list APIKey.t -> list APIKey.t) (s : Store) : Store :=
  mk_store (parents s) (toys s) (children s) (child_analytics s)
           (conversations s) (messages s) (f (api_keys s)) (refresh_tokens s).
Definition with_refresh_tokens
    (f : list RefreshToken.t -> list RefreshToken.t) (s : Store) : Store :=
  mk_store (parents s) (toys s) (children s) (child_analytics s)
           (conversations s) (messages s) (api_keys s) (f (refresh_tokens s)).

(* ================================================================== *)
(** ** Sessions, exceptions and the handler monad *)

(** [DataError] stands for the [DBAPIError] SQLAlchemy raises for a value
    the column type refuses; [AttributeError] and [ValueError] are
    Python's.  No handler catches any of the three. *)
Inductive Exn :=
| HTTPException (status_code : Z) (detail : string)
| IntegrityError
| DataError
| AttributeError
| ValueError.

Inductive Outcome (A : Type) :=
| Ok (a : A)
| Raise (e : Exn).
Arguments Raise {A} e.

(** An [AsyncSession]: the committed store, and the store as the open
    transaction sees it. *)
Record Session := mk_session { committed : Store; pending : Store }.

Definition M (A : Type) : Type := Session -> Outcome A * Session.

Definition ret {A} (a : A) : M A := fun s => (Ok a, s).
Definition bind {A B} (m : M A) (k : A -> M B) : M B :=
  fun s => match m s with
           | (Ok a, s') => k a s'
           | (Raise e, s') => (Raise e, s')
           end.
Definition raise {A} (e : Exn) : M A := fun s => (Raise e, s).

Notation "x <- m ;; k" := (bind m (fun x => k))
  (at level 61, m at next level, right associativity).
Notation "m ;; k" := (bind m (fun _ => k))
  (at level 61, right associativity).

(** [try: ... except IntegrityError: ...]; an [HTTPException] passes
    through. *)
Definition try_except_IntegrityError {A} (body handler : M A) : M A :=
  fun s => match body s with
           | (Raise IntegrityError, s') => handler s'
           | r => r
           end.

(** [db.execute(select(...))]: a query reads the transaction's view. *)
Definition execute {A} (q : Store -> A) : M A :=
  fun s => (Ok (q (pending s)), s).

(** A write emitted inside the transaction (an attribute assignment on a
    loaded row, or [db.delete]). *)
Definition emit (f : Store -> Store) : M unit :=
  fun s => (Ok tt, mk_session (committed s) (f (pending s))).

(** An assignment of a number to an INTEGER attribute of a loaded row.
    The UPDATE reaches the database at the next flush, which no handler
    wraps in a [try]; a value out of range is refused there. *)
Definition emit_checked (fits : bool) (f : Store -> Store) : M unit :=
  if fits then emit f else raise DataError.

(** [await db.commit()] and [await db.rollback()] *)
Definition db_commit : M unit :=
  fun s => (Ok tt, mk_session (pending s) (pending s)).
Definition db_rollback : M unit :=
  fun s => (Ok tt, mk_session (committed s) (committed s)).

(** One request: [get_db] opens a session on the store and closes it when
    the handler returns or raises, which discards what was not
    committed. *)
Definition run_request {A} (handler : M A) (st : Store) : Outcome A * Store :=
  let (r, s) := handler (mk_session st st) in (r, committed s).

(** [q.scalars().first()] *)
Definition first {A} (p : A -> bool) (rows : list A) : option A := find p rows.

(** [UPDATE t SET ... WHERE t.id = i]: the unit of work writes a changed
    row back by primary key. *)
Definition update_where {A} (p : A -> bool) (f : A -> A) (rows : list A) : list A :=
  map (fun r => if p r then f r else r) rows.

(** [DELETE FROM t WHERE t.id = i] *)
Definition delete_where {A} (p : A -> bool) (rows : list A) : list A :=
  filter (fun r => negb (p r)) rows.

Fixpoint for_each {A} (rows : list A) (body : A -> M unit) : M unit :=
  match rows with
  | [] => ret tt
  | r :: rest => body r ;; for_each rest body
  end.

(* ------------------------------------------------------------------ *)
(** *** INSERT statements and the constraints the schema declares

    [db.add(row)] registers a row and the INSERT reaches the database at
    the next flush or commit; no statement of any handler runs between
    the two, so the model emits the INSERT where the row is added.  The
    values are coerced to their columns first: a value a column refuses
    raises [DataError].  Then a violated primary key, UNIQUE or FOREIGN
    KEY constraint raises [IntegrityError].  Either leaves the
    transaction's view as it was.  The row that is stored is what
    [db.refresh] reads back. *)

Definition has_id {A} (id_of : A -> UUID) (i : UUID) (rows : list A) : bool :=
  existsb (fun r => uuid_eqb (id_of r) i) rows.

Definition insert_checked (allowed : Store -> bool) (f : Store -> Store) : M unit :=
  fun s => if allowed (pending s)
           then (Ok tt, mk_session (committed s) (f (pending s)))
           else (Raise IntegrityError, s).

Definition insert_row {R} (coerced : option R)
    (allowed : R -> Store -> bool) (f : R -> Store -> Store) : M R :=
  match coerced with
  | None => raise DataError
  | Some row => insert_checked (allowed row) (f row) ;; ret row
  end.

Definition parent_insertable (p : Parent.t) (st : Store) : bool :=
  negb (has_id Parent.id (Parent.id p) (parents st))
  && negb (existsb (fun q => String.eqb (Parent.email q) (Parent.email p)) (parents st)).

Definition child_insertable (c : Child.t) (st : Store) : bool :=
  negb (has_id Child.id (Child.id c) (children st))
  && has_id Parent.id (Child.parent_id c) (parents st)
  && match Child.toy_id c with
     | Some t => has_id Toy.id t (toys st)
     | None => true
     end.

Definition child_analytics_insertable (a : ChildAnalytics.t) (st : Store) : bool :=
  negb (has_id ChildAnalytics.id (ChildAnalytics.id a) (child_analytics st))
  && has_id Child.id (ChildAnalytics.child_id a) (children st)
  && negb (has_id ChildAnalytics.child_id (ChildAnalytics.child_id a) (child_analytics st)).

Definition conversation_insertable (c : Conversation.t) (st : Store) : bool :=
  negb (has_id Conversation.id (Conversation.id c) (conversations st))
  && has_id Child.id (Conversation.child_id c) (children st).

Definition message_insertable (m : Message.t) (st : Store) : bool :=
  negb (has_id Message.id (Message.id m) (messages st))
  && has_id Conversation.id (Message.conversation_id m) (conversations st).

Definition api_key_insertable (k : APIKey.t) (st : Store) : bool :=
  negb (has_id APIKey.id (APIKey.id k) (api_keys st))
  && negb (existsb (fun q => String.eqb (APIKey.key q) (APIKey.key k)) (api_keys st)).

Definition refresh_token_insertable (r : RefreshToken.t) (st : Store) : bool :=
  negb (has_id RefreshToken.id (RefreshToken.id r) (refresh_tokens st))
  && has_id Parent.id (RefreshToken.parent_id r) (parents st)
  && negb (existsb (fun q => String.eqb (RefreshToken.token_hash q)
                                        (RefreshToken.token_hash r))
                   (refresh_tokens st)).

(** The rows as their columns hold them.  [parents.name] is VARCHAR(100)
    and [parents.email] VARCHAR(150); an email is a validated [EmailStr]
    and holds no space, so it is never cut.  [children.child_name] is
    VARCHAR(100) and [children.age] INTEGER; [refresh_tokens.user_agent]
    is VARCHAR(255); [messages.content] is TEXT and [api_keys.owner] a
    VARCHAR without length.  The columns that hold an HMAC-SHA256 hex
    digest (64 hexadecimal characters) or a bcrypt hash accept every
    such value and are not checked. *)
Definition parent_row (p : Parent.t) : option Parent.t :=
  match varchar 100 (Parent.name p) with
  | Some name =>
      if fits_varchar 150 (Parent.email p)
      then Some (Parent.mk (Parent.id p) name (Parent.email p) (Parent.password_hash p)
                           (Parent.role p) (Parent.token_version p) (Parent.is_active p))
      else None
  | None => None
  end.

Definition child_row (c : Child.t) : option Child.t :=
  match varchar 100 (Child.child_name c) with
  | Some child_name =>
      if fits_integer (Child.age c)
      then Some (Child.mk (Child.id c) (Child.parent_id c) (Child.toy_id c)
                          child_name (Child.age c))
      else None
  | None => None
  end.

Definition message_row (m : Message.t) : option Message.t :=
  if fits_text (Message.content m) then Some m else None.

Definition api_key_row (k : APIKey.t) : option APIKey.t :=
  if fits_text (APIKey.owner k) then Some k else None.

Definition refresh_token_row (r : RefreshToken.t) : option RefreshToken.t :=
  match RefreshToken.user_agent r with
  | None => Some r
  | Some agent =>
      match varchar 255 agent with
      | Some agent =>
          Some (RefreshToken.mk (RefreshToken.id r) (RefreshToken.parent_id r)
                                (RefreshToken.token_hash r) (Some agent)
                                (RefreshToken.expires_at r))
      | None => None
      end
  end.

Definition add_parent (p : Parent.t) : M Parent.t :=
  insert_row (parent_row p) parent_insertable
             (fun row => with_parents (fun l => l ++ [row])).
Definition add_child (c : Child.t) : M Child.t :=
  insert_row (child_row c) child_insertable
             (fun row => with_children (fun l => l ++ [row])).
Definition add_child_analytics (a : ChildAnalytics.t) : M unit :=
  insert_checked (child_analytics_insertable a)
                 (with_child_analytics (fun l => l ++ [a])).
Definition add_conversation (c : Conversation.t) : M unit :=
  insert_checked (conversation_insertable c) (with_conversations (fun l => l ++ [c])).
Definition add_message (m : Message.t) : M Message.t :=
  insert_row (message_row m) message_insertable
             (fun row => with_messages (fun l => l ++ [row])).
Definition add_api_key (k : APIKey.t) : M APIKey.t :=
  insert_row (api_key_row k) api_key_insertable
             (fun row => with_api_keys (fun l => l ++ [row])).
Definition add_refresh_token (r : RefreshToken.t) : M RefreshToken.t :=
  insert_row (refresh_token_row r) refresh_token_insertable
             (fun row => with_refresh_tokens (fun l => l ++ [row])).

(* ================================================================== *)
(** ** Configuration and library primitives

    [SECRET_KEY] and the token lifetimes come from the process
    environment, and so does the time zone of the host; HMAC-SHA256 and
    bcrypt are library code.  They are the interface the handlers are
    written against. *)

Class Settings := {
  SECRET_KEY : string;
  ACCESS_TOKEN_MINUTES : Z;
  REFRESH_TOKEN_DAYS : Z;
  (** the local time zone of the host: the offset from UTC, in
      microseconds, that it gives a local wall-clock reading *)
  utcoffset : Z -> Z }.

Class Crypto := {
  (** [hmac.new(key, msg, hashlib.sha256).hexdigest()] *)
  hmac_sha256_hexdigest : string -> string -> string;
  (** [pwd_ctx.hash], with the salt it draws made explicit *)
  pwd_ctx_hash : string -> string -> string;
  (** [pwd_ctx.verify(raw, hashed)] *)
  pwd_ctx_verify : string -> string -> bool }.

(** The claims of an access token, as [payload.get] reads them. *)
Record Claims := mk_claims {
  sub : option UUID;
  claim_role : string;
  claim_token_version : option Z;
  exp : Z }.

(** A bearer credential as [jwt.decode] sees it: either it carries a
    valid signature under [SECRET_KEY] over some claims, or it does
    not. *)
Inductive AccessToken :=
| Signed (c : Claims)
| Malformed (raw : string).

Record TokenPair := mk_token_pair {
  access_token : AccessToken;
  refresh_token : string;
  token_type : string;
  expires_in : Z }.

(** Python's truthiness of an [Optional[str]]. *)
Definition str_truthy (s : option string) : bool :=
  match s with
  | None => false
  | Some "" => false
  | Some _ => true
  end.

Section Handlers.
Context {settings : Settings} {crypto : Crypto}.

(* ------------------------------------------------------------------ *)
(** *** [app/auth.py] *)

(** A [datetime] bound to a [DateTime(timezone=True)] column.  The driver
    sends [obj.astimezone(utc)], and [astimezone] takes a naive value for
    local time of the host; the column returns aware values. *)
Definition timestamptz (d : datetime) : datetime :=
  match tz d with
  | Some _ => d
  | None => {| instant := instant d - utcoffset (instant d); tz := Some utc |}
  end.

Definition hash_password (salt password : string) : string :=
  pwd_ctx_hash salt password.

Definition verify_password (raw hashed : string) : bool :=
  pwd_ctx_verify raw hashed.

(** [jwt.encode] writes [exp] in whole seconds. *)
Definition create_access_token (parent : Parent.t) (now : Z) : AccessToken :=
  Signed {| sub := Some (Parent.id parent);
            claim_role := Parent.role parent;
            claim_token_version := Some (Parent.token_version parent);
            exp := (now + timedelta_minutes ACCESS_TOKEN_MINUTES) / 1000000 |}.

(** [jwt.decode] checks the signature, then refuses a token whose [exp]
    lies before the current second.  [jwt] is [jose.jwt], which has
    [ExpiredSignatureError] but no [InvalidTokenError]: any other
    decoding failure reaches the second [except] clause, and evaluating
    [jwt.InvalidTokenError] raises [AttributeError]. *)
Definition decode_access_token (token : AccessToken) (now : Z) : M Claims :=
  match token with
  | Signed c =>
      if exp c <? now / 1000000
      then raise (HTTPException 401 "Access token expired")
      else ret c
  | Malformed _ => raise AttributeError
  end.

Definition hash_refresh_token (raw : string) : string :=
  hmac_sha256_hexdigest SECRET_KEY raw.

Definition store_refresh_token (parent_id : UUID) (raw_token : string)
    (user_agent : option string) (now : Z) (row_id : UUID) : M unit :=
  let expires_at := now + timedelta_days REFRESH_TOKEN_DAYS in
  let token := RefreshToken.mk row_id parent_id (hash_refresh_token raw_token)
                               user_agent expires_at in
  add_refresh_token token ;;
  db_commit.

(** [await db.delete(row)] on a refresh token: DELETE by primary key. *)
Definition db_delete_refresh_token (row : RefreshToken.t) : M unit :=
  emit (with_refresh_tokens
          (delete_where (fun r => uuid_eqb (RefreshToken.id r) (RefreshToken.id row)))).

Definition revoke_all_refresh_tokens (parent_id : UUID) : M unit :=
  rows <- execute (fun st =>
            filter (fun r => uuid_eqb (RefreshToken.parent_id r) parent_id)
                   (refresh_tokens st)) ;;
  for_each rows db_delete_refresh_token ;;
  db_commit.

Definition create_token_pair (parent : Parent.t) (user_agent : option string)
    (now : Z) (refresh_raw : string) (row_id : UUID) : M TokenPair :=
  let access_token := create_access_token parent now in
  store_refresh_token (Parent.id parent) refresh_raw user_agent now row_id ;;
  ret {| access_token := access_token;
         refresh_token := refresh_raw;
         token_type := "bearer";
         expires_in := ACCESS_TOKEN_MINUTES * 60 |}.

Definition get_current_parent (credentials : AccessToken) (now : Z) : M Parent.t :=
  payload <- decode_access_token credentials now ;;
  let parent_id := sub payload in
  let token_version := claim_token_version payload in
  match parent_id with
  | None => raise (HTTPException 401 "Invalid token")
  | Some parent_id =>
      parent <- execute (fun st =>
                  first (fun p => uuid_eqb (Parent.id p) parent_id) (parents st)) ;;
      match parent with
      | None => raise (HTTPException 401 "User inactive or not found")
      | Some parent =>
          if negb (Parent.is_active parent)
          then raise (HTTPException 401 "User inactive or not found")
          else
            match token_version with
            | Some v =>
                if Z.eqb (Parent.token_version parent) v
                then ret parent
                else raise (HTTPException 401 "Token revoked")
            | None => raise (HTTPException 401 "Token revoked")
            end
      end
  end.

Definition hash_api_key (raw : string) : string :=
  hmac_sha256_hexdigest SECRET_KEY raw.

Definition verify_api_key (api_key : option string) : M APIKey.t :=
  if negb (str_truthy api_key)
  then raise (HTTPException 401 "API key required")
  else
    let hashed := hash_api_key (match api_key with Some k => k | None => "" end) in
    key <- execute (fun st =>
             first (fun k => String.eqb (APIKey.key k) hashed) (api_keys st)) ;;
    match key with
    | None => raise (HTTPException 403 "Invalid or revoked API key")
    | Some key =>
        if APIKey.revoked key
        then raise (HTTPException 403 "Invalid or revoked API key")
        else ret key
    end.

(* ------------------------------------------------------------------ *)
(** *** [app/routes/auth_routes.py] *)

Definition signup (name email password : string) (salt : string) (new_id : UUID)
    : M (UUID * string) :=
  if py_len password <? 10
  then raise (HTTPException 400 "Password must be at least 10 characters")
  else if utf8_len password >? 72
  then raise (HTTPException 400 "Password too long (max 72 characters allowed)")
  else
    existing <- execute (fun st =>
                  first (fun p => String.eqb (Parent.email p) email) (parents st)) ;;
    match existing with
    | Some _ => raise (HTTPException 400 "Email already exists")
    | None =>
        (* pwd_ctx.hash refuses a password that holds a NUL character *)
        if has_nul password
        then raise ValueError
        else
          let parent := Parent.mk new_id name email (hash_password salt password)
                                  "parent" 1 true in
          parent <- add_parent parent ;;
          db_commit ;;
          ret (Parent.id parent, Parent.email parent)
    end.

Definition login (email password : string) (user_agent : option string)
    (now : Z) (refresh_raw : string) (row_id : UUID) : M TokenPair :=
  parent <- execute (fun st =>
              first (fun p => String.eqb (Parent.email p) email) (parents st)) ;;
  match parent with
  | None => raise (HTTPException 401 "Invalid credentials")
  | Some parent =>
      if negb (verify_password password (Parent.password_hash parent))
      then raise (HTTPException 401 "Invalid credentials")
      else if negb (Parent.is_active parent)
      then raise (HTTPException 403 "Account disabled")
      else create_token_pair parent user_agent now refresh_raw row_id
  end.

Definition refresh (refresh_token : string)
    (now : Z) (refresh_raw : string) (row_id : UUID) : M TokenPair :=
  let token_hash := hash_refresh_token refresh_token in
  stored <- execute (fun st =>
              first (fun r => String.eqb (RefreshToken.token_hash r) token_hash)
                    (refresh_tokens st)) ;;
  match stored with
  | None => raise (HTTPException 401 "Invalid refresh token")
  | Some stored =>
      if RefreshToken.expires_at stored <? now
      then
        db_delete_refresh_token stored ;;
        db_commit ;;
        raise (HTTPException 401 "Refresh token expired")
      else
        (* fetch parent *)
        parent <- execute (fun st =>
                    first (fun p => uuid_eqb (Parent.id p) (RefreshToken.parent_id stored))
                          (parents st)) ;;
        match parent with
        | None => raise (HTTPException 401 "User inactive")
        | Some parent =>
            if negb (Parent.is_active parent)
            then raise (HTTPException 401 "User inactive")
            else
              (* ROTATE: delete old refresh token *)
              db_delete_refresh_token stored ;;
              db_commit ;;
              create_token_pair parent None now refresh_raw row_id
        end
  end.

Definition logout (current_parent : Parent.t) : M string :=
  (* revoke all access tokens *)
  emit_checked (fits_integer (Parent.token_version current_parent + 1))
    (with_parents
       (update_where (fun p => uuid_eqb (Parent.id p) (Parent.id current_parent))
          (Parent.set_token_version (Parent.token_version current_parent + 1)))) ;;
  (* revoke all refresh tokens *)
  revoke_all_refresh_tokens (Parent.id current_parent) ;;
  db_commit ;;
  ret "logged_out".

Definition create_api_key (owner : string) (current_parent : Parent.t)
    (raw_key : string) (row_id : UUID) : M (string * string) :=
  if negb (String.eqb (Parent.role current_parent) "admin")
  then raise (HTTPException 403 "Admin only")
  else
    let hashed := hash_api_key raw_key in
    let api_key := APIKey.mk row_id hashed owner false in
    add_api_key api_key ;;
    db_commit ;;
    ret (raw_key, owner).

(* ------------------------------------------------------------------ *)
(** *** [app/routes/parent_routes.py] *)

Definition count_children (parent_id : UUID) (st : Store) : Z :=
  Z.of_nat (List.length
              (filter (fun c => uuid_eqb (Child.parent_id c) parent_id) (children st))).

Definition create_child (child_name : string) (age : Z) (current_parent : Parent.t)
    (child_id analytics_id : UUID) : M Child.t :=
  (* Max 3 children rule *)
  count <- execute (count_children (Parent.id current_parent)) ;;
  if count >=? 3
  then raise (HTTPException 409 "Maximum 3 children allowed per parent")
  else
    try_except_IntegrityError
      (child <- add_child (Child.mk child_id (Parent.id current_parent) None
                                    child_name age) ;;
       add_child_analytics (ChildAnalytics.new analytics_id (Child.id child)) ;;
       db_commit ;;
       ret child)
      (db_rollback ;;
       raise (HTTPException 409 "Child creation conflict")).

(** [select(Toy).join(Child, Toy.id == Child.toy_id)
       .where(Toy.toy_uuid == toy_uuid, Child.parent_id == parent.id)]:
    one result row per matching (toy, child) pair. *)
Definition toys_paired_with_parent (toy_uuid parent_id : UUID) (st : Store)
    : list Toy.t :=
  flat_map (fun t =>
    flat_map (fun c =>
      if nullable_is (Child.toy_id c) (Toy.id t)
         && uuid_eqb (Toy.toy_uuid t) toy_uuid
         && uuid_eqb (Child.parent_id c) parent_id
      then [t] else [])
      (children st))
    (toys st).

Record ToyStatus := mk_toy_status {
  status_toy_uuid : UUID;
  status_is_active : bool;
  status_last_seen : option datetime }.

Definition get_toy_status (toy_uuid : UUID) (parent : Parent.t) (now : Z)
    : M ToyStatus :=
  toy <- execute (fun st => hd_error (toys_paired_with_parent toy_uuid (Parent.id parent) st)) ;;
  match toy with
  | None => raise (HTTPException 404 "Toy not found")
  | Some toy =>
      let now := datetime_now_utc now in
      match Toy.last_seen toy with
      | Some seen =>
          let last_seen :=
            match tz seen with
            | None => replace_tzinfo seen utc
            | Some _ => seen
            end in
          let is_online := instant now - instant last_seen <? timedelta_minutes 2 in
          ret (mk_toy_status toy_uuid is_online (Some last_seen))
      | None =>
          ret (mk_toy_status toy_uuid false None)
      end
  end.

(* ------------------------------------------------------------------ *)
(** *** [app/routes/toy_routes.py] *)

Definition owned_child (child_id parent_id : UUID) (st : Store) : option Child.t :=
  first (fun c => uuid_eqb (Child.id c) child_id
                  && uuid_eqb (Child.parent_id c) parent_id) (children st).

Definition toy_by_uuid (toy_uuid : UUID) (st : Store) : option Toy.t :=
  first (fun t => uuid_eqb (Toy.toy_uuid t) toy_uuid) (toys st).

Definition pair_toy (toy_uuid child_id : UUID) (parent : Parent.t) (now : Z)
    : M string :=
  child <- execute (owned_child child_id (Parent.id parent)) ;;
  match child with
  | None => raise (HTTPException 403 "Child not owned by parent")
  | Some child =>
      toy <- execute (toy_by_uuid toy_uuid) ;;
      match toy with
      | None => raise (HTTPException 404 "Toy not found")
      | Some toy =>
          if nullable_is (Child.toy_id child) (Toy.id toy)
          then ret "already_paired"
          else
            emit (with_children
                    (update_where (fun c => uuid_eqb (Child.id c) (Child.id child))
                       (Child.set_toy_id (Some (Toy.id toy))))) ;;
            emit (with_toys
                    (update_where (fun t => uuid_eqb (Toy.id t) (Toy.id toy))
                       (Toy.set_liveness true
                          (Some (timestamptz (datetime_utcnow now)))))) ;;
            db_commit ;;
            ret "paired"
      end
  end.

Record ActiveChildSet := mk_active_child_set {
  acs_status : string;
  acs_toy_uuid : UUID;
  acs_child_id : UUID }.

Definition set_active_child (toy_uuid child_id : UUID) (parent : Parent.t)
    : M ActiveChildSet :=
  (* 1. verify child belongs to parent *)
  child <- execute (owned_child child_id (Parent.id parent)) ;;
  match child with
  | None => raise (HTTPException 403 "Child not owned by parent")
  | Some child =>
      (* 2. verify toy exists and is paired with parent *)
      toy <- execute (fun st =>
               hd_error (toys_paired_with_parent toy_uuid (Parent.id parent) st)) ;;
      match toy with
      | None => raise (HTTPException 404 "Toy not found or unauthorized")
      | Some toy =>
          (* 3. set runtime active child *)
          emit (with_toys
                  (update_where (fun t => uuid_eqb (Toy.id t) (Toy.id toy))
                     (Toy.set_active_child_id (Some (Child.id child))))) ;;
          db_commit ;;
          ret (mk_active_child_set "active_child_set" toy_uuid child_id)
      end
  end.

(** [.order_by(Conversation.last_activity.desc())] followed by
    [.first()]: the row with the greatest [last_activity], the earliest
    such row on a tie. *)
Fixpoint most_recent (rows : list Conversation.t) : option Conversation.t :=
  match rows with
  | [] => None
  | c :: rest =>
      match most_recent rest with
      | Some d =>
          if Conversation.last_activity c <? Conversation.last_activity d
          then Some d else Some c
      | None => Some c
      end
  end.

Record ToyAskResponse := mk_toy_ask_response {
  resp_conversation_id : UUID;
  resp_answer : string }.

Definition toy_ask (question : string) (toy_uuid : UUID) (api_key : APIKey.t)
    (now : Z) (conversation_id user_msg_id assistant_msg_id : UUID)
    : M ToyAskResponse :=
  (* 1. Verify toy *)
  toy <- execute (toy_by_uuid toy_uuid) ;;
  match toy with
  | None => raise (HTTPException 401 "Invalid or inactive toy")
  | Some toy =>
  if negb (Toy.is_active toy)
  then raise (HTTPException 401 "Invalid or inactive toy")
  else
  (* 2. Active child must exist *)
  match Toy.active_child_id toy with
  | None => raise (HTTPException 409 "No active child set on toy")
  | Some active_child_id =>
  child <- execute (fun st =>
             first (fun c => uuid_eqb (Child.id c) active_child_id) (children st)) ;;
  match child with
  | None => raise (HTTPException 404 "Active child not found")
  | Some child =>
  (* 3. Get or create conversation *)
  found <- execute (fun st =>
             most_recent
               (filter (fun c => uuid_eqb (Conversation.child_id c) (Child.id child))
                       (conversations st))) ;;
  conversation <-
    match found with
    | Some c => ret c
    | None =>
        let c := Conversation.mk conversation_id (Child.id child) now in
        add_conversation c ;; ret c
    end ;;
  emit (with_conversations
          (update_where
             (fun c => uuid_eqb (Conversation.id c) (Conversation.id conversation))
             (Conversation.set_last_activity
                (instant (timestamptz (datetime_utcnow now)))))) ;;
  (* 4. Store child question *)
  add_message (Message.mk user_msg_id (Conversation.id conversation) user question) ;;
  (* 5. AI call (dummy for now) *)
  let ai_answer := String.append "Answer to: " question in
  add_message
    (Message.mk assistant_msg_id (Conversation.id conversation) assistant ai_answer) ;;
  (* 6. Update analytics *)
  analytics <- execute (fun st =>
                 first (fun a => uuid_eqb (ChildAnalytics.child_id a) (Child.id child))
                       (child_analytics st)) ;;
  match analytics with
  | Some a =>
      emit_checked
        (fits_integer (ChildAnalytics.total_questions a + 1)
         && fits_integer (ChildAnalytics.weekly_questions a + 1))
        (with_child_analytics
           (update_where
              (fun r => uuid_eqb (ChildAnalytics.id r) (ChildAnalytics.id a))
              (fun r => ChildAnalytics.mk
                          (ChildAnalytics.id r) (ChildAnalytics.child_id r)
                          (ChildAnalytics.total_questions a + 1)
                          (ChildAnalytics.weekly_questions a + 1)
                          (Some (date_of now)))))
  | None => ret tt
  end ;;
  db_commit ;;
  ret (mk_toy_ask_response (Conversation.id conversation) ai_answer)
  end end end.

Definition toy_heartbeat (toy_uuid : UUID) (api_key : APIKey.t) (now : Z)
    : M string :=
  toy <- execute (toy_by_uuid toy_uuid) ;;
  match toy with
  | None => raise (HTTPException 401 "Unknown toy")
  | Some toy =>
      emit (with_toys
              (update_where (fun t => uuid_eqb (Toy.id t) (Toy.id toy))
                 (Toy.set_liveness true (Some (timestamptz (datetime_utcnow now)))))) ;;
      db_commit ;;
      ret "ok"
  end.

End Handlers.

(* ================================================================== *)
(** ** The HTTP surface

    An endpoint is its handler behind the dependencies FastAPI resolves
    for it: [get_current_parent] for bearer routes, [verify_api_key] for
    the toy routes. *)

Section Endpoints.
Context {settings : Settings} {crypto : Crypto}.

Definition POST_auth_logout (credentials : AccessToken) (now : Z) : M string :=
  current_parent <- get_current_parent credentials now ;;
  logout current_parent.

Definition POST_auth_apikey_create (credentials : AccessToken) (now : Z)
    (owner raw_key : string) (row_id : UUID) : M (string * string) :=
  current_parent <- get_current_parent credentials now ;;
  create_api_key owner current_parent raw_key row_id.

Definition POST_parent_children (credentials : AccessToken) (now : Z)
    (child_name : string) (age : Z) (child_id analytics_id : UUID) : M Child.t :=
  current_parent <- get_current_parent credentials now ;;
  create_child child_name age current_parent child_id analytics_id.

Definition GET_parent_toy_status (credentials : AccessToken) (now : Z)
    (toy_uuid : UUID) : M ToyStatus :=
  parent <- get_current_parent credentials now ;;
  get_toy_status toy_uuid parent now.

Definition POST_toy_pair (credentials : AccessToken) (now : Z)
    (toy_uuid child_id : UUID) : M string :=
  parent <- get_current_parent credentials now ;;
  pair_toy toy_uuid child_id parent now.

Definition POST_toy_set_active_child (credentials : AccessToken) (now : Z)
    (toy_uuid child_id : UUID) : M ActiveChildSet :=
  parent <- get_current_parent credentials now ;;
  set_active_child toy_uuid child_id parent.

Definition POST_toy_ask (x_api_key : option string) (x_toy_uuid : UUID)
    (question : string) (now : Z)
    (conversation_id user_msg_id assistant_msg_id : UUID) : M ToyAskResponse :=
  api_key <- verify_api_key x_api_key ;;
  toy_ask question x_toy_uuid api_key now conversation_id user_msg_id assistant_msg_id.

Definition POST_toy_heartbeat (x_api_key : option string) (x_toy_uuid : UUID)
    (now : Z) : M string :=
  api_key <- verify_api_key x_api_key ;;
  toy_heartbeat x_toy_uuid api_key now.

(** A request, with the random draws its handler makes.  These are the
    routes that write, and the status query; the other GET routes only
    read. *)
Inductive Request :=
| Signup (name email password salt : string) (new_id : UUID)
| Login (email password : string) (user_agent : option string)
        (refresh_raw : string) (row_id : UUID)
| Refresh (refresh_token refresh_raw : string) (row_id : UUID)
| Logout (credentials : AccessToken)
| ApiKeyCreate (credentials : AccessToken) (owner raw_key : string) (row_id : UUID)
| CreateChild (credentials : AccessToken) (child_name : string) (age : Z)
              (child_id analytics_id : UUID)
| ToyStatusQuery (credentials : AccessToken) (toy_uuid : UUID)
| PairToy (credentials : AccessToken) (toy_uuid child_id : UUID)
| SetActiveChild (credentials : AccessToken) (toy_uuid child_id : UUID)
| ToyAsk (x_api_key : option string) (x_toy_uuid : UUID) (question : string)
         (conversation_id user_msg_id assistant_msg_id : UUID)
| ToyHeartbeat (x_api_key : option string) (x_toy_uuid : UUID).

(** The status line of the response; an exception no handler catches
    becomes a 500. *)
Definition status_of {A} (success : Z) (r : Outcome A) : Z :=
  match r with
  | Ok _ => success
  | Raise (HTTPException code _) => code
  | Raise _ => 500
  end.

Definition respond {A} (success : Z) (handler : M A) (st : Store) : Z * Store :=
  let (r, st') := run_request handler st in (status_of success r, st').

Definition serve (now : Z) (req : Request) : Store -> Z * Store :=
  match req with
  | Signup name email password salt new_id =>
      respond 201 (signup name email password salt new_id)
  | Login email password user_agent refresh_raw row_id =>
      respond 200 (login email password user_agent now refresh_raw row_id)
  | Refresh token refresh_raw row_id =>
      respond 200 (refresh token now refresh_raw row_id)
  | Logout credentials =>
      respond 200 (POST_auth_logout credentials now)
  | ApiKeyCreate credentials owner raw_key row_id =>
      respond 200 (POST_auth_apikey_create credentials now owner raw_key row_id)
  | CreateChild credentials child_name age child_id analytics_id =>
      respond 200 (POST_parent_children credentials now child_name age
                                        child_id analytics_id)
  | ToyStatusQuery credentials toy_uuid =>
      respond 200 (GET_parent_toy_status credentials now toy_uuid)
  | PairToy credentials toy_uuid child_id =>
      respond 200 (POST_toy_pair credentials now toy_uuid child_id)
  | SetActiveChild credentials toy_uuid child_id =>
      respond 200 (POST_toy_set_active_child credentials now toy_uuid child_id)
  | ToyAsk x_api_key x_toy_uuid question c m1 m2 =>
      respond 200 (POST_toy_ask x_api_key x_toy_uuid question now c m1 m2)
  | ToyHeartbeat x_api_key x_toy_uuid =>
      respond 200 (POST_toy_heartbeat x_api_key x_toy_uuid now)
  end.

(** The store after a sequence of timestamped requests. *)
Fixpoint serve_all (trace : list (Z * Request)) (st : Store) : Store :=
  match trace with
  | [] => st
  | (now, req) :: rest => serve_all rest (snd (serve now req st))
  end.

(** Requests that pair the toy [toy_uuid] or carry its heartbeat. *)
Definition pairs_or_heartbeats (toy_uuid : UUID) (req : Request) : bool :=
  match req with
  | PairToy _ u _ => uuid_eqb u toy_uuid
  | ToyHeartbeat _ u => uuid_eqb u toy_uuid
  | _ => false
  end.

End Endpoints.

(* ================================================================== *)
(** ** Properties of stores that the claims speak about *)

(** The invariant of the data model on the active speaker: an
    [active_child_id] that is set references a child whose [toy_id] is
    that toy. *)
Definition active_child_paired (st : Store) : Prop :=
  forall t c,
    In t (toys st) -> Toy.active_child_id t = Some c ->
    exists child, In child (children st)
                  /\ Child.id child = c
                  /\ Child.toy_id child = Some (Toy.id t).

Definition active_child_pairedb (st : Store) : bool :=
  forallb (fun t =>
    match Toy.active_child_id t with
    | None => true
    | Some c =>
        existsb (fun child => uuid_eqb (Child.id child) c
                              && nullable_is (Child.toy_id child) (Toy.id t))
                (children st)
    end) (toys st).

(** Some child of the parent is paired with the toy. *)
Definition paired_with_parent (parent_id : UUID) (st : Store) (t : Toy.t) : bool :=
  existsb (fun c => nullable_is (Child.toy_id c) (Toy.id t)
                    && uuid_eqb (Child.parent_id c) parent_id)
          (children st).

Definition analytics_of (child_id : UUID) (st : Store) : option ChildAnalytics.t :=
  first (fun a => uuid_eqb (ChildAnalytics.child_id a) child_id) (child_analytics st).

Definition analytics_rows_of (child_id : UUID) (st : Store) : list ChildAnalytics.t :=
  filter (fun a => uuid_eqb (ChildAnalytics.child_id a) child_id) (child_analytics st).

Definition conversation_of (child_id : UUID) (st : Store) : option Conversation.t :=
  most_recent
    (filter (fun c => uuid_eqb (Conversation.child_id c) child_id) (conversations st)).

Definition role_eqb (a b : RoleEnum) : bool :=
  match a, b with
  | user, user | assistant, assistant | system, system => true
  | _, _ => false
  end.

Definition count_role (conversation_id : UUID) (role : RoleEnum)
    (rows : list Message.t) : nat :=
  List.length
    (filter (fun m => uuid_eqb (Message.conversation_id m) conversation_id
                      && role_eqb (Message.role m) role) rows).

(** The number of messages of a role in a conversation. *)
Definition count_messages (conversation_id : UUID) (role : RoleEnum) (st : Store) : nat :=
  count_role conversation_id role (messages st).

(** The identifiers [uuid.uuid4] draws for a new child and its analytics
    row are not in use. *)
Definition fresh_child_ids (child_id analytics_id : UUID) (st : Store) : Prop :=
  ~ In child_id (map Child.id (children st))
  /\ ~ In child_id (map ChildAnalytics.child_id (child_analytics st))
  /\ ~ In analytics_id (map ChildAnalytics.id (child_analytics st)).

(** The identifiers [uuid.uuid4] draws for the rows of one [toy_ask] are
    not in use; the conversation id is drawn only when the child has no
    conversation yet. *)
Definition fresh_ask_ids (child_id conversation_id user_msg_id assistant_msg_id : UUID)
    (st : Store) : Prop :=
  ~ In user_msg_id (map Message.id (messages st))
  /\ ~ In assistant_msg_id (map Message.id (messages st))
  /\ user_msg_id <> assistant_msg_id
  /\ (conversation_of child_id st = None ->
      ~ In conversation_id (map Conversation.id (conversations st))).

(** The writes of a [toy_ask] that passed its guards, given the
    conversation it resolved. *)
Definition asked {settings : Settings} (question : string) (now : Z)
    (conversation : Conversation.t)
    (user_msg_id assistant_msg_id : UUID) (a : ChildAnalytics.t) (st : Store) : Store :=
  with_child_analytics
    (update_where
       (fun r => uuid_eqb (ChildAnalytics.id r) (ChildAnalytics.id a))
       (fun r => ChildAnalytics.mk
                   (ChildAnalytics.id r) (ChildAnalytics.child_id r)
                   (ChildAnalytics.total_questions a + 1)
                   (ChildAnalytics.weekly_questions a + 1)
                   (Some (date_of now))))
    (with_messages
       (fun l => (l ++ [Message.mk user_msg_id (Conversation.id conversation) user question])
                 ++ [Message.mk assistant_msg_id (Conversation.id conversation) assistant
                                (String.append "Answer to: " question)])
       (with_conversations
          (update_where
             (fun c => uuid_eqb (Conversation.id c) (Conversation.id conversation))
             (Conversation.set_last_activity
                (instant (timestamptz (datetime_utcnow now)))))
          st)).

(** The primary key and the UNIQUE [toy_uuid] of [toys]. *)
Definition toy_keys_unique (st : Store) : Prop :=
  NoDup (map Toy.id (toys st)) /\ NoDup (map Toy.toy_uuid (toys st)).

(** The UNIQUE constraint on [refresh_tokens.token_hash]. *)
Definition token_hash_unique (st : Store) : Prop :=
  NoDup (map RefreshToken.token_hash (refresh_tokens st)).

(** Every child has an analytics row. *)
Definition children_have_analytics (st : Store) : Prop :=
  forall c, In c (children st) -> exists a, analytics_of (Child.id c) st = Some a.

(** The foreign key of [toys.active_child_id]. *)
Definition active_children_exist (st : Store) : Prop :=
  forall t c, In t (toys st) -> Toy.active_child_id t = Some c ->
    exists child, first (fun x => uuid_eqb (Child.id x) c) (children st) = Some child.

(** What the toy and token claims assume of a store. *)
Definition consistent (st : Store) : Prop :=
  toy_keys_unique st /\ token_hash_unique st
  /\ children_have_analytics st /\ active_children_exist st.

(** A store predicate that a handler maintains: it holds of the committed
    store and of the transaction's view when the handler stops, by return
    or by exception, if it held of both when the handler started. *)
Definition maintains (P : Store -> Prop) {A} (m : M A) : Prop :=
  forall s, P (committed s) -> P (pending s) ->
            P (committed (snd (m s))) /\ P (pending (snd (m s))).

(** The toy [toy_uuid] is registered and no row carrying that uuid has
    its [is_active] flag set. *)
Definition dormant (toy_uuid : UUID) (st : Store) : Prop :=
  NoDup (map Toy.id (toys st))
  /\ (exists toy, toy_by_uuid toy_uuid st = Some toy)
  /\ (forall t, In t (toys st) -> Toy.toy_uuid t = toy_uuid -> Toy.is_active t = false).

(* ================================================================== *)
(** ** A concrete deployment, for running the handlers on examples *)

Module Demo.

Definition settings : Settings :=
  {| SECRET_KEY := "s3cret"; ACCESS_TOKEN_MINUTES := 15; REFRESH_TOKEN_DAYS := 30;
     utcoffset := fun _ => 0 |}.

(** Stand-ins for the primitives: injective in the message, which is
    all the examples need. *)
Definition crypto : Crypto :=
  {| hmac_sha256_hexdigest := fun key msg => String.append key (String.append ":" msg);
     pwd_ctx_hash := fun salt password => String.append salt (String.append "$" password);
     pwd_ctx_verify := fun raw hashed =>
       match index 0 "$" hashed with
       | Some n => String.eqb (substring (S n) (String.length hashed) hashed) raw
       | None => false
       end |}.

Definition alice : Parent.t :=
  Parent.mk 1 "Alice" "alice@example.org" "salt$correct horse" "parent" 1 true.

Definition robot : Toy.t := Toy.new 10 100.
Definition rover : Toy.t := Toy.new 11 101.

Definition machine_key : APIKey.t :=
  APIKey.mk 50 (@hash_api_key settings crypto "toy-key") "factory" false.
Definition revoked_key : APIKey.t :=
  APIKey.mk 51 (@hash_api_key settings crypto "old-key") "factory" true.

(** One parent, two registered toys that were never paired, two machine
    keys. *)
Definition st0 : Store :=
  mk_store [alice] [robot; rover] [] [] [] [] [machine_key; revoked_key] [].

Definition alice_token : AccessToken :=
  @create_access_token settings alice 0.

Definition t0 : Z := 1000000.

(** Alice creates two children and pairs the toy with the first. *)
Definition st_paired : Store :=
  @serve_all settings crypto
    [ (t0, CreateChild alice_token "Ann" 6 20 30);
      (t0, CreateChild alice_token "Bob" 4 21 31);
      (t0, PairToy alice_token 100 20) ] st0.

(** ... and then makes the second, unpaired child the active speaker. *)
Definition st_active : Store :=
  @serve_all settings crypto [ (t0, SetActiveChild alice_token 100 21) ] st_paired.

(** The toy as it is stored once paired. *)
Definition robot_paired : Toy.t :=
  Toy.mk 10 100 true (Some (@timestamptz settings (datetime_utcnow t0))) None.

(** A third child: the limit is reached. *)
Definition st_full : Store :=
  @serve_all settings crypto [ (t0, CreateChild alice_token "Cid" 9 22 32) ] st_paired.

(** Alice logs in on the unpaired store and holds one refresh token. *)
Definition st_logged_in : Store :=
  @serve_all settings crypto
    [ (t0, Login "alice@example.org" "correct horse" None "refresh-1" 40) ] st0.

(** Bob's counters are at the top of the INTEGER range. *)
Definition st_counters_full : Store :=
  with_child_analytics
    (map (fun a => ChildAnalytics.mk (ChildAnalytics.id a) (ChildAnalytics.child_id a)
                                     INT32_MAX INT32_MAX
                                     (ChildAnalytics.last_active_date a)))
    st_active.

(** The analytics rows are gone. *)
Definition st_no_analytics : Store :=
  with_child_analytics (fun _ => []) st_active.

Fixpoint replicate (n : nat) (c : ascii) : string :=
  match n with
  | O => EmptyString
  | S m => String c (replicate m c)
  end.

(** Requests that neither pair the toy 100 nor carry its heartbeat. *)
Definition quiet_trace : list (Z * Request) :=
  [ (t0, CreateChild alice_token "Ann" 6 20 30);
    (t0, SetActiveChild alice_token 100 20);
    (t0, ToyAsk (Some "toy-key") 100 "why?" 70 71 72);
    (t0, Login "alice@example.org" "correct horse" None "refresh-1" 40);
    (t0, ToyHeartbeat (Some "toy-key") 101) ].

End Demo.

(* ================================================================== *)
(** ** The reading routes of the parent dashboard
    ([app/routes/parent_routes.py]) *)

(** [select(ChildAnalytics).join(Child)
       .where(Child.id == child_id, Child.parent_id == parent.id)]:
    the join is on the foreign key [child_analytics.child_id]. *)
Definition analytics_joined (child_id parent_id : UUID) (st : Store)
    : list ChildAnalytics.t :=
  flat_map (fun a =>
    flat_map (fun c =>
      if uuid_eqb (ChildAnalytics.child_id a) (Child.id c)
         && uuid_eqb (Child.id c) child_id
         && uuid_eqb (Child.parent_id c) parent_id
      then [a] else [])
      (children st))
    (child_analytics st).

Definition get_child_analytics (child_id : UUID) (parent : Parent.t)
    : M ChildAnalytics.t :=
  analytics <- execute (fun st => hd_error (analytics_joined child_id (Parent.id parent) st)) ;;
  match analytics with
  | None => raise (HTTPException 404 "Analytics not initialized for this child")
  | Some analytics => ret analytics
  end.

Record ActiveChild := mk_active_child {
  ac_toy_uuid : UUID;
  ac_child_id : UUID;
  ac_child_name : string }.

Definition get_active_child (toy_uuid : UUID) (parent : Parent.t) : M ActiveChild :=
  toy <- execute (fun st =>
           hd_error (toys_paired_with_parent toy_uuid (Parent.id parent) st)) ;;
  match toy with
  | None => raise (HTTPException 404 "No active child set")
  | Some toy =>
      match Toy.active_child_id toy with
      | None => raise (HTTPException 404 "No active child set")
      | Some active_child_id =>
          child <- execute (fun st =>
                     first (fun c => uuid_eqb (Child.id c) active_child_id)
                           (children st)) ;;
          match child with
          | None => raise (HTTPException 404 "Active child not found")
          | Some child =>
              ret (mk_active_child toy_uuid (Child.id child) (Child.child_name child))
          end
      end
  end.

(* ================================================================== *)
(** ** When a handler commits *)

(** The handler leaves the committed store alone. *)
Definition quiet {A} (m : M A) : Prop :=
  forall s, committed (snd (m s)) = committed s.

(** The handler never raises. *)
Definition sure {A} (m : M A) : Prop :=
  forall s, exists a, fst (m s) = Ok a.

(** If the handler raises, nothing was committed. *)
Definition all_or_nothing {A} (m : M A) : Prop :=
  forall s, match fst (m s) with
            | Ok _ => True
            | Raise _ => committed (snd (m s)) = committed s
            end.

Definition is_refresh (req : Request) : bool :=
  match req with
  | Refresh _ _ _ => true
  | _ => false
  end.

(* ================================================================== *)
(** ** A second deployment: several parents *)

Module Scenario.

Definition mallory : Parent.t :=
  Parent.mk 2 "Mallory" "mallory@example.org" "salt$hunter2hunter2" "parent" 1 true.
Definition root : Parent.t :=
  Parent.mk 3 "Root" "root@example.org" "salt$administrator" "admin" 1 true.
Definition zed : Parent.t :=
  Parent.mk 4 "Zed" "zed@example.org" "salt$sleeping-now" "parent" 1 false.

(** The paired store of [Demo], with three more parents: Mallory owns no
    child, Root is an admin, Zed is deactivated. *)
Definition st : Store :=
  with_parents (fun l => l ++ [mallory; root; zed]) Demo.st_paired.


Definition mallory_token : AccessToken := @create_access_token Demo.settings mallory 0.
Definition root_token : AccessToken := @create_access_token Demo.settings root 0.

(** Everybody but Zed is logged in. *)
Definition st_sessions : Store :=
  @serve_all Demo.settings Demo.crypto
    [ (Demo.t0, Login "alice@example.org" "correct horse" None "alice-refresh" 40);
      (Demo.t0, Login "mallory@example.org" "hunter2hunter2" None "mallory-refresh" 41) ]
    st.

End Scenario.

(* ================================================================== *)
(** * Verification *)

(** ** Rows, lookups and updates *)

Ltac run_monad :=
  unfold run_request, insert_row, emit_checked, bind, execute, emit, db_commit,
         db_rollback, ret, raise, insert_checked, try_except_IntegrityError in *;
  cbn [pending committed fst snd] in *.

Tactic Notation "run_monad" "in" hyp(H) :=
  unfold run_request, insert_row, emit_checked, bind, execute, emit, db_commit,
         db_rollback, ret, raise, insert_checked, try_except_IntegrityError in H;
  cbn [pending committed fst snd] in H.

(** ** Column types *)

Lemma fits_integer_spec (v : Z) :
  fits_integer v = true <-> INT32_MIN <= v <= INT32_MAX.
Proof.
  unfold fits_integer. rewrite andb_true_iff, !Z.leb_le. tauto.
Qed.

Lemma has_nul_append (a b : string) :
  has_nul (String.append a b) = has_nul a || has_nul b.
Proof.
  induction a as [|c a IH]; cbn [String.append has_nul]; [reflexivity|].
  now rewrite IH, orb_assoc.
Qed.

(** A value that fits is stored as it is. *)
Lemma varchar_fits (n : Z) (s : string) :
  fits_varchar n s = true -> varchar n s = Some s.
Proof. intros H. unfold varchar. now rewrite H. Qed.

(** What is stored holds no NUL character. *)
Lemma split_chars_nul (n : nat) (s : string) :
  has_nul s = false -> has_nul (fst (split_chars n s)) = false.
Proof.
  revert n. induction s as [|c s IH]; intros n H; cbn [split_chars]; [reflexivity|].
  cbn [has_nul] in H. apply orb_false_iff in H. destruct H as [Hc Hs].
  destruct (is_continuation c).
  - specialize (IH n Hs). destruct (split_chars n s). cbn [fst has_nul] in *.
    now rewrite Hc, IH.
  - destruct n as [|m]; [reflexivity|].
    specialize (IH m Hs). destruct (split_chars m s). cbn [fst has_nul] in *.
    now rewrite Hc, IH.
Qed.

Lemma varchar_no_nul (n : Z) (s stored : string) :
  varchar n s = Some stored -> has_nul stored = false.
Proof.
  unfold varchar, fits_varchar, fits_text.
  destruct (has_nul s) eqn:Hs; cbn [negb andb].
  - discriminate.
  - destruct (py_len s <=? n).
    + now intros [= <-].
    + pose proof (split_chars_nul (Z.to_nat n) s Hs) as H.
      destruct (split_chars (Z.to_nat n) s) as [kept lost].
      destruct (all_spaces lost); [|discriminate]. now intros [= <-].
Qed.

(** A value of at most [n] characters is stored as it is or not at all. *)
Lemma varchar_short (n : Z) (s stored : string) :
  varchar n s = Some stored -> py_len s <= n -> stored = s.
Proof.
  unfold varchar, fits_varchar, fits_text. intros H Hlen.
  apply Z.leb_le in Hlen. rewrite Hlen, andb_true_r in H.
  destruct (has_nul s); cbn [negb] in H; [discriminate|]. now injection H.
Qed.

Lemma child_row_some (c row : Child.t) :
  child_row c = Some row ->
  exists child_name,
    varchar 100 (Child.child_name c) = Some child_name
    /\ fits_integer (Child.age c) = true
    /\ row = Child.mk (Child.id c) (Child.parent_id c) (Child.toy_id c)
                      child_name (Child.age c).
Proof.
  unfold child_row. destruct (varchar 100 (Child.child_name c)) as [n|]; [|discriminate].
  destruct (fits_integer (Child.age c)); [|discriminate].
  intros [= <-]. now exists n.
Qed.

Lemma child_row_none (c : Child.t) :
  child_row c = None <->
  varchar 100 (Child.child_name c) = None \/ fits_integer (Child.age c) = false.
Proof.
  unfold child_row. destruct (varchar 100 (Child.child_name c)) as [n|].
  - destruct (fits_integer (Child.age c)); split; intros H;
      try discriminate; try tauto; destruct H; discriminate.
  - tauto.
Qed.

Lemma geb_true (n m : Z) : (n >=? m) = true <-> m <= n.
Proof. rewrite Z.geb_leb. apply Z.leb_le. Qed.

Lemma geb_false (n m : Z) : (n >=? m) = false <-> n < m.
Proof. rewrite Z.geb_leb. apply Z.leb_gt. Qed.

Lemma uuid_eqb_eq (a b : UUID) : uuid_eqb a b = true <-> a = b.
Proof. apply N.eqb_eq. Qed.

Lemma uuid_eqb_neq (a b : UUID) : uuid_eqb a b = false <-> a <> b.
Proof. apply N.eqb_neq. Qed.

Lemma uuid_eqb_refl (a : UUID) : uuid_eqb a a = true.
Proof. apply N.eqb_refl. Qed.

Lemma nullable_is_eq (x : option UUID) (y : UUID) :
  nullable_is x y = true <-> x = Some y.
Proof.
  destruct x as [v|]; simpl.
  - rewrite uuid_eqb_eq. split; congruence.
  - split; discriminate.
Qed.

Section Rows.
Context {A : Type}.
Implicit Types (p q : A -> bool) (f : A -> A) (rows : list A).

Lemma first_some_in p rows r : first p rows = Some r -> In r rows /\ p r = true.
Proof. apply find_some. Qed.

Lemma first_none p rows : first p rows = None <-> forall r, In r rows -> p r = false.
Proof.
  split.
  - intros H r Hr. exact (find_none p rows H r Hr).
  - induction rows as [|a rows IH]; intros H; simpl; [reflexivity|].
    rewrite (H a (or_introl eq_refl)). apply IH. intros r Hr. apply H. now right.
Qed.

(** A lookup through an update that keeps the looked-up columns. *)
Lemma first_update_where p q f rows :
  (forall r, p (f r) = p r) ->
  first p (update_where q f rows)
  = option_map (fun r => if q r then f r else r) (first p rows).
Proof.
  intros Hp. induction rows as [|a rows IH]; simpl; [reflexivity|].
  destruct (q a) eqn:Hq.
  - rewrite Hp. destruct (p a); simpl; [now rewrite Hq | exact IH].
  - destruct (p a); simpl; [now rewrite Hq | exact IH].
Qed.

Lemma map_update_where {B} (g : A -> B) p f rows :
  (forall r, g (f r) = g r) -> map g (update_where p f rows) = map g rows.
Proof.
  intros Hg. unfold update_where. rewrite map_map. apply map_ext.
  intros r. destruct (p r); [apply Hg | reflexivity].
Qed.

Lemma in_delete_where p rows r :
  In r (delete_where p rows) <-> In r rows /\ p r = false.
Proof.
  unfold delete_where. rewrite filter_In, negb_true_iff. reflexivity.
Qed.

Lemma has_id_false (id_of : A -> UUID) i rows :
  has_id id_of i rows = false <-> ~ In i (map id_of rows).
Proof.
  unfold has_id. induction rows as [|a rows IH]; simpl.
  - split; [intros _ [] | reflexivity].
  - rewrite orb_false_iff, IH, uuid_eqb_neq. tauto.
Qed.

Lemma has_id_true (id_of : A -> UUID) i rows :
  has_id id_of i rows = true <-> In i (map id_of rows).
Proof.
  unfold has_id. rewrite existsb_exists, in_map_iff.
  split; intros [r [H1 H2]]; exists r.
  - apply uuid_eqb_eq in H2. tauto.
  - split; [tauto | apply uuid_eqb_eq; tauto].
Qed.

Lemma has_id_update_where (id_of : A -> UUID) i p f rows :
  (forall r, id_of (f r) = id_of r) ->
  has_id id_of i (update_where p f rows) = has_id id_of i rows.
Proof.
  intros Hid. destruct (has_id id_of i rows) eqn:E.
  - apply has_id_true. rewrite map_update_where by exact Hid. now apply has_id_true.
  - apply has_id_false. rewrite map_update_where by exact Hid. now apply has_id_false.
Qed.

Lemma has_id_of_in (id_of : A -> UUID) r rows :
  In r rows -> has_id id_of (id_of r) rows = true.
Proof. intros H. apply has_id_true. now apply in_map. Qed.

Lemma filter_none p rows :
  (forall r, In r rows -> p r = false) -> filter p rows = [].
Proof.
  induction rows as [|a rows IH]; intros H; simpl; [reflexivity|].
  rewrite (H a (or_introl eq_refl)). apply IH. intros r Hr. apply H. now right.
Qed.
End Rows.

Lemma join_row_first (t : Toy.t) (cond : Child.t -> bool) (cs : list Child.t)
    (rest : list Toy.t) :
  hd_error (flat_map (fun c => if cond c then [t] else []) cs ++ rest)
  = if existsb cond cs then Some t else hd_error rest.
Proof.
  induction cs as [|c cs IH]; simpl; [reflexivity|].
  destruct (cond c); simpl; [reflexivity | exact IH].
Qed.

Lemma existsb_guard {A} (a b : A -> bool) (u : bool) (rows : list A) :
  existsb (fun r => a r && u && b r) rows = u && existsb (fun r => a r && b r) rows.
Proof.
  induction rows as [|r rows IH]; simpl.
  - now rewrite andb_false_r.
  - rewrite IH. destruct (a r), u, (b r); reflexivity.
Qed.

(** The join of [toys] with [children] returns, first, the first toy with
    the given uuid that some child of the parent is paired with. *)
Lemma toys_paired_with_parent_first (toy_uuid parent_id : UUID) (st : Store) :
  hd_error (toys_paired_with_parent toy_uuid parent_id st)
  = first (fun t => uuid_eqb (Toy.toy_uuid t) toy_uuid
                    && paired_with_parent parent_id st t) (toys st).
Proof.
  unfold toys_paired_with_parent, paired_with_parent, first.
  induction (toys st) as [|t ts IH]; simpl; [reflexivity|].
  rewrite join_row_first, IH, existsb_guard.
  destruct (uuid_eqb (Toy.toy_uuid t) toy_uuid); reflexivity.
Qed.

Section Claims.
Context {settings : Settings} {crypto : Crypto}.

(* ------------------------------------------------------------------ *)
(** ** The bearer guard *)

(** The bearer guard reads only: on success it returns the first stored
    parent with the subject's id, active and at the token's version. *)
Lemma get_current_parent_ok
    (s s' : Session) (credentials : AccessToken) (now : Z) (parent : Parent.t) :
  get_current_parent credentials now s = (Ok parent, s') ->
  s' = s
  /\ first (fun p => uuid_eqb (Parent.id p) (Parent.id parent)) (parents (pending s))
     = Some parent
  /\ Parent.is_active parent = true.
Proof.
  unfold get_current_parent, decode_access_token. intros H. run_monad in H.
  destruct credentials as [c|raw]; run_monad in H; [|discriminate].
  destruct (exp c <? now / 1000000); run_monad in H; [discriminate|].
  destruct (sub c) as [pid|]; run_monad in H; [|discriminate].
  destruct (first _ (parents (pending s))) as [p|] eqn:Hp; run_monad in H; [|discriminate].
  destruct (Parent.is_active p) eqn:Hact; cbn [negb] in H; run_monad in H; [|discriminate].
  destruct (claim_token_version c) as [v|]; run_monad in H; [|discriminate].
  destruct (Parent.token_version p =? v); run_monad in H; [|discriminate].
  injection H as <- <-. repeat split; [|exact Hact].
  pose proof (first_some_in _ _ Hp) as [_ Hid]. apply uuid_eqb_eq in Hid.
  now rewrite Hid.
Qed.

(** Whatever makes the bearer guard fail, it writes nothing; a token that
    decodes is refused with a 401, one that does not ends in the
    [AttributeError] of [decode_access_token]. *)
Lemma get_current_parent_fails_closed
    (s s' : Session) (credentials : AccessToken) (now : Z) (e : Exn) :
  get_current_parent credentials now s = (Raise e, s') ->
  s' = s
  /\ match credentials with
     | Signed _ => exists detail, e = HTTPException 401 detail
     | Malformed _ => e = AttributeError
     end.
Proof.
  unfold get_current_parent, decode_access_token. intros H. run_monad in H.
  destruct credentials as [c|raw]; run_monad in H.
  2:{ injection H as <- <-. eauto. }
  destruct (exp c <? now / 1000000); run_monad in H.
  { injection H as <- <-. eauto. }
  destruct (sub c) as [pid|]; run_monad in H.
  2:{ injection H as <- <-. eauto. }
  destruct (first _ (parents (pending s))) as [p|]; run_monad in H.
  2:{ injection H as <- <-. eauto. }
  destruct (Parent.is_active p); cbn [negb] in H; run_monad in H.
  2:{ injection H as <- <-. eauto. }
  destruct (claim_token_version c) as [v|]; run_monad in H.
  2:{ injection H as <- <-. eauto. }
  destruct (Parent.token_version p =? v); run_monad in H; [discriminate|].
  injection H as <- <-. eauto.
Qed.

(* ------------------------------------------------------------------ *)
(** ** API keys *)

(** C4 (amended): [verify_api_key] never writes.  It fails with 401
    "API key required" exactly when no key, or the empty key, is
    presented; it fails with one and the same 403 "Invalid or revoked API
    key" exactly when a non-empty key is presented and either no stored
    row carries its keyed hash or the row found is revoked; and it
    returns the stored row exactly when the row found for the keyed hash
    is not revoked. *)
Theorem verify_api_key_outcomes (api_key : option string) (st : Store) :
  let r := fst (run_request (verify_api_key api_key) st) in
  let stored k :=
    first (fun row => String.eqb (APIKey.key row) (hash_api_key k)) (api_keys st) in
  snd (run_request (verify_api_key api_key) st) = st
  /\ (r = Raise (HTTPException 401 "API key required")
      <-> api_key = None \/ api_key = Some "")
  /\ (r = Raise (HTTPException 403 "Invalid or revoked API key")
      <-> exists k, api_key = Some k /\ k <> ""
                    /\ (stored k = None
                        \/ exists row, stored k = Some row /\ APIKey.revoked row = true))
  /\ (forall row, r = Ok row
      <-> exists k, api_key = Some k /\ k <> ""
                    /\ stored k = Some row /\ APIKey.revoked row = false).
Proof.
  unfold verify_api_key. run_monad.
  destruct api_key as [k|]; simpl.
  2:{ repeat split; try (intros; auto; fail); try discriminate.
      - intros (k & Hk & _). discriminate.
      - intros (k & Hk & _). discriminate. }
  destruct k as [|c k]; simpl.
  { repeat split; try (intros; auto; fail); try discriminate.
    - intros (k & Hk & Hne & _). injection Hk as <-. now elim Hne.
    - intros (k & Hk & Hne & _). injection Hk as <-. now elim Hne. }
  set (k' := String c k).
  destruct (first _ (api_keys st)) as [row|] eqn:Hrow; simpl.
  - destruct (APIKey.revoked row) eqn:Hrev; simpl.
    + repeat split; try discriminate.
      * intros [H|H]; discriminate.
      * intros _. exists k'. repeat split; [discriminate|].
        right. exists row. split; [exact Hrow | exact Hrev].
      * intros (k0 & Hk & _ & Hs & Hr). injection Hk as <-.
        fold k' in Hs. rewrite Hrow in Hs. injection Hs as <-. congruence.
    + repeat split; try discriminate.
      * intros [H|H]; discriminate.
      * intros (k0 & Hk & _ & [Hs | (row' & Hs & Hr)]); injection Hk as <-;
          fold k' in Hs; rewrite Hrow in Hs; [discriminate|].
        injection Hs as <-. congruence.
      * intros H. injection H as <-. exists k'. repeat split; [discriminate | exact Hrow | exact Hrev].
      * intros (k0 & Hk & _ & Hs & Hr). injection Hk as <-.
        fold k' in Hs. rewrite Hrow in Hs. congruence.
  - repeat split; try discriminate.
    + intros [H|H]; discriminate.
    + intros _. exists k'. repeat split; [discriminate | now left].
    + intros (k0 & Hk & _ & Hs & Hr). injection Hk as <-.
      fold k' in Hs. rewrite Hrow in Hs. discriminate.
Qed.

(* ------------------------------------------------------------------ *)
(** ** Toy liveness *)

(** C8: when the status query resolves the toy and the toy has a recorded
    [last_seen], the reply is computed from the clock of this query and
    nothing else: it reports online iff [now - last_seen] is below two
    minutes, hence online at 1 min 59 s and offline at 2 min 1 s; the
    store is not written. *)
Theorem get_toy_status_online_iff
    (st : Store) (toy_uuid : UUID) (parent : Parent.t) (now : Z)
    (toy : Toy.t) (seen : datetime) :
  hd_error (toys_paired_with_parent toy_uuid (Parent.id parent) st) = Some toy ->
  Toy.last_seen toy = Some seen ->
  exists reply,
    run_request (get_toy_status toy_uuid parent now) st = (Ok reply, st)
    /\ (status_is_active reply = true <-> now - instant seen < timedelta_minutes 2)
    /\ (now - instant seen = 119 * 1000000 -> status_is_active reply = true)
    /\ (now - instant seen = 121 * 1000000 -> status_is_active reply = false).
Proof.
  intros Htoy Hseen. unfold get_toy_status. run_monad.
  rewrite Htoy, Hseen.
  assert (Hi : instant (match tz seen with
                        | Some _ => seen
                        | None => replace_tzinfo seen utc
                        end) = instant seen)
    by (destruct (tz seen); reflexivity).
  eexists. split; [reflexivity|]. cbn [status_is_active instant datetime_now_utc].
  rewrite Hi. unfold timedelta_minutes. repeat split.
  - apply Z.ltb_lt.
  - apply Z.ltb_lt.
  - intros H. apply Z.ltb_lt. lia.
  - intros H. apply Z.ltb_ge. lia.
Qed.

(* ------------------------------------------------------------------ *)
(** ** Pairing *)

(** C9: when the parent's child is already linked to the toy
    ([child.toy_id] is the toy's id), [pair_toy] answers "already_paired"
    and leaves the whole store, the toy's [is_active] and [last_seen]
    included, as it was. *)
Theorem pair_toy_idempotent
    (st : Store) (toy_uuid child_id : UUID) (parent : Parent.t) (now : Z)
    (child : Child.t) (toy : Toy.t) :
  owned_child child_id (Parent.id parent) st = Some child ->
  toy_by_uuid toy_uuid st = Some toy ->
  Child.toy_id child = Some (Toy.id toy) ->
  run_request (pair_toy toy_uuid child_id parent now) st = (Ok "already_paired", st).
Proof.
  intros Hc Ht Hlink. unfold pair_toy. run_monad.
  rewrite Hc. run_monad. rewrite Ht. run_monad.
  assert (H : nullable_is (Child.toy_id child) (Toy.id toy) = true)
    by now apply nullable_is_eq.
  now rewrite H.
Qed.

(** What a first, effective pairing leaves behind. *)
Lemma pair_toy_links
    (st st' : Store) (toy_uuid child_id : UUID) (parent : Parent.t) (now : Z)
    (reply : string) :
  run_request (pair_toy toy_uuid child_id parent now) st = (Ok reply, st') ->
  exists child toy,
    owned_child child_id (Parent.id parent) st' = Some child
    /\ toy_by_uuid toy_uuid st' = Some toy
    /\ Child.toy_id child = Some (Toy.id toy).
Proof.
  unfold pair_toy. run_monad.
  destruct (owned_child child_id (Parent.id parent) st) as [child|] eqn:Hc;
    run_monad; [|discriminate].
  destruct (toy_by_uuid toy_uuid st) as [toy|] eqn:Ht; run_monad; [|discriminate].
  destruct (nullable_is (Child.toy_id child) (Toy.id toy)) eqn:Hl; run_monad.
  - intros H. injection H as _ <-. exists child, toy.
    repeat split; [exact Hc | exact Ht | now apply nullable_is_eq].
  - cbn. intros H. injection H as _ <-.
    unfold owned_child, toy_by_uuid in *. cbn [children toys with_children with_toys].
    rewrite first_update_where by reflexivity.
    rewrite first_update_where by reflexivity.
    rewrite Hc, Ht. cbn [option_map].
    apply first_some_in in Hc. destruct Hc as [_ Hc].
    apply andb_true_iff in Hc. destruct Hc as [Hc _].
    apply uuid_eqb_eq in Hc.
    rewrite !uuid_eqb_refl.
    eexists. eexists. repeat split.
Qed.

(** Pairing twice: the second call is a no-op success. *)
Corollary pair_toy_twice
    (st st' : Store) (toy_uuid child_id : UUID) (parent : Parent.t) (now now' : Z)
    (reply : string) :
  run_request (pair_toy toy_uuid child_id parent now) st = (Ok reply, st') ->
  run_request (pair_toy toy_uuid child_id parent now') st' = (Ok "already_paired", st').
Proof.
  intros H. destruct (pair_toy_links _ _ _ _ _ H) as (child & toy & Hc & Ht & Hl).
  unfold pair_toy. run_monad. rewrite Hc. run_monad. rewrite Ht. run_monad.
  assert (E : nullable_is (Child.toy_id child) (Toy.id toy) = true)
    by now apply nullable_is_eq.
  now rewrite E.
Qed.

(* ------------------------------------------------------------------ *)
(** ** Creating a child *)

Lemma count_children_app (parent_id : UUID) (st : Store) (c : Child.t) :
  count_children parent_id (with_children (fun l => l ++ [c]) st)
  = count_children parent_id st
    + (if uuid_eqb (Child.parent_id c) parent_id then 1 else 0).
Proof.
  unfold count_children. cbn [children with_children].
  rewrite filter_app, length_app. cbn [filter].
  destruct (uuid_eqb (Child.parent_id c) parent_id); cbn [List.length]; lia.
Qed.

(** The handler proper, for any parent whose row is stored. *)
Lemma create_child_runs
    (st : Store) (child_name : string) (age : Z) (parent : Parent.t)
    (child_id analytics_id : UUID) (stored_name : string) :
  count_children (Parent.id parent) st <= 2 ->
  In (Parent.id parent) (map Parent.id (parents st)) ->
  fresh_child_ids child_id analytics_id st ->
  varchar 100 child_name = Some stored_name ->
  fits_integer age = true ->
  let child := Child.mk child_id (Parent.id parent) None stored_name age in
  create_child child_name age parent child_id analytics_id (mk_session st st)
  = (Ok child,
     let st' := with_child_analytics
                  (fun l => l ++ [ChildAnalytics.new analytics_id child_id])
                  (with_children (fun l => l ++ [child]) st) in
     mk_session st' st').
Proof.
  intros Hcount Hparent (Hc & Hac & Ha) Hname Hage. cbn zeta.
  unfold create_child. run_monad.
  destruct (count_children (Parent.id parent) st >=? 3) eqn:E.
  { apply geb_true in E. lia. }
  unfold add_child, add_child_analytics, child_row. run_monad.
  cbn [Child.child_name Child.age Child.id Child.parent_id Child.toy_id].
  rewrite Hname, Hage. run_monad.
  unfold child_insertable, child_analytics_insertable.
  cbn [Child.id Child.parent_id Child.toy_id ChildAnalytics.new ChildAnalytics.id
       ChildAnalytics.child_id children child_analytics parents with_children].
  apply has_id_false in Hc, Hac, Ha. apply has_id_true in Hparent.
  rewrite Hc, Hparent. cbn [negb andb]. run_monad.
  cbn [children child_analytics with_children Child.id].
  rewrite Ha, Hac.
  assert (Hnew : has_id Child.id child_id
                   (children st ++ [Child.mk child_id (Parent.id parent) None
                                             stored_name age]) = true).
  { apply has_id_true. rewrite map_app. apply in_or_app. right. now left. }
  rewrite Hnew. reflexivity.
Qed.

(** C5, as amended: for an authenticated parent with three or more
    children the request fails with 409 and the store, the child set in
    particular, is unchanged; with at most two (the third creation
    included) it succeeds and the parent has one child more, when the
    name is accepted by its VARCHAR(100) column and the age by its
    INTEGER column, the identifiers drawn for the new rows being
    fresh. *)
Theorem create_child_limit
    (st : Store) (credentials : AccessToken) (now : Z) (parent : Parent.t)
    (child_name : string) (age : Z) (child_id analytics_id : UUID) :
  run_request (get_current_parent credentials now) st = (Ok parent, st) ->
  let request := POST_parent_children credentials now child_name age
                                      child_id analytics_id in
  (3 <= count_children (Parent.id parent) st ->
   run_request request st
   = (Raise (HTTPException 409 "Maximum 3 children allowed per parent"), st))
  /\ (count_children (Parent.id parent) st <= 2 ->
      fresh_child_ids child_id analytics_id st ->
      forall stored_name,
        varchar 100 child_name = Some stored_name ->
        fits_integer age = true ->
        exists child st',
          run_request request st = (Ok child, st')
          /\ Child.parent_id child = Parent.id parent
          /\ Child.child_name child = stored_name
          /\ Child.age child = age
          /\ children st' = children st ++ [child]
          /\ count_children (Parent.id parent) st'
             = count_children (Parent.id parent) st + 1).
Proof.
  intros Hauth. cbn zeta. unfold POST_parent_children, run_request, bind in *.
  destruct (get_current_parent credentials now (mk_session st st)) as [[p|e] s] eqn:Hg;
    [|discriminate].
  pose proof Hg as Hok. apply get_current_parent_ok in Hok.
  destruct Hok as (-> & Hp & _). cbn [pending committed] in *.
  injection Hauth as ->. split.
  - intros Hcount. unfold create_child. run_monad.
    destruct (count_children (Parent.id parent) st >=? 3) eqn:E; [reflexivity|].
    apply geb_false in E. lia.
  - intros Hcount Hfresh stored_name Hname Hage.
    assert (Hin : In (Parent.id parent) (map Parent.id (parents st))).
    { apply in_map. apply first_some_in in Hp. tauto. }
    rewrite (@create_child_runs st child_name age parent child_id analytics_id
               stored_name Hcount Hin Hfresh Hname Hage). cbn [committed].
    eexists. eexists. split; [reflexivity|].
    split; [reflexivity|]. split; [reflexivity|]. split; [reflexivity|].
    split; [reflexivity|].
    match goal with
    | |- count_children _ (with_child_analytics ?f (with_children ?g st)) = _ =>
        change (with_child_analytics f (with_children g st))
          with (with_children g (with_child_analytics f st))
    end.
    rewrite count_children_app. cbn [Child.parent_id].
    rewrite uuid_eqb_refl. reflexivity.
Qed.

(** C6: a successful [create_child] commits exactly one [Child] row and
    exactly one [ChildAnalytics] row for it, in one transaction and
    touching no other table.  It succeeds only if the row is accepted
    by the column types and neither INSERT violates a constraint.  A
    violated constraint, on either INSERT, surfaces as the 409 "Child
    creation conflict", never as the raw [IntegrityError], with the
    session rolled back to the store it started from.  The only other
    failures are the 409 of the limit and the [DataError] of a name or
    an age that its column refuses, which is not an integrity violation
    and is not caught; neither commits anything. *)
Theorem create_child_atomic
    (st : Store) (child_name : string) (age : Z) (parent : Parent.t)
    (child_id analytics_id : UUID) :
  let requested := Child.mk child_id (Parent.id parent) None child_name age in
  let analytics := ChildAnalytics.new analytics_id child_id in
  let count := count_children (Parent.id parent) st in
  match create_child child_name age parent child_id analytics_id (mk_session st st) with
  | (Ok created, s') =>
      let inserted := with_children (fun l => l ++ [created]) st in
      count < 3
      /\ child_row requested = Some created
      /\ child_insertable created st = true
      /\ child_analytics_insertable analytics inserted = true
      /\ pending s' = committed s'
      /\ committed s'
         = with_child_analytics (fun l => l ++ [analytics]) inserted
      /\ analytics_rows_of child_id (committed s') = [analytics]
  | (Raise e, s') =>
      s' = mk_session st st
      /\ ((3 <= count
           /\ e = HTTPException 409 "Maximum 3 children allowed per parent")
          \/ (count < 3
              /\ child_row requested = None
              /\ e = DataError)
          \/ (count < 3
              /\ (exists child,
                    child_row requested = Some child
                    /\ (child_insertable child st = false
                        \/ child_analytics_insertable
                             analytics (with_children (fun l => l ++ [child]) st)
                           = false))
              /\ e = HTTPException 409 "Child creation conflict"))
  end.
Proof.
  cbn zeta. unfold create_child. run_monad.
  destruct (count_children (Parent.id parent) st >=? 3) eqn:E.
  { apply geb_true in E. split; [reflexivity | left; split; [lia | reflexivity]]. }
  apply geb_false in E.
  unfold add_child, add_child_analytics. run_monad.
  destruct (child_row _) as [child|] eqn:Hrow; run_monad.
  2:{ split; [reflexivity|]. right. left. repeat split. lia. }
  destruct (child_row_some _ Hrow) as (stored_name & _ & _ & Hchild).
  cbn [Child.id Child.parent_id Child.toy_id Child.age] in Hchild.
  assert (Hid : Child.id child = child_id) by now rewrite Hchild.
  destruct (child_insertable child st) eqn:Hc; run_monad.
  2:{ split; [reflexivity|]. right. right. split; [lia|]. split; [|reflexivity].
      exists child. split; [reflexivity | now left]. }
  rewrite Hid.
  match goal with
  | |- context [child_analytics_insertable ?a ?s] =>
      destruct (child_analytics_insertable a s) eqn:Ha
  end; run_monad.
  2:{ split; [reflexivity|]. right. right. split; [lia|]. split; [|reflexivity].
      exists child. split; [reflexivity | now right]. }
  split; [lia|]. split; [reflexivity|]. split; [exact Hc|]. split; [exact Ha|].
  repeat split.
  unfold analytics_rows_of. cbn [child_analytics with_child_analytics with_children].
  rewrite filter_app. cbn [filter ChildAnalytics.new ChildAnalytics.child_id].
  rewrite uuid_eqb_refl.
  unfold child_analytics_insertable in Ha.
  apply andb_true_iff in Ha. destruct Ha as [_ Hu].
  apply negb_true_iff in Hu.
  cbn [ChildAnalytics.new ChildAnalytics.child_id Child.id child_analytics
       with_children] in Hu.
  rewrite filter_none; [reflexivity|].
  intros r Hr. unfold has_id in Hu.
  destruct (uuid_eqb (ChildAnalytics.child_id r) child_id) eqn:Hr'; [|reflexivity].
  assert (Hex : existsb (fun r0 => uuid_eqb (ChildAnalytics.child_id r0) child_id)
                        (child_analytics st) = true)
    by (apply existsb_exists; exists r; split; assumption).
  congruence.
Qed.

(* ------------------------------------------------------------------ *)
(** ** The active speaker *)

Lemma active_child_pairedb_spec (st : Store) :
  active_child_pairedb st = true <-> active_child_paired st.
Proof.
  unfold active_child_pairedb, active_child_paired. rewrite forallb_forall. split.
  - intros H t c Ht Hc. specialize (H t Ht). rewrite Hc in H.
    apply existsb_exists in H. destruct H as (child & Hin & Hb).
    apply andb_true_iff in Hb. destruct Hb as [Hid Hlink].
    exists child. repeat split; [exact Hin | now apply uuid_eqb_eq | now apply nullable_is_eq].
  - intros H t Ht. destruct (Toy.active_child_id t) as [c|] eqn:Hc; [|reflexivity].
    destruct (H t c Ht Hc) as (child & Hin & Hid & Hlink).
    apply existsb_exists. exists child. split; [exact Hin|].
    apply andb_true_iff. split; [now apply uuid_eqb_eq | now apply nullable_is_eq].
Qed.

(** C1 (amended): a successful [set_active_child] writes one thing, the
    [active_child_id] of the toy named by [toy_uuid], and sets it to a
    child of the requesting parent; the toy is one that some child of
    that parent is paired with.  Nothing relates the assigned child's own
    [toy_id] to the toy. *)
Theorem set_active_child_assigns
    (st st' : Store) (toy_uuid child_id : UUID) (parent : Parent.t)
    (reply : ActiveChildSet) :
  run_request (set_active_child toy_uuid child_id parent) st = (Ok reply, st') ->
  exists child toy paired,
    (In child (children st)
     /\ Child.id child = child_id
     /\ Child.parent_id child = Parent.id parent)
    /\ (In toy (toys st)
        /\ Toy.toy_uuid toy = toy_uuid
        /\ In paired (children st)
        /\ Child.parent_id paired = Parent.id parent
        /\ Child.toy_id paired = Some (Toy.id toy))
    /\ st' = with_toys
               (update_where (fun t => uuid_eqb (Toy.id t) (Toy.id toy))
                             (Toy.set_active_child_id (Some child_id))) st
    /\ In (Toy.set_active_child_id (Some child_id) toy) (toys st').
Proof.
  unfold set_active_child. run_monad.
  destruct (owned_child child_id (Parent.id parent) st) as [child|] eqn:Hc;
    run_monad; [|discriminate].
  rewrite toys_paired_with_parent_first.
  destruct (first _ (toys st)) as [toy|] eqn:Ht; run_monad; [|discriminate].
  intros H. injection H as _ <-.
  apply first_some_in in Hc. destruct Hc as [Hcin Hc].
  apply andb_true_iff in Hc. destruct Hc as [Hcid Hcp].
  apply uuid_eqb_eq in Hcid, Hcp.
  apply first_some_in in Ht. destruct Ht as [Htin Ht].
  apply andb_true_iff in Ht. destruct Ht as [Htu Hpaired].
  apply uuid_eqb_eq in Htu.
  apply existsb_exists in Hpaired. destruct Hpaired as (paired & Hpin & Hp).
  apply andb_true_iff in Hp. destruct Hp as [Hlink Hpp].
  apply nullable_is_eq in Hlink. apply uuid_eqb_eq in Hpp.
  exists child, toy, paired. rewrite Hcid.
  repeat split; try assumption.
  cbn [toys with_toys]. unfold update_where.
  apply in_map_iff. exists toy. rewrite uuid_eqb_refl. split; [reflexivity | exact Htin].
Qed.

(* ------------------------------------------------------------------ *)
(** ** Asking a question *)

Lemma most_recent_in (rows : list Conversation.t) (c : Conversation.t) :
  most_recent rows = Some c -> In c rows.
Proof.
  revert c. induction rows as [|a rows IH]; simpl; intros c H; [discriminate|].
  destruct (most_recent rows) as [d|].
  - destruct (Conversation.last_activity a <? Conversation.last_activity d);
      injection H as <-; [right; now apply IH | now left].
  - injection H as <-. now left.
Qed.

Lemma conversation_of_in (child_id : UUID) (st : Store) (c : Conversation.t) :
  conversation_of child_id st = Some c -> In c (conversations st).
Proof.
  unfold conversation_of. intros H. apply most_recent_in in H.
  apply filter_In in H. tauto.
Qed.

Lemma count_role_app (conversation_id : UUID) (r : RoleEnum) (l new : list Message.t) :
  count_role conversation_id r (l ++ new)
  = (count_role conversation_id r l + count_role conversation_id r new)%nat.
Proof. unfold count_role. now rewrite filter_app, length_app. Qed.

Lemma fits_text_answer (question : string) :
  fits_text question = true ->
  fits_text (String.append "Answer to: " question) = true.
Proof.
  unfold fits_text. rewrite has_nul_append. intros H.
  apply negb_true_iff in H. now rewrite H.
Qed.

(** A [toy_ask] that passes its guards, with an analytics row for the
    active child whose counters have room, a question that can be stored
    and fresh identifiers, runs to completion. *)
Lemma toy_ask_runs
    (st : Store) (question : string) (toy_uuid : UUID) (api_key : APIKey.t) (now : Z)
    (conversation_id user_msg_id assistant_msg_id : UUID)
    (toy : Toy.t) (active : UUID) (child : Child.t) (a : ChildAnalytics.t) :
  toy_by_uuid toy_uuid st = Some toy ->
  Toy.is_active toy = true ->
  Toy.active_child_id toy = Some active ->
  first (fun c => uuid_eqb (Child.id c) active) (children st) = Some child ->
  analytics_of (Child.id child) st = Some a ->
  fresh_ask_ids (Child.id child) conversation_id user_msg_id assistant_msg_id st ->
  fits_text question = true ->
  fits_integer (ChildAnalytics.total_questions a + 1) = true ->
  fits_integer (ChildAnalytics.weekly_questions a + 1) = true ->
  let resolved :=
    match conversation_of (Child.id child) st with
    | Some c => (c, st)
    | None =>
        let c := Conversation.mk conversation_id (Child.id child) now in
        (c, with_conversations (fun l => l ++ [c]) st)
    end in
  run_request (toy_ask question toy_uuid api_key now
                       conversation_id user_msg_id assistant_msg_id) st
  = (Ok (mk_toy_ask_response (Conversation.id (fst resolved))
                             (String.append "Answer to: " question)),
     asked question now (fst resolved) user_msg_id assistant_msg_id a (snd resolved)).
Proof.
  intros Ht Hactive Hset Hchild Ha (Hum & Ham & Hne & Hconv) Hq Htotal Hweekly.
  pose proof (fits_text_answer _ Hq) as Hanswer. cbn zeta.
  unfold toy_ask. run_monad.
  rewrite Ht. run_monad. rewrite Hactive. cbn [negb]. run_monad.
  rewrite Hset. run_monad. rewrite Hchild. run_monad.
  fold (conversation_of (Child.id child) st).
  assert (Hchild_in : has_id Child.id (Child.id child) (children st) = true).
  { apply has_id_of_in. apply first_some_in in Hchild. tauto. }
  apply has_id_false in Hum, Ham.
  assert (Hmsgs : forall conv (st1 : Store),
    messages st1 = messages st ->
    child_analytics st1 = child_analytics st ->
    has_id Conversation.id (Conversation.id conv) (conversations st1) = true ->
    (let (r, s) :=
       bind (emit (with_conversations
                     (update_where
                        (fun c => uuid_eqb (Conversation.id c) (Conversation.id conv))
                        (Conversation.set_last_activity
                           (instant (timestamptz (datetime_utcnow now)))))))
         (fun _ =>
          bind (add_message (Message.mk user_msg_id (Conversation.id conv) user question))
            (fun _ =>
             bind (add_message (Message.mk assistant_msg_id (Conversation.id conv) assistant
                                           (String.append "Answer to: " question)))
               (fun _ =>
                bind (execute (fun st0 =>
                        first (fun a0 => uuid_eqb (ChildAnalytics.child_id a0) (Child.id child))
                              (child_analytics st0)))
                  (fun analytics =>
                   bind (match analytics with
                         | Some a0 =>
                             emit_checked
                               (fits_integer (ChildAnalytics.total_questions a0 + 1)
                                && fits_integer (ChildAnalytics.weekly_questions a0 + 1))
                               (with_child_analytics
                                  (update_where
                                     (fun r => uuid_eqb (ChildAnalytics.id r)
                                                        (ChildAnalytics.id a0))
                                     (fun r => ChildAnalytics.mk
                                                 (ChildAnalytics.id r)
                                                 (ChildAnalytics.child_id r)
                                                 (ChildAnalytics.total_questions a0 + 1)
                                                 (ChildAnalytics.weekly_questions a0 + 1)
                                                 (Some (date_of now)))))
                         | None => ret tt
                         end)
                     (fun _ =>
                      bind db_commit
                        (fun _ =>
                         ret (mk_toy_ask_response (Conversation.id conv)
                                (String.append "Answer to: " question))))))))
         (mk_session st st1) in (r, committed s))
    = (Ok (mk_toy_ask_response (Conversation.id conv)
                               (String.append "Answer to: " question)),
       asked question now conv user_msg_id assistant_msg_id a st1)).
  { intros conv st1 Hm Han Hc. rewrite <- Hm in Hum, Ham.
    unfold analytics_of in Ha. rewrite <- Han in Ha.
    unfold add_message, message_row. cbn [Message.content].
    rewrite Hq, Hanswer. run_monad. unfold message_insertable.
    cbn [messages conversations with_conversations Message.id Message.conversation_id].
    rewrite Hum. rewrite has_id_update_where by reflexivity. rewrite Hc.
    cbn [negb andb]. run_monad.
    cbn [messages conversations with_conversations with_messages].
    rewrite has_id_update_where by reflexivity. rewrite Hc.
    assert (Ham' : has_id Message.id assistant_msg_id
                     (messages st1 ++ [Message.mk user_msg_id (Conversation.id conv)
                                                  user question]) = false).
    { apply has_id_false. rewrite map_app. intros Hin. apply in_app_or in Hin.
      destruct Hin as [Hin | [Hin | []]].
      - apply has_id_false in Ham. contradiction.
      - cbn in Hin. congruence. }
    rewrite Ham'. cbn [negb andb]. run_monad.
    cbn [child_analytics with_messages with_conversations].
    rewrite Ha. run_monad. rewrite Htotal, Hweekly. cbn [andb]. reflexivity. }
  destruct (conversation_of (Child.id child) st) as [c|] eqn:Hfound; run_monad.
  - apply Hmsgs; try reflexivity.
    apply has_id_of_in. eapply conversation_of_in; eassumption.
  - unfold add_conversation. run_monad. unfold conversation_insertable.
    cbn [Conversation.id Conversation.child_id].
    specialize (Hconv eq_refl). apply has_id_false in Hconv.
    rewrite Hconv, Hchild_in. cbn [negb andb]. run_monad.
    apply (Hmsgs (Conversation.mk conversation_id (Child.id child) now)); try reflexivity.
    cbn [conversations with_conversations Conversation.id].
    apply has_id_true. rewrite map_app. apply in_or_app. right. now left.
Qed.

(** C7, as amended: for a toy that is found by its uuid, [toy_ask] fails
    with 401 and writes nothing when the toy's [is_active] flag is not
    set; when the flag is set it fails with 409 and writes nothing if no
    active child is set.  When the flag is set, the active child is set,
    its row and its analytics row exist, both counters still fit their
    INTEGER column after the increment, the question holds no NUL
    character and the identifiers drawn for the new rows are fresh, the
    call succeeds, that child's [total_questions] and [weekly_questions]
    each grow by exactly one, and exactly two messages are stored, one
    [user] and one [assistant], both in the conversation whose id is
    returned. *)
Theorem toy_ask_postconditions
    (st : Store) (question : string) (toy_uuid : UUID) (api_key : APIKey.t) (now : Z)
    (conversation_id user_msg_id assistant_msg_id : UUID) (toy : Toy.t) :
  toy_by_uuid toy_uuid st = Some toy ->
  let request := toy_ask question toy_uuid api_key now
                         conversation_id user_msg_id assistant_msg_id in
  (Toy.is_active toy = false ->
   run_request request st
   = (Raise (HTTPException 401 "Invalid or inactive toy"), st))
  /\ (Toy.is_active toy = true ->
      Toy.active_child_id toy = None ->
      run_request request st
      = (Raise (HTTPException 409 "No active child set on toy"), st))
  /\ (forall active child a,
        Toy.is_active toy = true ->
        Toy.active_child_id toy = Some active ->
        first (fun c => uuid_eqb (Child.id c) active) (children st) = Some child ->
        analytics_of (Child.id child) st = Some a ->
        fits_integer (ChildAnalytics.total_questions a + 1) = true ->
        fits_integer (ChildAnalytics.weekly_questions a + 1) = true ->
        fits_text question = true ->
        fresh_ask_ids (Child.id child) conversation_id user_msg_id assistant_msg_id st ->
        exists reply st' a',
          run_request request st = (Ok reply, st')
          /\ analytics_of (Child.id child) st' = Some a'
          /\ ChildAnalytics.total_questions a' = ChildAnalytics.total_questions a + 1
          /\ ChildAnalytics.weekly_questions a' = ChildAnalytics.weekly_questions a + 1
          /\ messages st'
             = messages st
               ++ [Message.mk user_msg_id (resp_conversation_id reply) user question;
                   Message.mk assistant_msg_id (resp_conversation_id reply) assistant
                              (resp_answer reply)]
          /\ count_messages (resp_conversation_id reply) user st'
             = S (count_messages (resp_conversation_id reply) user st)
          /\ count_messages (resp_conversation_id reply) assistant st'
             = S (count_messages (resp_conversation_id reply) assistant st)).
Proof.
  intros Ht. cbn zeta. split; [|split].
  - intros Hoff. unfold toy_ask. run_monad.
    rewrite Ht. run_monad. now rewrite Hoff.
  - intros Hactive Hnone. unfold toy_ask. run_monad.
    rewrite Ht. run_monad. rewrite Hactive. cbn [negb]. run_monad.
    now rewrite Hnone.
  - intros active child a Hactive Hset Hchild Ha Htotal Hweekly Hq Hfresh.
    pose proof (@toy_ask_runs st question toy_uuid api_key now conversation_id
                  user_msg_id assistant_msg_id toy active child a
                  Ht Hactive Hset Hchild Ha Hfresh Hq Htotal Hweekly) as Hrun.
    cbn zeta in Hrun.
    set (resolved := match conversation_of (Child.id child) st with
                     | Some c => (c, st)
                     | None =>
                         (Conversation.mk conversation_id (Child.id child) now,
                          with_conversations
                            (fun l => l ++ [Conversation.mk conversation_id
                                                            (Child.id child) now]) st)
                     end) in *.
    assert (Hm : messages (snd resolved) = messages st)
      by (subst resolved; destruct (conversation_of (Child.id child) st); reflexivity).
    assert (Han : child_analytics (snd resolved) = child_analytics st)
      by (subst resolved; destruct (conversation_of (Child.id child) st); reflexivity).
    assert (Hmsgs : messages (asked question now (fst resolved) user_msg_id
                                    assistant_msg_id a (snd resolved))
                    = messages st
                      ++ [Message.mk user_msg_id (Conversation.id (fst resolved)) user
                                     question;
                          Message.mk assistant_msg_id (Conversation.id (fst resolved))
                                     assistant (String.append "Answer to: " question)]).
    { unfold asked. cbn [messages with_child_analytics with_messages with_conversations].
      rewrite Hm, <- app_assoc. reflexivity. }
    eexists. eexists.
    exists (ChildAnalytics.mk (ChildAnalytics.id a) (ChildAnalytics.child_id a)
                              (ChildAnalytics.total_questions a + 1)
                              (ChildAnalytics.weekly_questions a + 1)
                              (Some (date_of now))).
    split; [exact Hrun|]. cbn [resp_conversation_id resp_answer].
    split; [|split; [reflexivity|split; [reflexivity|split; [exact Hmsgs|]]]].
    + unfold analytics_of, asked in *.
      cbn [child_analytics with_child_analytics with_messages with_conversations].
      rewrite first_update_where by reflexivity.
      rewrite Han, Ha. cbn [option_map]. now rewrite uuid_eqb_refl.
    + unfold count_messages. rewrite Hmsgs, !count_role_app.
      unfold count_role. cbn [filter Message.conversation_id Message.role role_eqb].
      rewrite uuid_eqb_refl. cbn [andb List.length]. split; lia.
Qed.

(* ------------------------------------------------------------------ *)
(** ** Refresh tokens *)

Lemma unique_column {A B} (f : A -> B) (rows : list A) (a b : A) :
  NoDup (map f rows) -> In a rows -> In b rows -> f a = f b -> a = b.
Proof.
  induction rows as [|r rows IH]; simpl; intros Hnd Ha Hb Hf; [contradiction|].
  inversion Hnd as [|x l Hnotin Hnd']; subst.
  destruct Ha as [<-|Ha], Hb as [<-|Hb].
  - reflexivity.
  - elim Hnotin. rewrite Hf. now apply in_map.
  - elim Hnotin. rewrite <- Hf. now apply in_map.
  - now apply IH.
Qed.

Lemma delete_where_twice {A} (p q : A -> bool) (rows : list A) :
  delete_where q (delete_where p rows) = delete_where (fun r => p r || q r) rows.
Proof.
  unfold delete_where. induction rows as [|r rows IH]; simpl; [reflexivity|].
  destruct (p r); simpl; [exact IH|].
  destruct (q r); simpl; [exact IH | now rewrite IH].
Qed.

Lemma delete_where_nothing {A} (rows : list A) :
  delete_where (fun _ => false) rows = rows.
Proof.
  unfold delete_where. induction rows as [|r rows IH]; simpl in *; [reflexivity | now f_equal].
Qed.

(** The loop of [revoke_all_refresh_tokens] deletes the rows whose id is
    among those selected, and nothing else. *)
Lemma for_each_delete (rows : list RefreshToken.t) (s : Session) :
  for_each rows db_delete_refresh_token s
  = (Ok tt,
     mk_session (committed s)
       (with_refresh_tokens
          (delete_where (fun r => has_id RefreshToken.id (RefreshToken.id r) rows))
          (pending s))).
Proof.
  revert s. induction rows as [|row rows IH]; intros s; cbn [for_each].
  - unfold ret. destruct s as [c p]. cbn [committed pending has_id existsb].
    unfold with_refresh_tokens. rewrite delete_where_nothing. now destruct p.
  - unfold bind, db_delete_refresh_token at 1, emit. rewrite IH.
    cbn [committed pending]. f_equal. f_equal.
    unfold with_refresh_tokens.
    cbn [parents toys children child_analytics conversations messages api_keys
         refresh_tokens].
    rewrite delete_where_twice. f_equal.
    unfold delete_where. apply filter_ext. intros r. cbn [has_id existsb].
    unfold uuid_eqb. now rewrite (N.eqb_sym (RefreshToken.id row)).
Qed.

Lemma revoke_all_refresh_tokens_runs (parent_id : UUID) (s : Session) :
  let rows := filter (fun r => uuid_eqb (RefreshToken.parent_id r) parent_id)
                     (refresh_tokens (pending s)) in
  let st' := with_refresh_tokens
               (delete_where (fun r => has_id RefreshToken.id (RefreshToken.id r) rows))
               (pending s) in
  revoke_all_refresh_tokens parent_id s = (Ok tt, mk_session st' st').
Proof.
  cbn zeta. unfold revoke_all_refresh_tokens, bind at 1, execute.
  unfold bind. rewrite for_each_delete. reflexivity.
Qed.

(** After the revocation no row of the parent is left. *)
Lemma revoked_rows_gone (parent_id : UUID) (rts : list RefreshToken.t) (r : RefreshToken.t) :
  In r (delete_where
          (fun r0 => has_id RefreshToken.id (RefreshToken.id r0)
                       (filter (fun r1 => uuid_eqb (RefreshToken.parent_id r1) parent_id)
                               rts))
          rts) ->
  In r rts /\ RefreshToken.parent_id r <> parent_id.
Proof.
  intros H. apply in_delete_where in H. destruct H as [Hin Hid].
  split; [exact Hin|]. intros Hp.
  assert (Hhas : has_id RefreshToken.id (RefreshToken.id r)
                   (filter (fun r1 => uuid_eqb (RefreshToken.parent_id r1) parent_id) rts)
                 = true).
  { apply has_id_of_in. apply filter_In. split; [exact Hin | now apply uuid_eqb_eq]. }
  congruence.
Qed.

Lemma create_token_pair_stores (parent : Parent.t) (user_agent : option string)
    (now : Z) (refresh_raw : string) (row_id : UUID) (s : Session) :
  create_token_pair parent user_agent now refresh_raw row_id s
  = match refresh_token_row
            (RefreshToken.mk row_id (Parent.id parent) (hash_refresh_token refresh_raw)
                             user_agent (now + timedelta_days REFRESH_TOKEN_DAYS)) with
    | None => (Raise DataError, s)
    | Some row =>
        let st' := with_refresh_tokens (fun l => l ++ [row]) (pending s) in
        if refresh_token_insertable row (pending s)
        then (Ok (mk_token_pair (create_access_token parent now) refresh_raw "bearer"
                                (ACCESS_TOKEN_MINUTES * 60)),
              mk_session st' st')
        else (Raise IntegrityError, s)
    end.
Proof.
  unfold create_token_pair, store_refresh_token, add_refresh_token. run_monad.
  destruct (refresh_token_row _) as [row|]; [|reflexivity].
  cbn zeta. now destruct (refresh_token_insertable row (pending s)).
Qed.

(** Without a user agent, as [refresh] calls it. *)
Lemma create_token_pair_runs (parent : Parent.t)
    (now : Z) (refresh_raw : string) (row_id : UUID) (s : Session) :
  let row := RefreshToken.mk row_id (Parent.id parent) (hash_refresh_token refresh_raw)
                             None (now + timedelta_days REFRESH_TOKEN_DAYS) in
  let st' := with_refresh_tokens (fun l => l ++ [row]) (pending s) in
  create_token_pair parent None now refresh_raw row_id s
  = if refresh_token_insertable row (pending s)
    then (Ok (mk_token_pair (create_access_token parent now) refresh_raw "bearer"
                            (ACCESS_TOKEN_MINUTES * 60)),
          mk_session st' st')
    else (Raise IntegrityError, s).
Proof. cbn zeta. now rewrite create_token_pair_stores. Qed.

Lemma first_hash_none (h : string) (rts : list RefreshToken.t) :
  (forall r, In r rts -> RefreshToken.token_hash r <> h) ->
  first (fun r => String.eqb (RefreshToken.token_hash r) h) rts = None.
Proof.
  intros H. apply first_none. intros r Hr. apply String.eqb_neq. now apply H.
Qed.

(** With no row for its keyed hash, a refresh token is refused and
    nothing is written. *)
Lemma refresh_unknown (st : Store) (raw : string) (now : Z) (refresh_raw : string)
    (row_id : UUID) :
  (forall r, In r (refresh_tokens st) ->
             RefreshToken.token_hash r <> hash_refresh_token raw) ->
  run_request (refresh raw now refresh_raw row_id) st
  = (Raise (HTTPException 401 "Invalid refresh token"), st).
Proof.
  intros H. unfold refresh. run_monad. now rewrite first_hash_none by exact H.
Qed.

(** C2: a successful refresh has deleted, and committed the deletion of,
    the row it consumed before [create_token_pair] issues and stores the
    replacement pair; afterwards the same raw token finds no row and is
    refused with 401 at any later time.  The hashes of stored refresh
    tokens are unique (the UNIQUE constraint), and stay so; the
    replacement token drawn by [secrets.token_urlsafe] differs from the
    consumed one. *)
Theorem refresh_single_use
    (st st' : Store) (raw : string) (now : Z) (refresh_raw : string) (row_id : UUID)
    (pair : TokenPair) :
  token_hash_unique st ->
  hash_refresh_token refresh_raw <> hash_refresh_token raw ->
  run_request (refresh raw now refresh_raw row_id) st = (Ok pair, st') ->
  (exists stored parent,
     first (fun r => String.eqb (RefreshToken.token_hash r) (hash_refresh_token raw))
           (refresh_tokens st) = Some stored
     /\ let rotated :=
          with_refresh_tokens
            (delete_where (fun r => uuid_eqb (RefreshToken.id r) (RefreshToken.id stored)))
            st in
        (forall r, In r (refresh_tokens rotated) ->
                   RefreshToken.token_hash r <> hash_refresh_token raw)
        /\ create_token_pair parent None now refresh_raw row_id
                             (mk_session rotated rotated)
           = (Ok pair, mk_session st' st'))
  /\ token_hash_unique st'
  /\ (forall now2 raw2 id2,
        run_request (refresh raw now2 raw2 id2) st'
        = (Raise (HTTPException 401 "Invalid refresh token"), st')).
Proof.
  intros Huniq Hfresh Hrun. unfold refresh, db_delete_refresh_token in Hrun.
  run_monad in Hrun.
  destruct (first _ (refresh_tokens st)) as [stored|] eqn:Hstored; run_monad in Hrun;
    [|discriminate].
  destruct (RefreshToken.expires_at stored <? now); run_monad in Hrun; [discriminate|].
  destruct (first _ (parents st)) as [parent|] eqn:Hparent; run_monad in Hrun;
    [|discriminate].
  destruct (Parent.is_active parent); cbn [negb] in Hrun; run_monad in Hrun;
    [|discriminate].
  rewrite create_token_pair_runs in Hrun. cbn [pending] in Hrun.
  set (rotated := with_refresh_tokens _ st) in *.
  set (row := RefreshToken.mk _ _ _ _ _) in *.
  destruct (refresh_token_insertable row rotated) eqn:Hins; [|discriminate].
  revert Hrun.
  cbn [committed]. intros H. injection H as <- <-.
  apply first_some_in in Hstored. destruct Hstored as [Hin Hhash].
  apply String.eqb_eq in Hhash.
  assert (Hgone : forall r, In r (refresh_tokens rotated) ->
                            RefreshToken.token_hash r <> hash_refresh_token raw).
  { intros r Hr Hh. subst rotated. cbn [refresh_tokens with_refresh_tokens] in Hr.
    apply in_delete_where in Hr. destruct Hr as [Hr Hid].
    assert (r = stored)
      by (apply (unique_column RefreshToken.token_hash (refresh_tokens st));
          [exact Huniq | exact Hr | exact Hin | congruence]).
    subst r. now rewrite uuid_eqb_refl in Hid. }
  assert (Hnew : forall r, In r (refresh_tokens rotated) ->
                           RefreshToken.token_hash r <> hash_refresh_token refresh_raw).
  { intros r Hr Hh. unfold refresh_token_insertable in Hins.
    apply andb_true_iff in Hins. destruct Hins as [_ Hu].
    apply negb_true_iff in Hu.
    assert (existsb (fun q => String.eqb (RefreshToken.token_hash q)
                                         (RefreshToken.token_hash row))
                    (refresh_tokens rotated) = true); [|congruence].
    apply existsb_exists. exists r. split; [exact Hr|].
    apply String.eqb_eq. exact Hh. }
  split; [|split].
  - exists stored, parent. split; [reflexivity|]. cbn zeta. fold rotated.
    split; [exact Hgone|].
    rewrite create_token_pair_runs. cbn [pending]. fold row. now rewrite Hins.
  - unfold token_hash_unique in *. cbn [refresh_tokens with_refresh_tokens].
    rewrite map_app. cbn [map].
    apply NoDup_app; [| repeat constructor; intros [] |].
    + subst rotated. cbn [refresh_tokens with_refresh_tokens]. unfold delete_where.
      clear - Huniq. induction (refresh_tokens st) as [|a l IH]; simpl; [constructor|].
      inversion Huniq as [|x l' Hn Hnd]; subst.
      destruct (negb _); simpl; [|now apply IH].
      constructor; [|now apply IH].
      intros Hc. apply Hn. apply in_map_iff in Hc. destruct Hc as (b & Hb & Hbin).
      apply filter_In in Hbin. rewrite <- Hb. apply in_map. tauto.
    + intros h Hh [<-|[]]. apply in_map_iff in Hh. destruct Hh as (r & Hr & Hrin).
      now apply (Hnew r Hrin).
  - intros now2 raw2 id2. apply refresh_unknown.
    intros r Hr. cbn [refresh_tokens with_refresh_tokens] in Hr.
    apply in_app_or in Hr. destruct Hr as [Hr | [<- | []]].
    + now apply Hgone.
    + exact Hfresh.
Qed.

(* ------------------------------------------------------------------ *)
(** ** Logout *)

(** A token whose version is not the stored one is refused. *)
Lemma get_current_parent_stale
    (st : Store) (claims : Claims) (now : Z) (parent : Parent.t) :
  sub claims = Some (Parent.id parent) ->
  first (fun p => uuid_eqb (Parent.id p) (Parent.id parent)) (parents st) = Some parent ->
  claim_token_version claims <> Some (Parent.token_version parent) ->
  exists detail,
    run_request (get_current_parent (Signed claims) now) st
    = (Raise (HTTPException 401 detail), st).
Proof.
  intros Hsub Hp Hv. unfold run_request.
  destruct (get_current_parent (Signed claims) now (mk_session st st)) as [[p|e] s'] eqn:H.
  - exfalso. unfold get_current_parent, decode_access_token in H. run_monad in H.
    destruct (exp claims <? now / 1000000); run_monad in H; [discriminate|].
    rewrite Hsub in H. run_monad in H. rewrite Hp in H. run_monad in H.
    destruct (Parent.is_active parent); cbn [negb] in H; run_monad in H; [|discriminate].
    destruct (claim_token_version claims) as [v|]; run_monad in H; [|discriminate].
    destruct (Parent.token_version parent =? v) eqn:E; run_monad in H; [|discriminate].
    apply Z.eqb_eq in E. congruence.
  - apply get_current_parent_fails_closed in H. destruct H as [-> [detail ->]].
    now exists detail.
Qed.

Lemma logout_runs (current_parent : Parent.t) (st : Store) :
  let bumped :=
    with_parents
      (update_where (fun p => uuid_eqb (Parent.id p) (Parent.id current_parent))
         (Parent.set_token_version (Parent.token_version current_parent + 1))) st in
  let rows := filter (fun r => uuid_eqb (RefreshToken.parent_id r) (Parent.id current_parent))
                     (refresh_tokens st) in
  let st' := with_refresh_tokens
               (delete_where (fun r => has_id RefreshToken.id (RefreshToken.id r) rows))
               bumped in
  logout current_parent (mk_session st st)
  = if fits_integer (Parent.token_version current_parent + 1)
    then (Ok "logged_out", mk_session st' st')
    else (Raise DataError, mk_session st st).
Proof.
  cbn zeta. unfold logout, emit_checked.
  destruct (fits_integer (Parent.token_version current_parent + 1)); [|reflexivity].
  unfold bind at 1, emit. cbn [committed pending].
  unfold bind at 1. rewrite revoke_all_refresh_tokens_runs. reflexivity.
Qed.

(** C3: a successful logout raises the stored [token_version] of the
    parent by one and leaves no refresh-token row of that parent.  From
    then on every access token for that parent that does not carry the
    new version (those issued before the logout carry the old one) is
    refused by the bearer guard with 401, and no refresh token the parent
    held before the logout is accepted by [refresh]. *)
Theorem logout_revokes_everything
    (st st' : Store) (credentials : AccessToken) (now : Z) (reply : string) :
  token_hash_unique st ->
  run_request (POST_auth_logout credentials now) st = (Ok reply, st') ->
  exists parent,
    run_request (get_current_parent credentials now) st = (Ok parent, st)
    /\ first (fun p => uuid_eqb (Parent.id p) (Parent.id parent)) (parents st')
       = Some (Parent.set_token_version (Parent.token_version parent + 1) parent)
    /\ (forall r, In r (refresh_tokens st') ->
                  RefreshToken.parent_id r <> Parent.id parent)
    /\ (forall claims now',
          sub claims = Some (Parent.id parent) ->
          claim_token_version claims <> Some (Parent.token_version parent + 1) ->
          exists detail,
            run_request (get_current_parent (Signed claims) now') st'
            = (Raise (HTTPException 401 detail), st'))
    /\ (forall issued now',
          exists detail,
            run_request (get_current_parent (create_access_token parent issued) now') st'
            = (Raise (HTTPException 401 detail), st'))
    /\ (forall row raw now' refresh_raw row_id,
          In row (refresh_tokens st) ->
          RefreshToken.parent_id row = Parent.id parent ->
          RefreshToken.token_hash row = hash_refresh_token raw ->
          run_request (refresh raw now' refresh_raw row_id) st'
          = (Raise (HTTPException 401 "Invalid refresh token"), st')).
Proof.
  intros Huniq Hrun. unfold POST_auth_logout, run_request, bind in Hrun.
  destruct (get_current_parent credentials now (mk_session st st)) as [[parent|e] s1] eqn:Hg;
    [|discriminate].
  pose proof Hg as Hok. apply get_current_parent_ok in Hok.
  destruct Hok as (-> & Hp & Hact). cbn [pending] in Hp.
  rewrite logout_runs in Hrun.
  destruct (fits_integer (Parent.token_version parent + 1)); [|discriminate].
  cbn [committed] in Hrun. injection Hrun as _ Hst'.
  symmetry in Hst'.
  assert (Hrts : forall r, In r (refresh_tokens st') ->
                   In r (refresh_tokens st)
                   /\ RefreshToken.parent_id r <> Parent.id parent).
  { intros r Hr. rewrite Hst' in Hr.
    cbn [refresh_tokens with_refresh_tokens with_parents] in Hr.
    now apply revoked_rows_gone in Hr. }
  assert (Hp' : first (fun p => uuid_eqb (Parent.id p) (Parent.id parent)) (parents st')
                = Some (Parent.set_token_version (Parent.token_version parent + 1) parent)).
  { rewrite Hst'. cbn [parents with_refresh_tokens with_parents].
    rewrite first_update_where by reflexivity. rewrite Hp. cbn [option_map].
    now rewrite uuid_eqb_refl. }
  assert (Hstale : forall claims now',
            sub claims = Some (Parent.id parent) ->
            claim_token_version claims <> Some (Parent.token_version parent + 1) ->
            exists detail,
              run_request (get_current_parent (Signed claims) now') st'
              = (Raise (HTTPException 401 detail), st')).
  { intros claims now' Hsub Hv.
    apply (@get_current_parent_stale st' claims now'
             (Parent.set_token_version (Parent.token_version parent + 1) parent));
      [exact Hsub | exact Hp' | exact Hv]. }
  clear Hst'. exists parent. unfold run_request at 1. rewrite Hg. cbn [committed].
  split; [reflexivity|]. split; [exact Hp'|]. split; [|split; [exact Hstale|split]].
  - intros r Hr. now apply Hrts.
  - intros issued now'. apply Hstale; [reflexivity|].
    cbn [create_access_token claim_token_version]. intros E. injection E as E. lia.
  - intros row raw now' refresh_raw row_id Hin Hown Hhash.
    apply refresh_unknown. intros r Hr Hh.
    apply Hrts in Hr. destruct Hr as [Hr Hother].
    assert (r = row)
      by (apply (unique_column RefreshToken.token_hash (refresh_tokens st));
          [exact Huniq | exact Hr | exact Hin | congruence]).
    subst r. contradiction.
Qed.

(* ------------------------------------------------------------------ *)
(** ** What a handler maintains *)

Section Maintains.
Variable P : Store -> Prop.

Lemma maintains_ret {A} (a : A) : maintains P (ret a).
Proof. intros s Hc Hp. now split. Qed.

Lemma maintains_raise {A} (e : Exn) : maintains P (@raise A e).
Proof. intros s Hc Hp. now split. Qed.

Lemma maintains_execute {A} (q : Store -> A) : maintains P (execute q).
Proof. intros s Hc Hp. now split. Qed.

Lemma maintains_commit : maintains P db_commit.
Proof. intros s Hc Hp. now split. Qed.

Lemma maintains_rollback : maintains P db_rollback.
Proof. intros s Hc Hp. now split. Qed.

Lemma maintains_emit (f : Store -> Store) :
  (forall st, P st -> P (f st)) -> maintains P (emit f).
Proof. intros Hf s Hc Hp. split; [exact Hc | now apply Hf]. Qed.

Lemma maintains_insert_checked (allowed : Store -> bool) (f : Store -> Store) :
  (forall st, allowed st = true -> P st -> P (f st)) ->
  maintains P (insert_checked allowed f).
Proof.
  intros Hf s Hc Hp. unfold insert_checked.
  destruct (allowed (pending s)) eqn:Hok; cbn [snd committed pending];
    split; try assumption. now apply Hf.
Qed.

Lemma maintains_emit_checked (fits : bool) (f : Store -> Store) :
  (forall st, P st -> P (f st)) -> maintains P (emit_checked fits f).
Proof.
  intros Hf. unfold emit_checked. destruct fits.
  - now apply maintains_emit.
  - apply maintains_raise.
Qed.

Lemma maintains_bind {A B} (m : M A) (k : A -> M B) :
  maintains P m -> (forall a, maintains P (k a)) -> maintains P (bind m k).
Proof.
  intros Hm Hk s Hc Hp. unfold bind. specialize (Hm s Hc Hp).
  destruct (m s) as [[a|e] s1]; cbn [snd] in *.
  - now apply Hk.
  - exact Hm.
Qed.

Lemma maintains_try {A} (body handler : M A) :
  maintains P body -> maintains P handler ->
  maintains P (try_except_IntegrityError body handler).
Proof.
  intros Hb Hh s Hc Hp. unfold try_except_IntegrityError. specialize (Hb s Hc Hp).
  destruct (body s) as [[a|e] s1]; cbn [snd] in *; [exact Hb|].
  destruct e; try exact Hb. now apply Hh.
Qed.

Lemma maintains_insert_row {R} (coerced : option R)
    (allowed : R -> Store -> bool) (f : R -> Store -> Store) :
  (forall row st, coerced = Some row -> allowed row st = true -> P st -> P (f row st)) ->
  maintains P (insert_row coerced allowed f).
Proof.
  intros Hf. unfold insert_row. destruct coerced as [row|].
  - apply maintains_bind; [|intros _; apply maintains_ret].
    apply maintains_insert_checked. intros st. now apply Hf.
  - apply maintains_raise.
Qed.

Lemma maintains_for_each {A} (rows : list A) (body : A -> M unit) :
  (forall r, maintains P (body r)) -> maintains P (for_each rows body).
Proof.
  intros Hb. induction rows as [|r rows IH]; cbn [for_each].
  - apply maintains_ret.
  - apply maintains_bind; [apply Hb | intros _; exact IH].
Qed.

Lemma maintains_run {A} (m : M A) (st : Store) :
  maintains P m -> P st -> P (snd (run_request m st)).
Proof.
  intros Hm Hst. unfold run_request. specialize (Hm (mk_session st st) Hst Hst).
  destruct (m (mk_session st st)) as [r s]. cbn [snd] in *. tauto.
Qed.
End Maintains.

Ltac maintain_step side :=
  lazymatch goal with
  | |- maintains _ (ret _) => apply maintains_ret
  | |- maintains _ (raise _) => apply maintains_raise
  | |- maintains _ (execute _) => apply maintains_execute
  | |- maintains _ db_commit => apply maintains_commit
  | |- maintains _ db_rollback => apply maintains_rollback
  | |- maintains _ (emit _) => apply maintains_emit; side
  | |- maintains _ (emit_checked _ _) => apply maintains_emit_checked; side
  | |- maintains _ (insert_checked _ _) => apply maintains_insert_checked; side
  | |- maintains _ (insert_row _ _ _) => apply maintains_insert_row; side
  | |- maintains _ (bind _ _) => apply maintains_bind; [|intros ?]
  | |- maintains _ (try_except_IntegrityError _ _) => apply maintains_try
  | |- maintains _ (for_each _ _) => apply maintains_for_each; intros ?
  | |- maintains _ (match ?x with _ => _ end) => destruct x
  end.

Ltac maintain side := cbn zeta; repeat (maintain_step side).

(* ------------------------------------------------------------------ *)
(** ** A toy that was never paired and never sent a heartbeat *)

Lemma dormant_update (toy_uuid : UUID) (st : Store)
    (p : Toy.t -> bool) (f : Toy.t -> Toy.t) :
  (forall t, Toy.id (f t) = Toy.id t) ->
  (forall t, Toy.toy_uuid (f t) = Toy.toy_uuid t) ->
  (forall t, In t (toys st) -> p t = true -> Toy.toy_uuid t = toy_uuid ->
             Toy.is_active (f t) = false) ->
  dormant toy_uuid st ->
  dormant toy_uuid (with_toys (update_where p f) st).
Proof.
  intros Hid Huuid Hflag (Hnd & [toy Htoy] & Hoff).
  unfold dormant, toy_by_uuid in *. cbn [toys with_toys]. repeat split.
  - now rewrite map_update_where.
  - rewrite first_update_where by (intros r; now rewrite Huuid).
    rewrite Htoy. cbn [option_map]. eauto.
  - intros t' Hin Hu. unfold update_where in Hin. apply in_map_iff in Hin.
    destruct Hin as (t & <- & Hin). destruct (p t) eqn:Hp.
    + rewrite Huuid in Hu. now apply Hflag.
    + now apply Hoff.
Qed.

Lemma dormant_set_active_child_id (toy_uuid : UUID) (st : Store)
    (p : Toy.t -> bool) (c : option UUID) :
  dormant toy_uuid st ->
  dormant toy_uuid (with_toys (update_where p (Toy.set_active_child_id c)) st).
Proof.
  intros H. apply dormant_update; try reflexivity; [|exact H].
  intros t Hin _ Hu. destruct H as (_ & _ & Hoff).
  change (Toy.is_active t = false). now apply Hoff.
Qed.

(** Marking another toy as alive leaves this one as it is: rows are
    written by primary key, and the primary key is unique. *)
Lemma dormant_set_liveness (toy_uuid : UUID) (st : Store) (other : Toy.t)
    (a : bool) (seen : option datetime) :
  In other (toys st) -> Toy.toy_uuid other <> toy_uuid ->
  dormant toy_uuid st ->
  dormant toy_uuid
    (with_toys (update_where (fun t => uuid_eqb (Toy.id t) (Toy.id other))
                             (Toy.set_liveness a seen)) st).
Proof.
  intros Hin Hne H. apply dormant_update; try reflexivity; [|exact H].
  intros t Ht Hp Hu. exfalso. apply uuid_eqb_eq in Hp.
  destruct H as (Hnd & _ & _).
  assert (t = other) by (apply (unique_column Toy.id (toys st)); assumption).
  subst t. contradiction.
Qed.

Ltac unchanged := intros; match goal with H : _ |- _ => exact H end.

Lemma get_current_parent_maintains (P : Store -> Prop) (credentials : AccessToken) (now : Z) :
  maintains P (get_current_parent credentials now).
Proof. unfold get_current_parent, decode_access_token. maintain idtac. Qed.

Lemma verify_api_key_maintains (P : Store -> Prop) (api_key : option string) :
  maintains P (verify_api_key api_key).
Proof. unfold verify_api_key. maintain idtac. Qed.

Section Dormant.
Variable toy_uuid : UUID.
Let P := dormant toy_uuid.

Lemma create_token_pair_dormant parent user_agent now refresh_raw row_id :
  maintains P (create_token_pair parent user_agent now refresh_raw row_id).
Proof.
  unfold create_token_pair, store_refresh_token, add_refresh_token.
  maintain unchanged.
Qed.

Lemma signup_dormant name email password salt new_id :
  maintains P (signup name email password salt new_id).
Proof. unfold signup, add_parent. maintain unchanged. Qed.

Lemma login_dormant email password user_agent now refresh_raw row_id :
  maintains P (login email password user_agent now refresh_raw row_id).
Proof.
  unfold login. maintain unchanged. apply create_token_pair_dormant.
Qed.

Lemma refresh_dormant token now refresh_raw row_id :
  maintains P (refresh token now refresh_raw row_id).
Proof.
  unfold refresh, db_delete_refresh_token. maintain unchanged.
  apply create_token_pair_dormant.
Qed.

Lemma logout_dormant current_parent : maintains P (logout current_parent).
Proof.
  unfold logout, revoke_all_refresh_tokens, db_delete_refresh_token.
  maintain unchanged.
Qed.

Lemma create_api_key_dormant owner current_parent raw_key row_id :
  maintains P (create_api_key owner current_parent raw_key row_id).
Proof. unfold create_api_key, add_api_key. maintain unchanged. Qed.

Lemma create_child_dormant child_name age current_parent child_id analytics_id :
  maintains P (create_child child_name age current_parent child_id analytics_id).
Proof.
  unfold create_child, add_child, add_child_analytics. maintain unchanged.
Qed.

Lemma get_toy_status_dormant u parent now :
  maintains P (get_toy_status u parent now).
Proof. unfold get_toy_status. maintain unchanged. Qed.

Lemma set_active_child_dormant u child_id parent :
  maintains P (set_active_child u child_id parent).
Proof.
  unfold set_active_child.
  maintain ltac:(intros ? ?; now apply dormant_set_active_child_id).
Qed.

Lemma toy_ask_dormant question u api_key now c m1 m2 :
  maintains P (toy_ask question u api_key now c m1 m2).
Proof.
  unfold toy_ask, add_conversation, add_message. maintain unchanged.
Qed.

Lemma pair_toy_dormant u child_id parent now :
  u <> toy_uuid -> maintains P (pair_toy u child_id parent now).
Proof.
  intros Hne s Hc Hp. unfold pair_toy. run_monad.
  destruct (owned_child child_id (Parent.id parent) (pending s)) as [child|];
    run_monad; [|now split].
  destruct (toy_by_uuid u (pending s)) as [toy|] eqn:Ht; run_monad; [|now split].
  destruct (nullable_is (Child.toy_id child) (Toy.id toy)); run_monad; [now split|].
  apply first_some_in in Ht. destruct Ht as [Hin Hu]. apply uuid_eqb_eq in Hu.
  assert (H : P (with_toys
                   (update_where (fun t => uuid_eqb (Toy.id t) (Toy.id toy))
                      (Toy.set_liveness true (Some (timestamptz (datetime_utcnow now)))))
                   (with_children
                      (update_where (fun c => uuid_eqb (Child.id c) (Child.id child))
                         (Child.set_toy_id (Some (Toy.id toy))))
                      (pending s)))).
  { apply dormant_set_liveness; [exact Hin | congruence | exact Hp]. }
  now split.
Qed.

Lemma toy_heartbeat_dormant u api_key now :
  u <> toy_uuid -> maintains P (toy_heartbeat u api_key now).
Proof.
  intros Hne s Hc Hp. unfold toy_heartbeat. run_monad.
  destruct (toy_by_uuid u (pending s)) as [toy|] eqn:Ht; run_monad; [|now split].
  apply first_some_in in Ht. destruct Ht as [Hin Hu]. apply uuid_eqb_eq in Hu.
  assert (H : P (with_toys
                   (update_where (fun t => uuid_eqb (Toy.id t) (Toy.id toy))
                      (Toy.set_liveness true (Some (timestamptz (datetime_utcnow now)))))
                   (pending s))).
  { apply dormant_set_liveness; [exact Hin | congruence | exact Hp]. }
  now split.
Qed.

Lemma snd_respond {A} (success : Z) (m : M A) (st : Store) :
  snd (respond success m st) = snd (run_request m st).
Proof. unfold respond. now destruct (run_request m st). Qed.

(** No request other than pairing this toy or its heartbeat wakes it. *)
Lemma serve_dormant (now : Z) (req : Request) (st : Store) :
  pairs_or_heartbeats toy_uuid req = false ->
  P st -> P (snd (serve now req st)).
Proof.
  intros Hreq Hst.
  destruct req; cbn [serve pairs_or_heartbeats] in *; rewrite snd_respond;
    apply maintains_run; try exact Hst;
    unfold POST_auth_logout, POST_auth_apikey_create, POST_parent_children,
           GET_parent_toy_status, POST_toy_pair, POST_toy_set_active_child,
           POST_toy_ask, POST_toy_heartbeat;
    try (apply maintains_bind;
         [first [apply get_current_parent_maintains | apply verify_api_key_maintains]
         | intros ?]).
  - apply signup_dormant.
  - apply login_dormant.
  - apply refresh_dormant.
  - apply logout_dormant.
  - apply create_api_key_dormant.
  - apply create_child_dormant.
  - apply get_toy_status_dormant.
  - apply pair_toy_dormant. now apply uuid_eqb_neq.
  - apply set_active_child_dormant.
  - apply toy_ask_dormant.
  - apply toy_heartbeat_dormant. now apply uuid_eqb_neq.
Qed.

Lemma serve_all_dormant (trace : list (Z * Request)) (st : Store) :
  Forall (fun e => pairs_or_heartbeats toy_uuid (snd e) = false) trace ->
  P st -> P (serve_all trace st).
Proof.
  revert st. induction trace as [|[now req] trace IH]; intros st Hall Hst;
    cbn [serve_all]; [exact Hst|].
  inversion Hall as [|e l Hreq Hrest]; subst. cbn [snd] in Hreq.
  apply IH; [exact Hrest|]. now apply serve_dormant.
Qed.
End Dormant.

(** A toy row is created inactive. *)
Lemma toy_created_inactive (i u : UUID) : Toy.is_active (Toy.new i u) = false.
Proof. reflexivity. Qed.

(** A key that [verify_api_key] accepts does not open an inactive toy. *)
Lemma toy_ask_inactive
    (st : Store) (x_api_key : option string) (key : APIKey.t) (toy_uuid : UUID)
    (question : string) (now : Z) (c m1 m2 : UUID) :
  run_request (verify_api_key x_api_key) st = (Ok key, st) ->
  (forall t, toy_by_uuid toy_uuid st = Some t -> Toy.is_active t = false) ->
  run_request (POST_toy_ask x_api_key toy_uuid question now c m1 m2) st
  = (Raise (HTTPException 401 "Invalid or inactive toy"), st).
Proof.
  intros Hkey Hoff. unfold POST_toy_ask, run_request, bind in *.
  destruct (verify_api_key x_api_key (mk_session st st)) as [[k|e] s] eqn:Hv;
    [|discriminate].
  assert (s = mk_session st st).
  { pose proof (@verify_api_key_maintains (fun x => x = st) x_api_key
                  (mk_session st st) eq_refl eq_refl) as Hm.
    rewrite Hv in Hm. cbn [snd] in Hm. destruct s as [cs ps].
    cbn [committed pending] in Hm. destruct Hm as [-> ->]. reflexivity. }
  subst s. unfold toy_ask. run_monad.
  destruct (toy_by_uuid toy_uuid st) as [t|] eqn:Ht; run_monad; [|reflexivity].
  now rewrite (Hoff t eq_refl).
Qed.

(** C10: take a registered toy whose [is_active] flag is unset, as it is
    when the row is created, and any sequence of requests in which that
    toy is neither paired nor sends a heartbeat.  The toy is still
    registered and inactive afterwards, and a [/toy/ask] for it that
    presents a key [verify_api_key] accepts is refused with 401 and
    writes nothing. *)
Theorem inactive_toy_cannot_ask
    (st : Store) (toy_uuid : UUID) (toy : Toy.t) (trace : list (Z * Request)) :
  NoDup (map Toy.id (toys st)) ->
  NoDup (map Toy.toy_uuid (toys st)) ->
  toy_by_uuid toy_uuid st = Some toy ->
  Toy.is_active toy = false ->
  Forall (fun e => pairs_or_heartbeats toy_uuid (snd e) = false) trace ->
  let st' := serve_all trace st in
  (exists toy', toy_by_uuid toy_uuid st' = Some toy' /\ Toy.is_active toy' = false)
  /\ (forall x_api_key key question now c m1 m2,
        run_request (verify_api_key x_api_key) st' = (Ok key, st') ->
        run_request (POST_toy_ask x_api_key toy_uuid question now c m1 m2) st'
        = (Raise (HTTPException 401 "Invalid or inactive toy"), st')).
Proof.
  intros Hid Huuid Htoy Hoff Htrace. cbn zeta.
  assert (Hstart : dormant toy_uuid st).
  { repeat split; [exact Hid | now exists toy |].
    intros t Hin Hu. apply first_some_in in Htoy. destruct Htoy as [Htin Htu].
    apply uuid_eqb_eq in Htu.
    assert (t = toy)
      by (apply (unique_column Toy.toy_uuid (toys st)); try assumption; congruence).
    now subst t. }
  pose proof (serve_all_dormant Htrace Hstart) as (_ & [toy' Htoy'] & Hoff').
  assert (Hsleep : forall t, toy_by_uuid toy_uuid (serve_all trace st) = Some t ->
                             Toy.is_active t = false).
  { intros t Ht. apply first_some_in in Ht. destruct Ht as [Hin Hu].
    apply uuid_eqb_eq in Hu. now apply Hoff'. }
  split.
  - exists toy'. split; [exact Htoy' | now apply Hsleep].
  - intros x_api_key key question now c m1 m2 Hkey.
    eapply toy_ask_inactive; eassumption.
Qed.

(* ------------------------------------------------------------------ *)
(** ** The constraints assumed of a store are kept by every request *)

Lemma first_found {A} (p : A -> bool) (rows : list A) (r : A) :
  In r rows -> p r = true -> exists r', first p rows = Some r'.
Proof.
  intros Hin Hp. destruct (first p rows) as [r'|] eqn:E; [now exists r'|].
  rewrite (proj1 (first_none p rows) E r Hin) in Hp. discriminate.
Qed.

Lemma first_app_found {A} (p : A -> bool) (rows more : list A) (r : A) :
  first p rows = Some r -> first p (rows ++ more) = Some r.
Proof.
  unfold first. induction rows as [|a rows IH]; simpl; [discriminate|].
  destruct (p a); [trivial | exact IH].
Qed.

Lemma unique_after_delete {A B} (f : A -> B) (p : A -> bool) (rows : list A) :
  NoDup (map f rows) -> NoDup (map f (delete_where p rows)).
Proof.
  unfold delete_where. induction rows as [|a l IH]; simpl; intros Hnd; [constructor|].
  inversion Hnd as [|x l' Hn Hnd']; subst.
  destruct (negb (p a)); simpl; [|now apply IH].
  constructor; [|now apply IH].
  intros Hc. apply Hn. apply in_map_iff in Hc. destruct Hc as (b & Hb & Hbin).
  apply filter_In in Hbin. rewrite <- Hb. apply in_map. tauto.
Qed.

Lemma toy_keys_unique_update (st : Store) (p : Toy.t -> bool) (f : Toy.t -> Toy.t) :
  (forall t, Toy.id (f t) = Toy.id t) ->
  (forall t, Toy.toy_uuid (f t) = Toy.toy_uuid t) ->
  toy_keys_unique st -> toy_keys_unique (with_toys (update_where p f) st).
Proof.
  intros Hid Hu [H1 H2]. unfold toy_keys_unique. cbn [toys with_toys].
  now rewrite !map_update_where.
Qed.

Lemma token_hash_unique_delete (st : Store) (p : RefreshToken.t -> bool) :
  token_hash_unique st -> token_hash_unique (with_refresh_tokens (delete_where p) st).
Proof. apply unique_after_delete. Qed.

Lemma token_hash_unique_add (st : Store) (r : RefreshToken.t) :
  refresh_token_insertable r st = true ->
  token_hash_unique st ->
  token_hash_unique (with_refresh_tokens (fun l => l ++ [r]) st).
Proof.
  intros Hok H. unfold token_hash_unique in *. cbn [refresh_tokens with_refresh_tokens].
  rewrite map_app. cbn [map].
  apply NoDup_app; [exact H | repeat constructor; intros [] |].
  intros h Hh [<-|[]]. apply in_map_iff in Hh. destruct Hh as (q & Hq & Hqin).
  unfold refresh_token_insertable in Hok.
  apply andb_true_iff in Hok. destruct Hok as [_ Hu]. apply negb_true_iff in Hu.
  assert (existsb (fun q0 => String.eqb (RefreshToken.token_hash q0)
                                        (RefreshToken.token_hash r))
                  (refresh_tokens st) = true); [|congruence].
  apply existsb_exists. exists q. split; [exact Hqin | now apply String.eqb_eq].
Qed.

Lemma children_have_analytics_children (st : Store) (p : Child.t -> bool)
    (f : Child.t -> Child.t) :
  (forall c, Child.id (f c) = Child.id c) ->
  children_have_analytics st ->
  children_have_analytics (with_children (update_where p f) st).
Proof.
  intros Hid H c Hin. cbn [children with_children] in Hin.
  unfold update_where in Hin. apply in_map_iff in Hin. destruct Hin as (c0 & <- & Hin).
  destruct (H c0 Hin) as [a Ha]. exists a.
  destruct (p c0); [rewrite Hid|]; exact Ha.
Qed.

Lemma children_have_analytics_rows (st : Store) (p : ChildAnalytics.t -> bool)
    (g : ChildAnalytics.t -> ChildAnalytics.t) :
  (forall a, ChildAnalytics.child_id (g a) = ChildAnalytics.child_id a) ->
  children_have_analytics st ->
  children_have_analytics (with_child_analytics (update_where p g) st).
Proof.
  intros Hid H c Hin. destruct (H c Hin) as [a Ha].
  unfold analytics_of in *. cbn [child_analytics with_child_analytics].
  rewrite first_update_where by (intros r; now rewrite Hid).
  rewrite Ha. cbn [option_map]. eauto.
Qed.

Lemma children_have_analytics_create (st : Store) (child : Child.t) (analytics_id : UUID) :
  children_have_analytics st ->
  children_have_analytics
    (with_child_analytics
       (fun l => l ++ [ChildAnalytics.new analytics_id (Child.id child)])
       (with_children (fun l => l ++ [child]) st)).
Proof.
  intros H c Hin. cbn [children with_children with_child_analytics] in Hin.
  unfold analytics_of. cbn [child_analytics with_child_analytics with_children].
  apply in_app_or in Hin. destruct Hin as [Hin | [<- | []]].
  - destruct (H c Hin) as [a Ha]. exists a. now apply first_app_found.
  - apply (@first_found _ _ _ (ChildAnalytics.new analytics_id (Child.id child))).
    + apply in_or_app. right. now left.
    + apply uuid_eqb_refl.
Qed.

Lemma active_children_exist_children (st : Store) (p : Child.t -> bool)
    (f : Child.t -> Child.t) :
  (forall c, Child.id (f c) = Child.id c) ->
  active_children_exist st ->
  active_children_exist (with_children (update_where p f) st).
Proof.
  intros Hid H t c Hin Hc. destruct (H t c Hin Hc) as [child Hchild].
  cbn [children with_children].
  rewrite first_update_where by (intros r; now rewrite Hid).
  rewrite Hchild. cbn [option_map]. eauto.
Qed.

Lemma active_children_exist_add (st : Store) (c : Child.t) :
  active_children_exist st ->
  active_children_exist (with_children (fun l => l ++ [c]) st).
Proof.
  intros H t a Hin Ha. destruct (H t a Hin Ha) as [child Hchild].
  exists child. cbn [children with_children]. now apply first_app_found.
Qed.

Lemma active_children_exist_toys (st : Store) (p : Toy.t -> bool) (f : Toy.t -> Toy.t) :
  (forall t c, In t (toys st) -> Toy.active_child_id (f t) = Some c ->
               exists child,
                 first (fun x => uuid_eqb (Child.id x) c) (children st) = Some child) ->
  active_children_exist st ->
  active_children_exist (with_toys (update_where p f) st).
Proof.
  intros Hf H t c Hin Hc. cbn [toys with_toys children] in *.
  unfold update_where in Hin. apply in_map_iff in Hin. destruct Hin as (t0 & <- & Hin).
  destruct (p t0).
  - now apply (Hf t0).
  - now apply (H t0).
Qed.

Ltac kept :=
  intros;
  match goal with
  | H : consistent _ |- consistent _ =>
      destruct H as (? & ? & ? & ?);
      split; [|split; [|split]];
      first [ match goal with K : _ |- _ => exact K end
            | apply toy_keys_unique_update; [reflexivity | reflexivity | assumption]
            | apply token_hash_unique_delete; assumption
            | apply token_hash_unique_add; assumption
            | apply children_have_analytics_children; [reflexivity | assumption]
            | apply children_have_analytics_rows; [reflexivity | assumption]
            | apply active_children_exist_children; [reflexivity | assumption]
            | apply active_children_exist_toys; [|assumption];
              let t := fresh "t" in
              let c := fresh "c" in
              let Hin := fresh "Hin" in
              let Hset := fresh "Hset" in
              intros t c Hin Hset;
              match goal with
              | K : active_children_exist _ |- _ => now apply (K t)
              end ]
  end.

Lemma create_token_pair_consistent parent user_agent now refresh_raw row_id :
  maintains consistent (create_token_pair parent user_agent now refresh_raw row_id).
Proof.
  unfold create_token_pair, store_refresh_token, add_refresh_token. maintain kept.
Qed.

Lemma signup_consistent name email password salt new_id :
  maintains consistent (signup name email password salt new_id).
Proof. unfold signup, add_parent. maintain kept. Qed.

Lemma login_consistent email password user_agent now refresh_raw row_id :
  maintains consistent (login email password user_agent now refresh_raw row_id).
Proof. unfold login. maintain kept. apply create_token_pair_consistent. Qed.

Lemma refresh_consistent token now refresh_raw row_id :
  maintains consistent (refresh token now refresh_raw row_id).
Proof.
  unfold refresh, db_delete_refresh_token. maintain kept.
  apply create_token_pair_consistent.
Qed.

Lemma logout_consistent current_parent : maintains consistent (logout current_parent).
Proof.
  unfold logout, revoke_all_refresh_tokens, db_delete_refresh_token. maintain kept.
Qed.

Lemma create_api_key_consistent owner current_parent raw_key row_id :
  maintains consistent (create_api_key owner current_parent raw_key row_id).
Proof. unfold create_api_key, add_api_key. maintain kept. Qed.

Lemma get_toy_status_consistent u parent now :
  maintains consistent (get_toy_status u parent now).
Proof. unfold get_toy_status. maintain kept. Qed.

Lemma pair_toy_consistent u child_id parent now :
  maintains consistent (pair_toy u child_id parent now).
Proof. unfold pair_toy. maintain kept. Qed.

Lemma toy_heartbeat_consistent u api_key now :
  maintains consistent (toy_heartbeat u api_key now).
Proof. unfold toy_heartbeat. maintain kept. Qed.

Lemma toy_ask_consistent question u api_key now c m1 m2 :
  maintains consistent (toy_ask question u api_key now c m1 m2).
Proof. unfold toy_ask, add_conversation, add_message. maintain kept. Qed.

(** The child and its analytics row enter the store together or not at
    all. *)
Lemma create_child_consistent child_name age current_parent child_id analytics_id :
  maintains consistent (create_child child_name age current_parent child_id analytics_id).
Proof.
  intros s Hc Hp. unfold create_child, add_child, add_child_analytics. run_monad.
  destruct (count_children (Parent.id current_parent) (pending s) >=? 3); run_monad;
    [now split|].
  destruct (child_row _) as [child|]; run_monad; [|now split].
  destruct (child_insertable child (pending s)); run_monad; [|now split].
  match goal with
  | |- context [child_analytics_insertable ?a ?st] =>
      destruct (child_analytics_insertable a st)
  end; run_monad; [|now split].
  assert (H : consistent
                (with_child_analytics
                   (fun l => l ++ [ChildAnalytics.new analytics_id (Child.id child)])
                   (with_children (fun l => l ++ [child]) (pending s)))).
  { destruct Hp as (K1 & K2 & K3 & K4). split; [|split; [|split]].
    - exact K1.
    - exact K2.
    - apply (children_have_analytics_create child analytics_id K3).
    - apply (@active_children_exist_add (pending s)). exact K4. }
  now split.
Qed.

(** The active child set on a toy is a child that was found. *)
Lemma set_active_child_consistent u child_id parent :
  maintains consistent (set_active_child u child_id parent).
Proof.
  intros s Hc Hp. unfold set_active_child. run_monad.
  destruct (owned_child child_id (Parent.id parent) (pending s)) as [child|] eqn:Hchild;
    run_monad; [|now split].
  destruct (hd_error _) as [toy|]; run_monad; [|now split].
  assert (H : consistent
                (with_toys
                   (update_where (fun t => uuid_eqb (Toy.id t) (Toy.id toy))
                      (Toy.set_active_child_id (Some (Child.id child))))
                   (pending s))).
  { destruct Hp as (K1 & K2 & K3 & K4). split; [|split; [|split]].
    - apply toy_keys_unique_update; [reflexivity | reflexivity | exact K1].
    - exact K2.
    - exact K3.
    - apply active_children_exist_toys; [|exact K4].
      intros t c _ Hset. cbn [Toy.active_child_id Toy.set_active_child_id] in Hset.
      injection Hset as <-.
      apply first_some_in in Hchild. destruct Hchild as [Hin _].
      eapply first_found; [exact Hin | apply uuid_eqb_refl]. }
  now split.
Qed.

(** On a consistent store the active child of a toy exists and has its
    analytics row. *)
Lemma consistent_active_child (st : Store) (toy_uuid : UUID) (toy : Toy.t) (active : UUID) :
  consistent st ->
  toy_by_uuid toy_uuid st = Some toy ->
  Toy.active_child_id toy = Some active ->
  exists child a,
    first (fun c => uuid_eqb (Child.id c) active) (children st) = Some child
    /\ analytics_of (Child.id child) st = Some a.
Proof.
  intros (_ & _ & K3 & K4) Htoy Hset.
  apply first_some_in in Htoy. destruct Htoy as [Hin _].
  destruct (K4 toy active Hin Hset) as [child Hchild].
  pose proof (first_some_in _ _ Hchild) as [Hcin _].
  destruct (K3 child Hcin) as [a Ha]. now exists child, a.
Qed.

Lemma serve_consistent (now : Z) (req : Request) (st : Store) :
  consistent st -> consistent (snd (serve now req st)).
Proof.
  intros Hst.
  destruct req; cbn [serve]; rewrite snd_respond; apply maintains_run; try exact Hst;
    unfold POST_auth_logout, POST_auth_apikey_create, POST_parent_children,
           GET_parent_toy_status, POST_toy_pair, POST_toy_set_active_child,
           POST_toy_ask, POST_toy_heartbeat;
    try (apply maintains_bind;
         [first [apply get_current_parent_maintains | apply verify_api_key_maintains]
         | intros ?]).
  - apply signup_consistent.
  - apply login_consistent.
  - apply refresh_consistent.
  - apply logout_consistent.
  - apply create_api_key_consistent.
  - apply create_child_consistent.
  - apply get_toy_status_consistent.
  - apply pair_toy_consistent.
  - apply set_active_child_consistent.
  - apply toy_ask_consistent.
  - apply toy_heartbeat_consistent.
Qed.

(** X18: the schema constraints and the two reference invariants (toy
    keys unique, refresh-token hashes unique, every child has an
    analytics row, every active child exists) hold of every store the
    API reaches from a store on which they hold, whatever the sequence
    of requests, their arguments and their outcomes. *)
Corollary serve_all_consistent (trace : list (Z * Request)) (st : Store) :
  consistent st -> consistent (serve_all trace st).
Proof.
  revert st. induction trace as [|[now req] trace IH]; intros st Hst; cbn [serve_all];
    [exact Hst|].
  apply IH. now apply serve_consistent.
Qed.

End Claims.

(* ================================================================== *)
(** * Further properties of the handlers *)

Section Extras.
Context {settings : Settings} {crypto : Crypto}.

(* ------------------------------------------------------------------ *)
(** ** A request that fails has written nothing *)

Lemma quiet_ret {A} (a : A) : quiet (ret a).
Proof. intros s. reflexivity. Qed.

Lemma quiet_raise {A} (e : Exn) : quiet (@raise A e).
Proof. intros s. reflexivity. Qed.

Lemma quiet_execute {A} (q : Store -> A) : quiet (execute q).
Proof. intros s. reflexivity. Qed.

Lemma quiet_emit (f : Store -> Store) : quiet (emit f).
Proof. intros s. reflexivity. Qed.

Lemma quiet_rollback : quiet db_rollback.
Proof. intros s. reflexivity. Qed.

Lemma quiet_insert_checked (allowed : Store -> bool) (f : Store -> Store) :
  quiet (insert_checked allowed f).
Proof. intros s. unfold insert_checked. now destruct (allowed (pending s)). Qed.

Lemma quiet_bind {A B} (m : M A) (k : A -> M B) :
  quiet m -> (forall a, quiet (k a)) -> quiet (bind m k).
Proof.
  intros Hm Hk s. unfold bind. specialize (Hm s).
  destruct (m s) as [[a|e] s1]; cbn [snd] in *; [|exact Hm].
  now rewrite Hk.
Qed.

Lemma quiet_emit_checked (fits : bool) (f : Store -> Store) :
  quiet (emit_checked fits f).
Proof. unfold emit_checked. destruct fits; [apply quiet_emit | apply quiet_raise]. Qed.

Lemma quiet_insert_row {R} (coerced : option R)
    (allowed : R -> Store -> bool) (f : R -> Store -> Store) :
  quiet (insert_row coerced allowed f).
Proof.
  unfold insert_row. destruct coerced as [row|]; [|apply quiet_raise].
  apply quiet_bind; [apply quiet_insert_checked | intros _; apply quiet_ret].
Qed.

Lemma sure_ret {A} (a : A) : sure (ret a).
Proof. intros s. now exists a. Qed.

Lemma sure_execute {A} (q : Store -> A) : sure (execute q).
Proof. intros s. eexists. reflexivity. Qed.

Lemma sure_emit (f : Store -> Store) : sure (emit f).
Proof. intros s. now exists tt. Qed.

Lemma sure_commit : sure db_commit.
Proof. intros s. now exists tt. Qed.

Lemma sure_bind {A B} (m : M A) (k : A -> M B) :
  sure m -> (forall a, sure (k a)) -> sure (bind m k).
Proof.
  intros Hm Hk s. unfold bind. destruct (Hm s) as [a Ha].
  destruct (m s) as [[a'|e] s1]; cbn [fst] in Ha; [|discriminate].
  apply Hk.
Qed.

Lemma sure_for_each {A} (rows : list A) (body : A -> M unit) :
  (forall r, sure (body r)) -> sure (for_each rows body).
Proof.
  intros Hb. induction rows as [|r rows IH]; cbn [for_each].
  - apply sure_ret.
  - apply sure_bind; [apply Hb | intros _; exact IH].
Qed.

Lemma all_or_nothing_quiet {A} (m : M A) : quiet m -> all_or_nothing m.
Proof. intros Hm s. destruct (fst (m s)); [exact I | apply Hm]. Qed.

Lemma all_or_nothing_sure {A} (m : M A) : sure m -> all_or_nothing m.
Proof. intros Hm s. destruct (Hm s) as [a Ha]. now rewrite Ha. Qed.

Lemma all_or_nothing_bind {A B} (m : M A) (k : A -> M B) :
  quiet m -> (forall a, all_or_nothing (k a)) -> all_or_nothing (bind m k).
Proof.
  intros Hm Hk s. unfold bind. specialize (Hm s).
  destruct (m s) as [[a|e] s1]; cbn [fst snd] in *; [|exact Hm].
  specialize (Hk a s1). destruct (k a s1) as [[b|e] s2]; cbn [fst snd] in *;
    [exact I | congruence].
Qed.

Lemma all_or_nothing_then_sure {A B} (m : M A) (k : A -> M B) :
  all_or_nothing m -> (forall a, sure (k a)) -> all_or_nothing (bind m k).
Proof.
  intros Hm Hk s. unfold bind. specialize (Hm s).
  destruct (m s) as [[a|e] s1]; cbn [fst snd] in *; [|exact Hm].
  destruct (Hk a s1) as [b Hb]. now rewrite Hb.
Qed.

Lemma all_or_nothing_try {A} (body handler : M A) :
  all_or_nothing body -> quiet handler ->
  all_or_nothing (try_except_IntegrityError body handler).
Proof.
  intros Hb Hh s. unfold try_except_IntegrityError. specialize (Hb s).
  destruct (body s) as [[a|e] s1]; cbn [fst snd] in *; [exact Hb|].
  destruct e; try exact Hb.
  specialize (Hh s1). destruct (handler s1) as [[a|e] s2]; cbn [fst snd] in *;
    [exact I | congruence].
Qed.

Lemma all_or_nothing_run {A} (m : M A) (st st' : Store) (e : Exn) :
  all_or_nothing m -> run_request m st = (Raise e, st') -> st' = st.
Proof.
  intros Hm. unfold run_request. specialize (Hm (mk_session st st)).
  destruct (m (mk_session st st)) as [r s]. cbn [fst snd committed] in Hm.
  intros H. injection H as -> <-. exact Hm.
Qed.

Ltac quietly :=
  repeat first
    [ apply quiet_ret | apply quiet_raise | apply quiet_execute | apply quiet_emit
    | apply quiet_emit_checked | apply quiet_insert_row
    | apply quiet_rollback | apply quiet_insert_checked
    | apply quiet_bind; [|intros ?]
    | progress cbn zeta
    | match goal with |- quiet (match ?x with _ => _ end) => destruct x end ].

Ltac surely :=
  repeat first
    [ apply sure_ret | apply sure_execute | apply sure_emit | apply sure_commit
    | apply sure_bind; [|intros ?]
    | apply sure_for_each; intros ?
    | progress cbn zeta
    | match goal with |- sure (match ?x with _ => _ end) => destruct x end ].

Ltac settle :=
  repeat first
    [ solve [apply all_or_nothing_quiet; quietly]
    | solve [apply all_or_nothing_sure; surely]
    | apply all_or_nothing_try; [|solve [quietly]]
    | apply all_or_nothing_bind; [solve [quietly] | intros ?]
    | apply all_or_nothing_then_sure; [|intros ?; solve [surely]]
    | progress cbn zeta
    | match goal with
      | |- all_or_nothing (match ?x with _ => _ end) => destruct x
      end ].

Lemma get_current_parent_quiet (credentials : AccessToken) (now : Z) :
  quiet (get_current_parent credentials now).
Proof. unfold get_current_parent, decode_access_token. quietly. Qed.

Lemma verify_api_key_quiet (api_key : option string) : quiet (verify_api_key api_key).
Proof. unfold verify_api_key. quietly. Qed.

Lemma signup_all_or_nothing name email password salt new_id :
  all_or_nothing (signup name email password salt new_id).
Proof. unfold signup, add_parent. settle. Qed.

Lemma login_all_or_nothing email password user_agent now refresh_raw row_id :
  all_or_nothing (login email password user_agent now refresh_raw row_id).
Proof.
  unfold login, create_token_pair, store_refresh_token, add_refresh_token. settle.
Qed.

Lemma logout_all_or_nothing current_parent : all_or_nothing (logout current_parent).
Proof.
  unfold logout, revoke_all_refresh_tokens, db_delete_refresh_token. settle.
Qed.

Lemma create_api_key_all_or_nothing owner current_parent raw_key row_id :
  all_or_nothing (create_api_key owner current_parent raw_key row_id).
Proof. unfold create_api_key, add_api_key. settle. Qed.

Lemma create_child_all_or_nothing child_name age current_parent child_id analytics_id :
  all_or_nothing (create_child child_name age current_parent child_id analytics_id).
Proof. unfold create_child, add_child, add_child_analytics. settle. Qed.

Lemma get_toy_status_quiet u parent now : quiet (get_toy_status u parent now).
Proof. unfold get_toy_status. quietly. Qed.

Lemma pair_toy_all_or_nothing u child_id parent now :
  all_or_nothing (pair_toy u child_id parent now).
Proof. unfold pair_toy. settle. Qed.

Lemma set_active_child_all_or_nothing u child_id parent :
  all_or_nothing (set_active_child u child_id parent).
Proof. unfold set_active_child. settle. Qed.

Lemma toy_ask_all_or_nothing question u api_key now c m1 m2 :
  all_or_nothing (toy_ask question u api_key now c m1 m2).
Proof. unfold toy_ask, add_conversation, add_message. settle. Qed.

Lemma toy_heartbeat_all_or_nothing u api_key now :
  all_or_nothing (toy_heartbeat u api_key now).
Proof. unfold toy_heartbeat. settle. Qed.

Lemma respond_failed {A} (success : Z) (m : M A) (st : Store) :
  success < 400 -> all_or_nothing m ->
  400 <= fst (respond success m st) -> snd (respond success m st) = st.
Proof.
  intros Hs Hm. unfold respond.
  destruct (run_request m st) as [[a|e] st'] eqn:Hrun; cbn [status_of fst snd].
  - lia.
  - intros _. now apply (all_or_nothing_run _ Hm Hrun).
Qed.

(** X1: whatever the request, except a refresh, a response with a status
    of 400 or above (a 500 for an uncaught [IntegrityError] included)
    leaves the store exactly as it was: every write of a handler is
    committed at its end or not at all. *)
Theorem failed_request_writes_nothing (now : Z) (req : Request) (st : Store) :
  is_refresh req = false ->
  400 <= fst (serve now req st) ->
  snd (serve now req st) = st.
Proof.
  intros Hreq.
  destruct req; try discriminate Hreq; cbn [serve];
    apply respond_failed; try lia;
    unfold POST_auth_logout, POST_auth_apikey_create, POST_parent_children,
           GET_parent_toy_status, POST_toy_pair, POST_toy_set_active_child,
           POST_toy_ask, POST_toy_heartbeat;
    try (apply all_or_nothing_bind;
         [first [apply get_current_parent_quiet | apply verify_api_key_quiet]
         | intros ?]).
  - apply signup_all_or_nothing.
  - apply login_all_or_nothing.
  - apply logout_all_or_nothing.
  - apply create_api_key_all_or_nothing.
  - apply create_child_all_or_nothing.
  - apply all_or_nothing_quiet, get_toy_status_quiet.
  - apply pair_toy_all_or_nothing.
  - apply set_active_child_all_or_nothing.
  - apply toy_ask_all_or_nothing.
  - apply toy_heartbeat_all_or_nothing.
Qed.

(* ------------------------------------------------------------------ *)
(** ** Accounts *)

Lemma first_app_none {A} (p : A -> bool) (rows more : list A) :
  first p rows = None -> first p (rows ++ more) = first p more.
Proof.
  unfold first. induction rows as [|a rows IH]; simpl; [reflexivity|].
  destruct (p a); [discriminate | exact IH].
Qed.


(** What a successful [signup] has checked and stored. *)
Lemma signup_runs
    (st st' : Store) (name email password salt : string) (new_id : UUID)
    (reply : UUID * string) :
  run_request (signup name email password salt new_id) st = (Ok reply, st') ->
  exists stored_name,
    let parent := Parent.mk new_id stored_name email (hash_password salt password)
                            "parent" 1 true in
    (10 <= py_len password /\ utf8_len password <= 72)
    /\ has_nul password = false
    /\ varchar 100 name = Some stored_name
    /\ fits_varchar 150 email = true
    /\ first (fun p => String.eqb (Parent.email p) email) (parents st) = None
    /\ parent_insertable parent st = true
    /\ st' = with_parents (fun l => l ++ [parent]) st
    /\ reply = (new_id, email).
Proof.
  unfold signup, add_parent, parent_row. intros H.
  destruct (py_len password <? 10) eqn:E1; run_monad in H; [discriminate|].
  destruct (utf8_len password >? 72) eqn:E2; run_monad in H; [discriminate|].
  destruct (first _ (parents st)) as [p|] eqn:E3; run_monad in H; [discriminate|].
  destruct (has_nul password) eqn:E5; run_monad in H; [discriminate|].
  cbn [Parent.name Parent.email Parent.id Parent.password_hash Parent.role
       Parent.token_version Parent.is_active] in H.
  destruct (varchar 100 name) as [stored_name|] eqn:E6; run_monad in H; [|discriminate].
  destruct (fits_varchar 150 email) eqn:E7; run_monad in H; [|discriminate].
  destruct (parent_insertable _ st) eqn:E4; run_monad in H; [|discriminate].
  injection H as <- <-. apply Z.ltb_ge in E1.
  assert (utf8_len password <= 72) by (rewrite Z.gtb_ltb in E2; now apply Z.ltb_ge).
  exists stored_name. cbn zeta. repeat split; assumption.
Qed.

(** X2: a successful signup has accepted a password of at least 10 code
    points and at most 72 bytes, for an email and an id that no stored
    parent had; it stores exactly one new parent, active, with role
    "parent" and [token_version] 1, holding the hash and not the
    password, and the name as its VARCHAR(100) column holds it, which
    for a name of at most 100 characters is the name itself.  From then
    on every signup with that email is refused with 400 and writes
    nothing. *)
Theorem signup_registers_once
    (st st' : Store) (name email password salt : string) (new_id : UUID)
    (reply : UUID * string) :
  run_request (signup name email password salt new_id) st = (Ok reply, st') ->
  (10 <= py_len password /\ utf8_len password <= 72)
  /\ (forall p, In p (parents st) -> Parent.email p <> email /\ Parent.id p <> new_id)
  /\ (exists stored_name,
        varchar 100 name = Some stored_name
        /\ st' = with_parents
                   (fun l => l ++ [Parent.mk new_id stored_name email
                                             (hash_password salt password)
                                             "parent" 1 true]) st)
  /\ (py_len name <= 100 ->
      st' = with_parents
              (fun l => l ++ [Parent.mk new_id name email (hash_password salt password)
                                        "parent" 1 true]) st)
  /\ reply = (new_id, email)
  /\ (forall name2 password2 salt2 id2,
        exists detail,
          run_request (signup name2 email password2 salt2 id2) st'
          = (Raise (HTTPException 400 detail), st')).
Proof.
  intros H. apply signup_runs in H. destruct H as (stored_name & H). cbn zeta in H.
  destruct H as (Hpolicy & _ & Hname & _ & Hemail & Hins & -> & ->).
  split; [exact Hpolicy|].
  split; [|split; [exists stored_name; split; [exact Hname | reflexivity]
                  |split; [intros Hlen; now rewrite (@varchar_short 100 name stored_name Hname Hlen)
                          |split; [reflexivity|]]]].
  - intros p Hp. split.
    + apply String.eqb_neq. exact (proj1 (first_none _ _) Hemail p Hp).
    + unfold parent_insertable in Hins. apply andb_true_iff in Hins.
      destruct Hins as [Hid _]. apply negb_true_iff, has_id_false in Hid.
      intros E. apply Hid. cbn [Parent.id]. rewrite <- E. now apply in_map.
  - intros name2 password2 salt2 id2. unfold signup. run_monad.
    destruct (py_len password2 <? 10); run_monad; [eauto|].
    destruct (utf8_len password2 >? 72); run_monad; [eauto|].
    cbn [parents with_parents]. rewrite first_app_none by exact Hemail.
    cbn [first find Parent.email]. rewrite String.eqb_refl. run_monad. eauto.
Qed.

(** The bearer guard accepts a signed token of a stored, active parent
    that carries the stored version and has not expired. *)
Lemma get_current_parent_accepts
    (st : Store) (claims : Claims) (now : Z) (parent : Parent.t) :
  sub claims = Some (Parent.id parent) ->
  claim_token_version claims = Some (Parent.token_version parent) ->
  (exp claims <? now / 1000000) = false ->
  first (fun p => uuid_eqb (Parent.id p) (Parent.id parent)) (parents st) = Some parent ->
  Parent.is_active parent = true ->
  run_request (get_current_parent (Signed claims) now) st = (Ok parent, st).
Proof.
  intros Hsub Hv Hexp Hp Hact. unfold get_current_parent, decode_access_token.
  run_monad. rewrite Hexp. run_monad. rewrite Hsub. run_monad. rewrite Hp. run_monad.
  rewrite Hact. cbn [negb]. rewrite Hv. run_monad. now rewrite Z.eqb_refl.
Qed.

(** X3: a token made by [create_access_token] for a stored, active parent
    is accepted by [get_current_parent], which returns that parent, up to
    and including the second its [exp] names; after that second it is
    refused as expired.  Nothing is written either way. *)
Theorem access_token_round_trip
    (st : Store) (parent : Parent.t) (issued now : Z) :
  first (fun p => uuid_eqb (Parent.id p) (Parent.id parent)) (parents st) = Some parent ->
  Parent.is_active parent = true ->
  run_request (get_current_parent (create_access_token parent issued) now) st
  = if (issued + timedelta_minutes ACCESS_TOKEN_MINUTES) / 1000000 <? now / 1000000
    then (Raise (HTTPException 401 "Access token expired"), st)
    else (Ok parent, st).
Proof.
  intros Hp Hact.
  destruct (_ <? now / 1000000) eqn:Hexp.
  - unfold get_current_parent, decode_access_token, create_access_token.
    run_monad. cbn [exp]. now rewrite Hexp.
  - now apply get_current_parent_accepts.
Qed.


Lemma refresh_token_insertable_fresh (r : RefreshToken.t) (st : Store) :
  ~ In (RefreshToken.id r) (map RefreshToken.id (refresh_tokens st)) ->
  In (RefreshToken.parent_id r) (map Parent.id (parents st)) ->
  ~ In (RefreshToken.token_hash r) (map RefreshToken.token_hash (refresh_tokens st)) ->
  refresh_token_insertable r st = true.
Proof.
  intros Hid Hp Hhash. unfold refresh_token_insertable.
  apply has_id_false in Hid. apply has_id_true in Hp. rewrite Hid, Hp.
  cbn [negb andb]. apply negb_true_iff. apply not_true_is_false.
  rewrite existsb_exists. intros (q & Hq & E). apply String.eqb_eq in E.
  apply Hhash. rewrite <- E. now apply in_map.
Qed.

(** The stored row of a refresh token differs from the row that was
    built in its user agent at most. *)
Lemma refresh_token_row_some (r row : RefreshToken.t) :
  refresh_token_row r = Some row ->
  RefreshToken.id row = RefreshToken.id r
  /\ RefreshToken.parent_id row = RefreshToken.parent_id r
  /\ RefreshToken.token_hash row = RefreshToken.token_hash r
  /\ RefreshToken.expires_at row = RefreshToken.expires_at r.
Proof.
  unfold refresh_token_row. destruct (RefreshToken.user_agent r) as [agent|].
  - destruct (varchar 255 agent); [|discriminate]. intros [= <-]. repeat split.
  - intros [= <-]. repeat split.
Qed.




(* ------------------------------------------------------------------ *)
(** ** Refresh tokens, from login to rotation *)

(** What a successful [login] has checked and stored. *)
Lemma login_ok
    (st st1 : Store) (email password : string) (user_agent : option string)
    (now : Z) (refresh_raw : string) (row_id : UUID) (pair : TokenPair) :
  run_request (login email password user_agent now refresh_raw row_id) st = (Ok pair, st1) ->
  exists p row,
    refresh_token_row
      (RefreshToken.mk row_id (Parent.id p) (hash_refresh_token refresh_raw)
                       user_agent (now + timedelta_days REFRESH_TOKEN_DAYS)) = Some row
    /\ first (fun q => String.eqb (Parent.email q) email) (parents st) = Some p
    /\ Parent.is_active p = true
    /\ refresh_token_insertable row st = true
    /\ st1 = with_refresh_tokens (fun l => l ++ [row]) st
    /\ pair = mk_token_pair (create_access_token p now) refresh_raw "bearer"
                            (ACCESS_TOKEN_MINUTES * 60).
Proof.
  unfold login. intros H. run_monad in H.
  destruct (first _ (parents st)) as [p|] eqn:Hp; run_monad in H; [|discriminate].
  destruct (verify_password password (Parent.password_hash p)); cbn [negb] in H;
    run_monad in H; [|discriminate].
  destruct (Parent.is_active p) eqn:Hact; cbn [negb] in H; run_monad in H; [|discriminate].
  rewrite create_token_pair_stores in H. cbn [pending] in H.
  destruct (refresh_token_row _) as [row|] eqn:Hrow; [|discriminate].
  cbn zeta in H.
  destruct (refresh_token_insertable row st) eqn:Hins; [|discriminate].
  cbn [committed] in H. injection H as <- <-.
  exists p, row. repeat split; assumption.
Qed.

Lemma insertable_hash_new (row : RefreshToken.t) (st : Store) :
  refresh_token_insertable row st = true ->
  first (fun r => String.eqb (RefreshToken.token_hash r) (RefreshToken.token_hash row))
        (refresh_tokens st) = None
  /\ ~ In (RefreshToken.id row) (map RefreshToken.id (refresh_tokens st)).
Proof.
  unfold refresh_token_insertable. intros H.
  apply andb_true_iff in H. destruct H as [H Hu].
  apply andb_true_iff in H. destruct H as [Hid _].
  apply negb_true_iff in Hu, Hid. split.
  - apply first_none. intros r Hr.
    destruct (String.eqb (RefreshToken.token_hash r) (RefreshToken.token_hash row)) eqn:E;
      [|reflexivity].
    assert (existsb (fun q => String.eqb (RefreshToken.token_hash q)
                                         (RefreshToken.token_hash row))
                    (refresh_tokens st) = true); [|congruence].
    apply existsb_exists. now exists r.
  - now apply has_id_false.
Qed.

Lemma delete_where_fresh {A} (id_of : A -> UUID) (i : UUID) (rows : list A) :
  ~ In i (map id_of rows) ->
  delete_where (fun r => uuid_eqb (id_of r) i) rows = rows.
Proof.
  intros Hnew. unfold delete_where. induction rows as [|a rows IH]; simpl; [reflexivity|].
  assert (uuid_eqb (id_of a) i = false)
    by (apply uuid_eqb_neq; intros E; apply Hnew; left; exact E).
  rewrite H. cbn [negb]. f_equal. apply IH. intros Hin. apply Hnew. now right.
Qed.

Lemma delete_where_last {A} (id_of : A -> UUID) (i : UUID) (rows : list A) (r : A) :
  id_of r = i ->
  ~ In i (map id_of rows) ->
  delete_where (fun x => uuid_eqb (id_of x) i) (rows ++ [r]) = rows.
Proof.
  intros <- Hnew. unfold delete_where. rewrite filter_app. cbn [filter].
  rewrite uuid_eqb_refl. cbn [negb]. rewrite app_nil_r.
  now apply (delete_where_fresh id_of).
Qed.

(** X6: login, then refresh.  The refresh token a login returned is
    accepted once, at any time up to its expiry [REFRESH_TOKEN_DAYS]
    after the login: the refresh replaces the login's row by the row of
    the new token and returns the new token.  Parent ids are unique (the
    primary key); the id and token drawn for the new row are fresh. *)
Theorem login_then_refresh
    (st st1 : Store) (email password : string) (user_agent : option string)
    (now : Z) (refresh_raw : string) (row_id : UUID) (pair : TokenPair)
    (now' : Z) (refresh_raw' : string) (row_id' : UUID) :
  NoDup (map Parent.id (parents st)) ->
  run_request (login email password user_agent now refresh_raw row_id) st = (Ok pair, st1) ->
  now' <= now + timedelta_days REFRESH_TOKEN_DAYS ->
  ~ In row_id' (map RefreshToken.id (refresh_tokens st)) ->
  ~ In (hash_refresh_token refresh_raw')
       (map RefreshToken.token_hash (refresh_tokens st)) ->
  exists pair' st2 parent_id,
    run_request (refresh (refresh_token pair) now' refresh_raw' row_id') st1
    = (Ok pair', st2)
    /\ refresh_token pair' = refresh_raw'
    /\ refresh_tokens st2
       = refresh_tokens st
         ++ [RefreshToken.mk row_id' parent_id (hash_refresh_token refresh_raw') None
                             (now' + timedelta_days REFRESH_TOKEN_DAYS)].
Proof.
  intros Hpk Hlogin Hnow Hid' Hhash'.
  apply login_ok in Hlogin.
  destruct Hlogin as (p & row & Hrow & Hp & Hact & Hins & -> & ->).
  destruct (refresh_token_row_some _ Hrow) as (E1 & E2 & E3 & E4).
  cbn [RefreshToken.id RefreshToken.parent_id RefreshToken.token_hash
       RefreshToken.expires_at] in E1, E2, E3, E4.
  destruct (insertable_hash_new _ _ Hins) as [Hnohash Hnoid].
  rewrite E3 in Hnohash. rewrite E1 in Hnoid.
  assert (Hbyid : first (fun q => uuid_eqb (Parent.id q) (Parent.id p)) (parents st)
                  = Some p).
  { pose proof (first_some_in _ _ Hp) as [Hin _].
    destruct (first_found (fun q => uuid_eqb (Parent.id q) (Parent.id p)) _ p Hin
                          (uuid_eqb_refl _)) as [q Hq].
    pose proof (first_some_in _ _ Hq) as [Hqin Hqid]. apply uuid_eqb_eq in Hqid.
    rewrite Hq. f_equal.
    apply (unique_column Parent.id (parents st)); assumption. }
  exists (mk_token_pair (create_access_token p now') refresh_raw' "bearer"
                        (ACCESS_TOKEN_MINUTES * 60)).
  eexists. exists (Parent.id p).
  unfold refresh, db_delete_refresh_token. run_monad.
  cbn [refresh_token refresh_tokens with_refresh_tokens].
  rewrite first_app_none by exact Hnohash.
  cbn [first find]. rewrite E3, String.eqb_refl. run_monad.
  rewrite E4, E2, E1. cbn [parents with_refresh_tokens].
  assert (E : (now + timedelta_days REFRESH_TOKEN_DAYS <? now') = false)
    by (apply Z.ltb_ge; lia).
  rewrite E. run_monad. cbn [parents with_refresh_tokens]. rewrite Hbyid. run_monad.
  rewrite Hact. cbn [negb]. run_monad. rewrite create_token_pair_runs. cbn [pending].
  match goal with
  | |- context [refresh_token_insertable ?r ?s] =>
      set (new_row := r); set (rotated := s)
  end.
  assert (Hrts : refresh_tokens rotated = refresh_tokens st).
  { subst rotated. cbn [refresh_tokens].
    apply (@delete_where_last _ RefreshToken.id row_id); [exact E1 | exact Hnoid]. }
  assert (Hins' : refresh_token_insertable new_row rotated = true).
  { apply refresh_token_insertable_fresh; rewrite ?Hrts; try assumption.
    subst rotated new_row. cbn [parents RefreshToken.parent_id]. apply in_map.
    apply first_some_in in Hp. tauto. }
  rewrite Hins'. cbn [committed].
  split; [reflexivity|]. split; [reflexivity|].
  change (refresh_tokens rotated ++ [new_row] = refresh_tokens st ++ [new_row]).
  now rewrite Hrts.
Qed.

(** X7: the two refusals of a stored refresh token.  An expired token is
    refused with 401 and its row is deleted, so that the next attempt
    finds nothing; a token whose parent is missing or deactivated is
    refused with 401 and its row is kept. *)
Theorem refresh_refusals
    (st : Store) (raw : string) (now : Z) (refresh_raw : string) (row_id : UUID)
    (stored : RefreshToken.t) :
  first (fun r => String.eqb (RefreshToken.token_hash r) (hash_refresh_token raw))
        (refresh_tokens st) = Some stored ->
  let request := refresh raw now refresh_raw row_id in
  let owner := first (fun p => uuid_eqb (Parent.id p) (RefreshToken.parent_id stored))
                     (parents st) in
  (RefreshToken.expires_at stored < now ->
   let st' := with_refresh_tokens
                (delete_where (fun r => uuid_eqb (RefreshToken.id r)
                                                 (RefreshToken.id stored))) st in
   run_request request st = (Raise (HTTPException 401 "Refresh token expired"), st')
   /\ ~ In stored (refresh_tokens st')
   /\ (token_hash_unique st ->
       forall now2 raw2 id2,
         run_request (refresh raw now2 raw2 id2) st'
         = (Raise (HTTPException 401 "Invalid refresh token"), st')))
  /\ (now <= RefreshToken.expires_at stored ->
      owner = None \/ (exists p, owner = Some p /\ Parent.is_active p = false) ->
      run_request request st = (Raise (HTTPException 401 "User inactive"), st)).
Proof.
  intros Hstored. cbn zeta. split.
  - intros Hexp. split; [|split].
    + unfold refresh, db_delete_refresh_token. run_monad. rewrite Hstored. run_monad.
      apply Z.ltb_lt in Hexp. now rewrite Hexp.
    + cbn [refresh_tokens with_refresh_tokens]. intros Hin.
      apply in_delete_where in Hin. destruct Hin as [_ Hid].
      now rewrite uuid_eqb_refl in Hid.
    + intros Huniq now2 raw2 id2. apply refresh_unknown.
      intros r Hr Hh. cbn [refresh_tokens with_refresh_tokens] in Hr.
      apply in_delete_where in Hr. destruct Hr as [Hr Hid].
      apply first_some_in in Hstored. destruct Hstored as [Hin Hhash].
      apply String.eqb_eq in Hhash.
      assert (r = stored)
        by (apply (unique_column RefreshToken.token_hash (refresh_tokens st));
            [exact Huniq | exact Hr | exact Hin | congruence]).
      subst r. now rewrite uuid_eqb_refl in Hid.
  - intros Hvalid Howner. unfold refresh. run_monad. rewrite Hstored. run_monad.
    assert (E : (RefreshToken.expires_at stored <? now) = false)
      by (apply Z.ltb_ge; lia).
    rewrite E. run_monad.
    destruct Howner as [-> | (p & -> & Hoff)]; run_monad; [reflexivity|].
    now rewrite Hoff.
Qed.

(* ------------------------------------------------------------------ *)
(** ** Machine keys *)

(** X8: creating an API key is decided by the stored role of the parent
    the bearer guard resolved, not by the [role] claim of the token: a
    parent whose stored role is not "admin" gets 403 and nothing is
    written.  When the creation succeeds, presenting the raw key that
    was returned (a non-empty string) to [verify_api_key] yields the
    stored row, which is not revoked and holds the keyed hash. *)
Theorem api_key_round_trip
    (st : Store) (credentials : AccessToken) (now : Z) (parent : Parent.t)
    (owner raw_key : string) (row_id : UUID) :
  run_request (get_current_parent credentials now) st = (Ok parent, st) ->
  let request := POST_auth_apikey_create credentials now owner raw_key row_id in
  (Parent.role parent <> "admin" ->
   run_request request st = (Raise (HTTPException 403 "Admin only"), st))
  /\ (forall reply st',
        run_request request st = (Ok reply, st') ->
        raw_key <> "" ->
        Parent.role parent = "admin"
        /\ reply = (raw_key, owner)
        /\ api_keys st' = api_keys st ++ [APIKey.mk row_id (hash_api_key raw_key) owner false]
        /\ run_request (verify_api_key (Some raw_key)) st'
           = (Ok (APIKey.mk row_id (hash_api_key raw_key) owner false), st')).
Proof.
  intros Hauth. cbn zeta.
  unfold POST_auth_apikey_create, run_request, bind in *.
  destruct (get_current_parent credentials now (mk_session st st)) as [[p|e] s] eqn:Hg;
    [|discriminate].
  pose proof Hg as Hok. apply get_current_parent_ok in Hok. destruct Hok as (-> & _ & _).
  cbn [committed] in Hauth. injection Hauth as ->.
  unfold create_api_key, add_api_key. split.
  - intros Hrole. apply String.eqb_neq in Hrole. rewrite Hrole. reflexivity.
  - intros reply st' H Hraw.
    destruct (String.eqb (Parent.role parent) "admin") eqn:Hrole; cbn [negb] in H;
      run_monad in H; [|discriminate].
    unfold api_key_row in H. cbn [APIKey.owner] in H.
    destruct (fits_text owner); run_monad in H; [|discriminate].
    destruct (api_key_insertable _ st) eqn:Hins; run_monad in H; [|discriminate].
    injection H as <- <-. apply String.eqb_eq in Hrole.
    split; [exact Hrole|]. split; [reflexivity|]. split; [reflexivity|].
    unfold verify_api_key. run_monad.
    destruct raw_key as [|c k]; [now elim Hraw|]. cbn [str_truthy negb]. run_monad.
    cbn [api_keys with_api_keys].
    assert (Hnone : first (fun k0 => String.eqb (APIKey.key k0)
                                                 (hash_api_key (String c k)))
                          (api_keys st) = None).
    { apply first_none. intros r Hr.
      unfold api_key_insertable in Hins. apply andb_true_iff in Hins.
      destruct Hins as [_ Hu]. apply negb_true_iff in Hu. cbn [APIKey.key] in Hu.
      destruct (String.eqb (APIKey.key r) (hash_api_key (String c k))) eqn:E;
        [|reflexivity].
      assert (existsb (fun q => String.eqb (APIKey.key q) (hash_api_key (String c k)))
                      (api_keys st) = true); [|congruence].
      apply existsb_exists. now exists r. }
    rewrite first_app_none by exact Hnone.
    cbn [first find APIKey.key]. rewrite String.eqb_refl. reflexivity.
Qed.

(* ------------------------------------------------------------------ *)
(** ** Toys: heartbeat, pairing and the active child *)

Lemma hd_error_join_row {A B} (x : A) (c : B -> bool) (ys : list B) (rest : list A) :
  hd_error (flat_map (fun y => if c y then [x] else []) ys ++ rest)
  = if existsb c ys then Some x else hd_error rest.
Proof.
  induction ys as [|y ys IH]; simpl; [reflexivity|].
  destruct (c y); simpl; [reflexivity | exact IH].
Qed.

Lemma hd_error_join {A B} (cond : A -> B -> bool) (xs : list A) (ys : list B) :
  hd_error (flat_map (fun x => flat_map (fun y => if cond x y then [x] else []) ys) xs)
  = first (fun x => existsb (cond x) ys) xs.
Proof.
  unfold first. induction xs as [|x xs IH]; simpl; [reflexivity|].
  now rewrite hd_error_join_row, IH.
Qed.


(** Writing liveness or the active child on toy rows does not change
    which toy the join resolves, only what the row holds. *)
Lemma joined_toy_update
    (st : Store) (toy_uuid parent_id : UUID) (p : Toy.t -> bool) (f : Toy.t -> Toy.t) :
  (forall t, Toy.id (f t) = Toy.id t) ->
  (forall t, Toy.toy_uuid (f t) = Toy.toy_uuid t) ->
  hd_error (toys_paired_with_parent toy_uuid parent_id
              (with_toys (update_where p f) st))
  = option_map (fun t => if p t then f t else t)
               (hd_error (toys_paired_with_parent toy_uuid parent_id st)).
Proof.
  intros Hid Hu. rewrite !toys_paired_with_parent_first. cbn [toys with_toys].
  apply first_update_where. intros t. unfold paired_with_parent.
  cbn [children with_toys]. now rewrite Hid, Hu.
Qed.


(** X10: pairing, then choosing the active child.  Pairing a child the
    parent owns with a toy it is not yet linked to answers "paired",
    links the child to the toy, marks the toy active, stores as its
    [last_seen] what the column makes of [datetime.utcnow()] (the UTC
    reading of the clock taken for local time of the host), and changes
    no toy's active child; right after it the same parent can make that
    child the active speaker of that toy. *)
Theorem pair_then_set_active_child
    (st : Store) (toy_uuid child_id : UUID) (parent : Parent.t) (now : Z)
    (child : Child.t) (toy : Toy.t) :
  owned_child child_id (Parent.id parent) st = Some child ->
  toy_by_uuid toy_uuid st = Some toy ->
  Child.toy_id child <> Some (Toy.id toy) ->
  exists st1,
    run_request (pair_toy toy_uuid child_id parent now) st = (Ok "paired", st1)
    /\ owned_child child_id (Parent.id parent) st1
       = Some (Child.set_toy_id (Some (Toy.id toy)) child)
    /\ toy_by_uuid toy_uuid st1
       = Some (Toy.set_liveness true (Some (timestamptz (datetime_utcnow now))) toy)
    /\ map Toy.active_child_id (toys st1) = map Toy.active_child_id (toys st)
    /\ exists st2,
         run_request (set_active_child toy_uuid child_id parent) st1
         = (Ok (mk_active_child_set "active_child_set" toy_uuid child_id), st2).
Proof.
  intros Hchild Htoy Hlink.
  assert (Hnl : nullable_is (Child.toy_id child) (Toy.id toy) = false).
  { apply not_true_is_false. intros E. now apply nullable_is_eq in E. }
  pose proof (first_some_in _ _ Hchild) as [Hcin Hc].
  apply andb_true_iff in Hc. destruct Hc as [Hcid Hcp].
  pose proof (first_some_in _ _ Htoy) as [Htin Htu].
  set (st1 := with_toys
                (update_where (fun t => uuid_eqb (Toy.id t) (Toy.id toy))
                   (Toy.set_liveness true (Some (timestamptz (datetime_utcnow now)))))
                (with_children
                   (update_where (fun c => uuid_eqb (Child.id c) (Child.id child))
                      (Child.set_toy_id (Some (Toy.id toy))))
                   st)).
  assert (Hchild1 : owned_child child_id (Parent.id parent) st1
                    = Some (Child.set_toy_id (Some (Toy.id toy)) child)).
  { unfold owned_child, st1 in *. cbn [children with_toys with_children].
    rewrite first_update_where by reflexivity. rewrite Hchild. cbn [option_map].
    now rewrite uuid_eqb_refl. }
  assert (Htoy1 : toy_by_uuid toy_uuid st1
                  = Some (Toy.set_liveness true (Some (timestamptz (datetime_utcnow now))) toy)).
  { unfold toy_by_uuid, st1 in *. cbn [toys with_toys with_children].
    rewrite first_update_where by reflexivity. rewrite Htoy. cbn [option_map].
    now rewrite uuid_eqb_refl. }
  exists st1. split.
  { unfold pair_toy. run_monad. rewrite Hchild. run_monad. rewrite Htoy. run_monad.
    rewrite Hnl. reflexivity. }
  split; [exact Hchild1|]. split; [exact Htoy1|]. split.
  { unfold st1. cbn [toys with_toys with_children]. now apply map_update_where. }
  unfold set_active_child. run_monad. rewrite Hchild1. run_monad.
  rewrite toys_paired_with_parent_first.
  pose proof (first_some_in _ _ Htoy1) as [Htin1 Htu1].
  pose proof (first_some_in _ _ Hchild1) as [Hcin1 _].
  destruct (first_found
              (fun t => uuid_eqb (Toy.toy_uuid t) toy_uuid
                        && paired_with_parent (Parent.id parent) st1 t)
              (toys st1) _ Htin1) as [t Ht].
  { rewrite Htu1. cbn [andb]. unfold paired_with_parent.
    apply existsb_exists. exists (Child.set_toy_id (Some (Toy.id toy)) child).
    split; [exact Hcin1|]. cbn [Child.toy_id Child.parent_id Child.set_toy_id
                                 Toy.id Toy.set_liveness nullable_is].
    now rewrite uuid_eqb_refl, Hcp. }
  rewrite Ht. run_monad. eexists. reflexivity.
Qed.

(** X11: the active child, written and read back.  After a successful
    [set_active_child], [get_active_child] for the same toy and parent
    returns the child that was set. *)
Theorem active_child_round_trip
    (st st' : Store) (toy_uuid child_id : UUID) (parent : Parent.t)
    (reply : ActiveChildSet) :
  run_request (set_active_child toy_uuid child_id parent) st = (Ok reply, st') ->
  exists name,
    run_request (get_active_child toy_uuid parent) st'
    = (Ok (mk_active_child toy_uuid child_id name), st').
Proof.
  unfold set_active_child. intros H. run_monad in H.
  destruct (owned_child child_id (Parent.id parent) st) as [child|] eqn:Hchild;
    run_monad in H; [|discriminate].
  destruct (hd_error _) as [toy|] eqn:Htoy; run_monad in H; [|discriminate].
  injection H as _ <-.
  pose proof (first_some_in _ _ Hchild) as [Hcin Hc].
  apply andb_true_iff in Hc. destruct Hc as [Hcid _]. apply uuid_eqb_eq in Hcid.
  destruct (first_found (fun c => uuid_eqb (Child.id c) (Child.id child)) _ child Hcin
                        (uuid_eqb_refl _)) as [c0 Hc0].
  pose proof (first_some_in _ _ Hc0) as [_ Hc0id]. apply uuid_eqb_eq in Hc0id.
  exists (Child.child_name c0).
  unfold get_active_child. run_monad.
  rewrite joined_toy_update by reflexivity. rewrite Htoy. cbn [option_map].
  rewrite uuid_eqb_refl. run_monad.
  cbn [Toy.active_child_id Toy.set_active_child_id]. run_monad.
  cbn [children with_toys]. rewrite Hc0. run_monad. now rewrite Hc0id, Hcid.
Qed.

(** X12: a toy is invisible to a parent none of whose children is paired
    with it.  For such a parent the status and the active child of the
    toy are both 404, and an attempt to set its active child fails with
    403 or 404; none of these writes. *)
Theorem toy_hidden_from_unpaired_parent
    (st : Store) (toy_uuid : UUID) (parent : Parent.t) :
  (forall t, In t (toys st) -> Toy.toy_uuid t = toy_uuid ->
             paired_with_parent (Parent.id parent) st t = false) ->
  (forall now,
      run_request (get_toy_status toy_uuid parent now) st
      = (Raise (HTTPException 404 "Toy not found"), st))
  /\ run_request (get_active_child toy_uuid parent) st
     = (Raise (HTTPException 404 "No active child set"), st)
  /\ (forall child_id,
        run_request (set_active_child toy_uuid child_id parent) st
        = (Raise (HTTPException 403 "Child not owned by parent"), st)
        \/ run_request (set_active_child toy_uuid child_id parent) st
           = (Raise (HTTPException 404 "Toy not found or unauthorized"), st)).
Proof.
  intros Hhidden.
  assert (Hnone : hd_error (toys_paired_with_parent toy_uuid (Parent.id parent) st) = None).
  { rewrite toys_paired_with_parent_first. apply first_none. intros t Hin.
    destruct (uuid_eqb (Toy.toy_uuid t) toy_uuid) eqn:E; [|reflexivity].
    apply uuid_eqb_eq in E. cbn [andb]. now apply Hhidden. }
  repeat split.
  - intros now. unfold get_toy_status. run_monad. now rewrite Hnone.
  - unfold get_active_child. run_monad. now rewrite Hnone.
  - intros child_id. unfold set_active_child. run_monad.
    destruct (owned_child child_id (Parent.id parent) st); run_monad; [right|now left].
    now rewrite Hnone.
Qed.

(** X13: a child is invisible to a parent who does not own it, whether
    or not a child with that id exists.  Pairing it and making it the
    active child fail with 403, reading its analytics fails with 404, and
    nothing is written. *)
Theorem child_hidden_from_other_parent
    (st : Store) (child_id : UUID) (parent : Parent.t) :
  (forall c, In c (children st) -> Child.id c = child_id ->
             Child.parent_id c <> Parent.id parent) ->
  (forall toy_uuid now,
      run_request (pair_toy toy_uuid child_id parent now) st
      = (Raise (HTTPException 403 "Child not owned by parent"), st))
  /\ (forall toy_uuid,
        run_request (set_active_child toy_uuid child_id parent) st
        = (Raise (HTTPException 403 "Child not owned by parent"), st))
  /\ run_request (get_child_analytics child_id parent) st
     = (Raise (HTTPException 404 "Analytics not initialized for this child"), st).
Proof.
  intros Hother.
  assert (Hnone : owned_child child_id (Parent.id parent) st = None).
  { apply first_none. intros c Hin.
    destruct (uuid_eqb (Child.id c) child_id) eqn:E; [|reflexivity].
    apply uuid_eqb_eq in E. cbn [andb]. apply uuid_eqb_neq. now apply Hother. }
  repeat split.
  - intros toy_uuid now. unfold pair_toy. run_monad. now rewrite Hnone.
  - intros toy_uuid. unfold set_active_child. run_monad. now rewrite Hnone.
  - unfold get_child_analytics, analytics_joined. run_monad.
    rewrite hd_error_join.
    replace (first _ (child_analytics st)) with (@None ChildAnalytics.t); [reflexivity|].
    symmetry. apply first_none. intros a _. apply not_true_is_false.
    rewrite existsb_exists. intros (c & Hin & Hc).
    apply andb_true_iff in Hc. destruct Hc as [Hc Hp].
    apply andb_true_iff in Hc. destruct Hc as [_ Hid].
    apply uuid_eqb_eq in Hid, Hp. now apply (Hother c Hin Hid).
Qed.

(** X14: a child just created can be read back.  When [create_child]
    succeeds (for a parent below the limit, a name and an age that their
    columns accept and fresh identifiers it does), the owner's analytics
    query for the new child returns its one analytics row, with both
    question counters at zero and no active date; the same query by a
    parent with another id is a 404. *)
Theorem new_child_analytics
    (st : Store) (child_name : string) (age : Z) (parent : Parent.t)
    (child_id analytics_id : UUID) (stored_name : string) :
  count_children (Parent.id parent) st <= 2 ->
  In (Parent.id parent) (map Parent.id (parents st)) ->
  fresh_child_ids child_id analytics_id st ->
  varchar 100 child_name = Some stored_name ->
  fits_integer age = true ->
  exists child st',
    run_request (create_child child_name age parent child_id analytics_id) st
    = (Ok child, st')
    /\ Child.id child = child_id
    /\ Child.toy_id child = None
    /\ run_request (get_child_analytics child_id parent) st'
       = (Ok (ChildAnalytics.mk analytics_id child_id 0 0 None), st')
    /\ (forall other,
          Parent.id other <> Parent.id parent ->
          run_request (get_child_analytics child_id other) st'
          = (Raise (HTTPException 404 "Analytics not initialized for this child"), st')).
Proof.
  intros Hcount Hparent Hfresh Hname Hage.
  pose proof (@create_child_runs st child_name age parent child_id analytics_id
                stored_name Hcount Hparent Hfresh Hname Hage) as Hrun.
  cbn zeta in Hrun. destruct Hfresh as (Hc & Hac & Ha).
  set (child := Child.mk child_id (Parent.id parent) None stored_name age) in *.
  set (st' := with_child_analytics _ _) in *.
  exists child, st'. unfold run_request at 1. rewrite Hrun. cbn [committed].
  split; [reflexivity|]. split; [reflexivity|]. split; [reflexivity|].
  assert (Hjoin : forall pid,
            hd_error (analytics_joined child_id pid st')
            = if uuid_eqb (Parent.id parent) pid
              then Some (ChildAnalytics.new analytics_id child_id) else None).
  { intros pid. unfold analytics_joined. rewrite hd_error_join.
    unfold st'. cbn [child_analytics children with_child_analytics with_children].
    rewrite first_app_none.
    - cbn [first find ChildAnalytics.new ChildAnalytics.child_id].
      rewrite existsb_app. cbn [existsb Child.id Child.parent_id child].
      rewrite !uuid_eqb_refl. cbn [andb]. rewrite orb_false_r.
      replace (existsb _ (children st)) with false; [reflexivity|].
      symmetry. apply not_true_is_false. rewrite existsb_exists.
      intros (c & Hin & Hcond). apply andb_true_iff in Hcond. destruct Hcond as [Hcond _].
      apply andb_true_iff in Hcond. destruct Hcond as [Hid _]. apply uuid_eqb_eq in Hid.
      apply Hc. rewrite Hid. now apply in_map.
    - apply first_none. intros a Hin. apply not_true_is_false.
      rewrite existsb_exists. intros (c & _ & Hcond).
      apply andb_true_iff in Hcond. destruct Hcond as [Hcond _].
      apply andb_true_iff in Hcond. destruct Hcond as [Hjoin Hid].
      apply uuid_eqb_eq in Hjoin, Hid. apply Hac. rewrite <- Hid, <- Hjoin.
      now apply in_map. }
  split.
  - unfold get_child_analytics. run_monad. rewrite Hjoin, uuid_eqb_refl. reflexivity.
  - intros other Hne. unfold get_child_analytics. run_monad. rewrite Hjoin.
    assert (E : uuid_eqb (Parent.id parent) (Parent.id other) = false)
      by (apply uuid_eqb_neq; congruence).
    now rewrite E.
Qed.

(* ------------------------------------------------------------------ *)
(** ** Asking: what else is touched, and where the next question goes *)



Lemma filter_update_where_out {A} (p q : A -> bool) (f : A -> A) (rows : list A) :
  (forall r, In r rows -> q r = true -> p r = false /\ p (f r) = false) ->
  filter p (update_where q f rows) = filter p rows.
Proof.
  induction rows as [|a rows IH]; intros H; simpl; [reflexivity|].
  rewrite IH by (intros r Hr; apply H; now right).
  destruct (q a) eqn:Hq; [|reflexivity].
  destruct (H a (or_introl eq_refl) Hq) as [H1 H2]. now rewrite H1, H2.
Qed.




(** What a successful [toy_ask] has found and written. *)
Lemma toy_ask_ok
    (st st' : Store) (question : string) (toy_uuid : UUID) (api_key : APIKey.t) (now : Z)
    (conversation_id user_msg_id assistant_msg_id : UUID) (reply : ToyAskResponse) :
  run_request (toy_ask question toy_uuid api_key now
                       conversation_id user_msg_id assistant_msg_id) st
  = (Ok reply, st') ->
  exists toy child conv st0,
    toy_by_uuid toy_uuid st = Some toy
    /\ Toy.is_active toy = true
    /\ Toy.active_child_id toy = Some (Child.id child)
    /\ In child (children st)
    /\ (st0 = st
        \/ st0 = with_conversations
                   (fun l => l ++ [Conversation.mk conversation_id (Child.id child) now])
                   st)
    /\ fits_text question = true
    /\ reply = mk_toy_ask_response (Conversation.id conv)
                                   (String.append "Answer to: " question)
    /\ match analytics_of (Child.id child) st with
       | Some a =>
           fits_integer (ChildAnalytics.total_questions a + 1) = true
           /\ fits_integer (ChildAnalytics.weekly_questions a + 1) = true
           /\ st' = asked question now conv user_msg_id assistant_msg_id a st0
       | None =>
           st' = with_messages
                   (fun l =>
                      (l ++ [Message.mk user_msg_id (Conversation.id conv) user question])
                      ++ [Message.mk assistant_msg_id (Conversation.id conv) assistant
                                     (String.append "Answer to: " question)])
                   (with_conversations
                      (update_where
                         (fun c => uuid_eqb (Conversation.id c) (Conversation.id conv))
                         (Conversation.set_last_activity
                            (instant (timestamptz (datetime_utcnow now)))))
                      st0)
       end.
Proof.
  unfold toy_ask. intros H. run_monad in H.
  destruct (toy_by_uuid toy_uuid st) as [toy|] eqn:Ht; run_monad in H; [|discriminate].
  destruct (Toy.is_active toy) eqn:Hact; cbn [negb] in H; run_monad in H; [|discriminate].
  destruct (Toy.active_child_id toy) as [active|] eqn:Hset; run_monad in H; [|discriminate].
  destruct (first _ (children st)) as [child|] eqn:Hchild; run_monad in H; [|discriminate].
  pose proof (first_some_in _ _ Hchild) as [Hin Hid]. apply uuid_eqb_eq in Hid.
  fold (conversation_of (Child.id child) st) in H.
  assert (Htail : forall conv (st0 : Store),
    child_analytics st0 = child_analytics st ->
    (let (r, s) :=
       bind (emit (with_conversations
                     (update_where
                        (fun c => uuid_eqb (Conversation.id c) (Conversation.id conv))
                        (Conversation.set_last_activity
                           (instant (timestamptz (datetime_utcnow now)))))))
         (fun _ =>
          bind (add_message (Message.mk user_msg_id (Conversation.id conv) user question))
            (fun _ =>
             bind (add_message (Message.mk assistant_msg_id (Conversation.id conv) assistant
                                           (String.append "Answer to: " question)))
               (fun _ =>
                bind (execute (fun st1 =>
                        first (fun a0 => uuid_eqb (ChildAnalytics.child_id a0) (Child.id child))
                              (child_analytics st1)))
                  (fun analytics =>
                   bind (match analytics with
                         | Some a0 =>
                             emit_checked
                               (fits_integer (ChildAnalytics.total_questions a0 + 1)
                                && fits_integer (ChildAnalytics.weekly_questions a0 + 1))
                               (with_child_analytics
                                  (update_where
                                     (fun r => uuid_eqb (ChildAnalytics.id r)
                                                        (ChildAnalytics.id a0))
                                     (fun r => ChildAnalytics.mk
                                                 (ChildAnalytics.id r)
                                                 (ChildAnalytics.child_id r)
                                                 (ChildAnalytics.total_questions a0 + 1)
                                                 (ChildAnalytics.weekly_questions a0 + 1)
                                                 (Some (date_of now)))))
                         | None => ret tt
                         end)
                     (fun _ =>
                      bind db_commit
                        (fun _ =>
                         ret (mk_toy_ask_response (Conversation.id conv)
                                (String.append "Answer to: " question))))))))
         (mk_session st st0) in (r, committed s))
    = (Ok reply, st') ->
    fits_text question = true
    /\ reply = mk_toy_ask_response (Conversation.id conv)
                                   (String.append "Answer to: " question)
    /\ match analytics_of (Child.id child) st with
       | Some a =>
           fits_integer (ChildAnalytics.total_questions a + 1) = true
           /\ fits_integer (ChildAnalytics.weekly_questions a + 1) = true
           /\ st' = asked question now conv user_msg_id assistant_msg_id a st0
       | None =>
           st' = with_messages
                   (fun l =>
                      (l ++ [Message.mk user_msg_id (Conversation.id conv) user question])
                      ++ [Message.mk assistant_msg_id (Conversation.id conv) assistant
                                     (String.append "Answer to: " question)])
                   (with_conversations
                      (update_where
                         (fun c => uuid_eqb (Conversation.id c) (Conversation.id conv))
                         (Conversation.set_last_activity
                            (instant (timestamptz (datetime_utcnow now)))))
                      st0)
       end).
  { intros conv st0 Han K. unfold add_message, message_row in K.
    cbn [Message.content] in K.
    destruct (fits_text question) eqn:Hq; run_monad in K; [|discriminate].
    rewrite (fits_text_answer _ Hq) in K. run_monad in K.
    destruct (message_insertable _ _); run_monad in K; [|discriminate].
    destruct (message_insertable _ _); run_monad in K; [|discriminate].
    cbn [child_analytics with_messages with_conversations] in K.
    rewrite Han in K. fold (analytics_of (Child.id child) st) in K.
    split; [reflexivity|].
    destruct (analytics_of (Child.id child) st) as [a|]; run_monad in K.
    - destruct (fits_integer (ChildAnalytics.total_questions a + 1)) eqn:Ht1;
        cbn [andb] in K; [|discriminate].
      destruct (fits_integer (ChildAnalytics.weekly_questions a + 1)) eqn:Ht2;
        run_monad in K; [|discriminate].
      injection K as <- <-. repeat split.
    - injection K as <- <-. repeat split. }
  destruct (conversation_of (Child.id child) st) as [c|] eqn:Hfound; run_monad in H.
  - destruct (Htail c st eq_refl H) as (Hq & Hreply & Hst').
    exists toy, child, c, st. subst active. repeat split; try assumption. now left.
  - unfold add_conversation in H. run_monad in H.
    destruct (conversation_insertable _ st); run_monad in H; [|discriminate].
    destruct (Htail (Conversation.mk conversation_id (Child.id child) now)
                    (with_conversations
                       (fun l => l ++ [Conversation.mk conversation_id (Child.id child)
                                                       now]) st)
                    eq_refl H) as (Hq & Hreply & Hst').
    exists toy, child, (Conversation.mk conversation_id (Child.id child) now).
    eexists. subst active. repeat split; try eassumption. now right.
Qed.

(** X15: a successful [toy_ask] writes to the conversation it returns, to
    the messages and to the analytics of the active child, and to nothing
    else: parents, toys, children, API keys and refresh tokens are as
    they were, the analytics rows of every child but the active one are
    unchanged, and so is the number of messages of every other
    conversation.  The primary key of [child_analytics] is unique. *)
Theorem toy_ask_frame
    (st st' : Store) (question : string) (toy_uuid : UUID) (api_key : APIKey.t) (now : Z)
    (conversation_id user_msg_id assistant_msg_id : UUID) (reply : ToyAskResponse) :
  NoDup (map ChildAnalytics.id (child_analytics st)) ->
  run_request (toy_ask question toy_uuid api_key now
                       conversation_id user_msg_id assistant_msg_id) st
  = (Ok reply, st') ->
  exists toy active,
    toy_by_uuid toy_uuid st = Some toy
    /\ Toy.active_child_id toy = Some active
    /\ parents st' = parents st
    /\ toys st' = toys st
    /\ children st' = children st
    /\ api_keys st' = api_keys st
    /\ refresh_tokens st' = refresh_tokens st
    /\ (forall other, other <> active ->
                      analytics_rows_of other st' = analytics_rows_of other st)
    /\ (forall other role, other <> resp_conversation_id reply ->
                           count_messages other role st' = count_messages other role st).
Proof.
  intros Hpk Hrun. apply toy_ask_ok in Hrun.
  destruct Hrun as (toy & child & conv & st0 & Ht & _ & Hset & _ & Hst0 & _ & -> & Hst').
  exists toy, (Child.id child). split; [exact Ht|]. split; [exact Hset|].
  assert (Hsame : parents st0 = parents st
                  /\ toys st0 = toys st
                  /\ children st0 = children st
                  /\ api_keys st0 = api_keys st
                  /\ refresh_tokens st0 = refresh_tokens st
                  /\ child_analytics st0 = child_analytics st
                  /\ messages st0 = messages st)
    by (destruct Hst0 as [-> | ->]; repeat split).
  destruct Hsame as (H1 & H2 & H3 & H4 & H5 & H6 & H7).
  assert (Hmsgs : forall (f : Store -> Store) other role,
            (forall s, messages (f s) = messages s) ->
            other <> Conversation.id conv ->
            count_messages other role
              (f (with_messages
                    (fun l =>
                       (l ++ [Message.mk user_msg_id (Conversation.id conv) user question])
                       ++ [Message.mk assistant_msg_id (Conversation.id conv) assistant
                                      (String.append "Answer to: " question)])
                    (with_conversations
                       (update_where
                          (fun c => uuid_eqb (Conversation.id c) (Conversation.id conv))
                          (Conversation.set_last_activity
                             (instant (timestamptz (datetime_utcnow now)))))
                       st0)))
            = count_messages other role st).
  { intros f other role Hf Hother. unfold count_messages. rewrite Hf.
    cbn [messages with_messages with_conversations].
    rewrite H7, !count_role_app. unfold count_role at 2 3.
    cbn [filter Message.conversation_id].
    assert (E : uuid_eqb (Conversation.id conv) other = false)
      by (apply uuid_eqb_neq; congruence).
    rewrite E. cbn [andb List.length]. lia. }
  cbn [resp_conversation_id].
  destruct (analytics_of (Child.id child) st) as [a|] eqn:Ha.
  - destruct Hst' as (_ & _ & ->). unfold asked.
    cbn [parents toys children api_keys refresh_tokens
         with_child_analytics with_messages with_conversations].
    repeat split; try assumption.
    + intros other Hother. unfold analytics_rows_of.
      cbn [child_analytics with_child_analytics with_messages with_conversations].
      rewrite H6. apply filter_update_where_out.
      intros r Hr Hid. apply uuid_eqb_eq in Hid.
      unfold analytics_of in Ha. apply first_some_in in Ha. destruct Ha as [Hain Hac].
      apply uuid_eqb_eq in Hac.
      assert (r = a) by (apply (unique_column ChildAnalytics.id (child_analytics st));
                         assumption).
      subst r. cbn [ChildAnalytics.child_id]. rewrite Hac.
      split; apply uuid_eqb_neq; congruence.
    + intros other role Hother.
      now apply (Hmsgs (with_child_analytics _) other role).
  - rewrite Hst'.
    cbn [parents toys children api_keys refresh_tokens with_messages with_conversations].
    repeat split; try assumption.
    + intros other _. unfold analytics_rows_of.
      cbn [child_analytics with_messages with_conversations]. now rewrite H6.
    + intros other role Hother. now apply (Hmsgs (fun s => s) other role).
Qed.


(* ------------------------------------------------------------------ *)
(** ** Logout concerns one parent *)

(** X17: a logout leaves every other parent alone.  The rows of parents
    with another id and the refresh tokens they hold are still stored,
    the bearer guard answers a token issued for another parent exactly
    as before, and toys and children are untouched.  The primary key of
    [refresh_tokens] is unique. *)
Theorem logout_leaves_other_parents
    (st st' : Store) (credentials : AccessToken) (now : Z) (reply : string)
    (parent : Parent.t) :
  NoDup (map RefreshToken.id (refresh_tokens st)) ->
  run_request (get_current_parent credentials now) st = (Ok parent, st) ->
  run_request (POST_auth_logout credentials now) st = (Ok reply, st') ->
  (forall q, In q (parents st) -> Parent.id q <> Parent.id parent -> In q (parents st'))
  /\ (forall r, In r (refresh_tokens st) ->
                RefreshToken.parent_id r <> Parent.id parent ->
                In r (refresh_tokens st'))
  /\ (forall claims now',
        sub claims <> Some (Parent.id parent) ->
        fst (run_request (get_current_parent (Signed claims) now') st')
        = fst (run_request (get_current_parent (Signed claims) now') st))
  /\ toys st' = toys st
  /\ children st' = children st.
Proof.
  intros Hpk Hauth Hrun. unfold POST_auth_logout, run_request, bind in *.
  destruct (get_current_parent credentials now (mk_session st st)) as [[p|e] s] eqn:Hg;
    [|discriminate].
  pose proof Hg as Hok. apply get_current_parent_ok in Hok. destruct Hok as (-> & _ & _).
  cbn [committed] in Hauth. injection Hauth as ->.
  rewrite logout_runs in Hrun.
  destruct (fits_integer (Parent.token_version parent + 1)); [|discriminate].
  cbn [committed] in Hrun. injection Hrun as _ <-.
  cbn [parents refresh_tokens toys children with_refresh_tokens with_parents].
  split; [|split; [|split; [|split; reflexivity]]].
  - intros q Hq Hne. unfold update_where. apply in_map_iff. exists q.
    assert (E : uuid_eqb (Parent.id q) (Parent.id parent) = false)
      by now apply uuid_eqb_neq.
    now rewrite E.
  - intros r Hr Hne. apply in_delete_where. split; [exact Hr|].
    apply not_true_is_false. intros Hhas. apply has_id_true in Hhas.
    apply in_map_iff in Hhas. destruct Hhas as (r' & Hid & Hin').
    apply filter_In in Hin'. destruct Hin' as [Hin' Hp']. apply uuid_eqb_eq in Hp'.
    assert (r' = r) by (apply (unique_column RefreshToken.id (refresh_tokens st));
                        assumption).
    subst r'. contradiction.
  - intros claims now' Hsub. unfold get_current_parent, decode_access_token.
    run_monad.
    destruct (exp claims <? now' / 1000000); run_monad; [reflexivity|].
    destruct (sub claims) as [pid|]; run_monad; [|reflexivity].
    cbn [parents with_refresh_tokens with_parents].
    rewrite first_update_where by reflexivity.
    destruct (first _ (parents st)) as [q|] eqn:Hq; cbn [option_map]; [|reflexivity].
    pose proof (first_some_in _ _ Hq) as [_ Hqid]. apply uuid_eqb_eq in Hqid.
    assert (E : uuid_eqb (Parent.id q) (Parent.id parent) = false)
      by (apply uuid_eqb_neq; congruence).
    rewrite E.
    destruct (Parent.is_active q); cbn [negb]; run_monad; [|reflexivity].
    destruct (claim_token_version claims) as [v|]; run_monad; [|reflexivity].
    destruct (Parent.token_version q =? v); reflexivity.
Qed.

End Extras.

(* ================================================================== *)
(** * The handlers at work on the demonstration deployment *)

#[local] Existing Instance Demo.settings.
#[local] Existing Instance Demo.crypto.

Ltac distinct :=
  vm_compute;
  repeat (apply NoDup_cons; [simpl; intuition discriminate|]);
  apply NoDup_nil.

(** The demonstration store satisfies the constraints, and so does every
    store the API reaches from it. *)
Lemma demo_consistent : consistent Demo.st0.
Proof.
  repeat split; try distinct.
  - intros c [].
  - intros t c [<-|[<-|[]]]; discriminate.
Qed.

(** C1 as stated fails.  From a store on which every active child is
    paired with its toy, the parent (who owns both children, Ann paired
    with the toy and Bob not paired) makes Bob the active speaker of the
    toy; the request succeeds and the toy's [active_child_id] now
    references a child whose [toy_id] is not that toy. *)
Lemma active_child_not_paired :
  active_child_paired Demo.st_paired
  /\ children Demo.st_paired
     = [Child.mk 20 1 (Some 10%N) "Ann" 6; Child.mk 21 1 None "Bob" 4]
  /\ serve Demo.t0 (SetActiveChild Demo.alice_token 100 21) Demo.st_paired
     = (200, Demo.st_active)
  /\ children Demo.st_active = children Demo.st_paired
  /\ toys Demo.st_active
     = [Toy.set_active_child_id (Some 21%N) Demo.robot_paired; Demo.rover]
  /\ ~ active_child_paired Demo.st_active.
Proof.
  repeat split.
  - apply active_child_pairedb_spec. reflexivity.
  - intros H. apply active_child_pairedb_spec in H. discriminate H.
Qed.

(** The assignment theorem on that very run. *)
Lemma set_active_child_assigns_witness :
  exists toy,
    In toy (toys Demo.st_paired)
    /\ In (Toy.set_active_child_id (Some 21%N) toy) (toys Demo.st_active).
Proof.
  destruct (@set_active_child_assigns Demo.st_paired Demo.st_active 100 21 Demo.alice
              (mk_active_child_set "active_child_set" 100 21) eq_refl)
    as (child & toy & paired & _ & (Hin & _) & _ & Hnew).
  exists toy. split; assumption.
Defined.

(** Alice's refresh token is rotated once; presenting it again is refused. *)
Lemma refresh_single_use_witness :
  exists pair st',
    run_request (refresh "refresh-1" Demo.t0 "refresh-2" 41) Demo.st_logged_in
    = (Ok pair, st')
    /\ run_request (refresh "refresh-1" (Demo.t0 + 1) "refresh-3" 42) st'
       = (Raise (HTTPException 401 "Invalid refresh token"), st').
Proof.
  eexists. eexists. split; [reflexivity|].
  refine (proj2 (proj2 (@refresh_single_use _ _ Demo.st_logged_in _
                          "refresh-1" Demo.t0 "refresh-2" 41 _ _ _ eq_refl)) _ _ _).
  - unfold token_hash_unique. distinct.
  - vm_compute. discriminate.
Defined.

(** Alice logs out: the access token she logged out with and her refresh
    token are both refused afterwards. *)
Lemma logout_revokes_everything_witness :
  exists st',
    run_request (POST_auth_logout Demo.alice_token Demo.t0) Demo.st_logged_in
    = (Ok "logged_out", st')
    /\ (exists detail,
          run_request (get_current_parent Demo.alice_token (Demo.t0 + 1)) st'
          = (Raise (HTTPException 401 detail), st'))
    /\ run_request (refresh "refresh-1" (Demo.t0 + 1) "refresh-2" 41) st'
       = (Raise (HTTPException 401 "Invalid refresh token"), st').
Proof.
  eexists. split; [reflexivity|].
  assert (Huniq : token_hash_unique Demo.st_logged_in)
    by (unfold token_hash_unique; distinct).
  destruct (@logout_revokes_everything _ _ Demo.st_logged_in _ Demo.alice_token Demo.t0
              _ Huniq eq_refl)
    as (parent & Hparent & _ & _ & Hstale & _ & Hrefresh).
  vm_compute in Hparent. injection Hparent as <-.
  split.
  - apply Hstale; [reflexivity | vm_compute; discriminate].
  - eapply Hrefresh; [left; reflexivity | reflexivity | reflexivity].
Defined.

(** The factory key is accepted, the empty key counts as missing. *)
Lemma verify_api_key_outcomes_witness :
  fst (run_request (verify_api_key (Some "toy-key")) Demo.st0) = Ok Demo.machine_key
  /\ fst (run_request (verify_api_key (Some "")) Demo.st0)
     = Raise (HTTPException 401 "API key required").
Proof.
  split.
  - pose proof (verify_api_key_outcomes (Some "toy-key") Demo.st0) as H.
    cbn zeta in H. destruct H as (_ & _ & _ & H). apply H.
    exists "toy-key". repeat split. discriminate.
  - pose proof (verify_api_key_outcomes (Some "") Demo.st0) as H.
    cbn zeta in H. destruct H as (_ & H & _). apply H. now right.
Defined.

(** The two refusals that C4 wants told apart are one and the same
    exception: an unknown key and a revoked key both get 403 "Invalid or
    revoked API key". *)
Lemma invalid_and_revoked_key_same_error :
  first (fun row => String.eqb (APIKey.key row) (hash_api_key "no-such-key"))
        (api_keys Demo.st0) = None
  /\ first (fun row => String.eqb (APIKey.key row) (hash_api_key "old-key"))
           (api_keys Demo.st0) = Some Demo.revoked_key
  /\ APIKey.revoked Demo.revoked_key = true
  /\ run_request (verify_api_key (Some "no-such-key")) Demo.st0
     = (Raise (HTTPException 403 "Invalid or revoked API key"), Demo.st0)
  /\ run_request (verify_api_key (Some "old-key")) Demo.st0
     = (Raise (HTTPException 403 "Invalid or revoked API key"), Demo.st0).
Proof. repeat split. Qed.

(** C5 as stated fails.  Alice is authenticated and has two children, the
    identifiers drawn are fresh, and the third creation does not
    succeed: the age does not fit the INTEGER column, the [DataError] is
    not caught, and the answer is a 500.  Nothing is stored. *)
Lemma create_child_age_out_of_range :
  run_request (get_current_parent Demo.alice_token Demo.t0) Demo.st_paired
  = (Ok Demo.alice, Demo.st_paired)
  /\ count_children (Parent.id Demo.alice) Demo.st_paired = 2
  /\ fresh_child_ids 22 32 Demo.st_paired
  /\ run_request (POST_parent_children Demo.alice_token Demo.t0 "Cid" 2147483648 22 32)
                 Demo.st_paired
     = (Raise DataError, Demo.st_paired)
  /\ serve Demo.t0 (CreateChild Demo.alice_token "Cid" 2147483648 22 32) Demo.st_paired
     = (500, Demo.st_paired).
Proof.
  split; [reflexivity|]. split; [reflexivity|]. split; [|split; reflexivity].
  repeat split; vm_compute; intuition discriminate.
Qed.

(** The name column, on the same request: 101 letters are refused as the
    age was, while 100 letters followed by spaces are accepted and the
    spaces cut. *)
Example create_child_name_too_long :
  serve Demo.t0 (CreateChild Demo.alice_token (Demo.replicate 101 "a") 9 22 32)
        Demo.st_paired
  = (500, Demo.st_paired)
  /\ exists st',
       run_request (POST_parent_children Demo.alice_token Demo.t0
                      (String.append (Demo.replicate 100 "a") "   ") 9 22 32)
                   Demo.st_paired
       = (Ok (Child.mk 22 1 None (Demo.replicate 100 "a") 9), st').
Proof. split; [reflexivity|]. eexists. reflexivity. Qed.

(** The third child is created, the fourth is refused. *)
Lemma create_child_limit_witness :
  (exists child st',
      run_request (POST_parent_children Demo.alice_token Demo.t0 "Cid" 9 22 32)
                  Demo.st_paired = (Ok child, st')
      /\ count_children 1 st' = 3)
  /\ run_request (POST_parent_children Demo.alice_token Demo.t0 "Dan" 3 23 33)
                 Demo.st_full
     = (Raise (HTTPException 409 "Maximum 3 children allowed per parent"), Demo.st_full).
Proof.
  split.
  - assert (Hcount : count_children (Parent.id Demo.alice) Demo.st_paired <= 2)
      by (vm_compute; discriminate).
    assert (Hfresh : fresh_child_ids 22 32 Demo.st_paired)
      by (repeat split; vm_compute; intuition discriminate).
    destruct (proj2 (@create_child_limit Demo.st_paired Demo.alice_token Demo.t0
                       Demo.alice "Cid" 9 22 32 eq_refl)
                    Hcount Hfresh "Cid" eq_refl eq_refl)
      as (child & st' & Hrun & _ & _ & _ & _ & Hcount').
    exists child, st'. split; [exact Hrun | exact Hcount'].
  - apply (proj1 (@create_child_limit Demo.st_full Demo.alice_token Demo.t0
                    Demo.alice "Dan" 3 23 33 eq_refl)).
    vm_compute. discriminate.
Defined.

(** A conflict on the second INSERT: the analytics id is taken, the child
    row already written in the transaction is rolled back with it. *)
Example create_child_rolls_back :
  create_child "Cid" 9 Demo.alice 22 30 (mk_session Demo.st_paired Demo.st_paired)
  = (Raise (HTTPException 409 "Child creation conflict"),
     mk_session Demo.st_paired Demo.st_paired).
Proof. reflexivity. Qed.

(** C7 as stated fails on a registered toy that was never paired: no
    active child is set, the key is valid, and the answer is 401, not
    409. *)
Lemma toy_ask_unpaired_is_401 :
  toy_by_uuid 100 Demo.st0 = Some Demo.robot
  /\ Toy.active_child_id Demo.robot = None
  /\ run_request (verify_api_key (Some "toy-key")) Demo.st0 = (Ok Demo.machine_key, Demo.st0)
  /\ run_request (POST_toy_ask (Some "toy-key") 100 "why?" Demo.t0 70 71 72) Demo.st0
     = (Raise (HTTPException 401 "Invalid or inactive toy"), Demo.st0).
Proof. repeat split. Qed.

(** What the conditions of C7 as amended keep out.  With Bob's counters
    at 2147483647 the increment does not fit the INTEGER column: the
    answer is a 500 and nothing is stored, the two messages included.
    Without an analytics row the question is answered and stored, and no
    counter is kept. *)
Example toy_ask_counters_full :
  serve Demo.t0 (ToyAsk (Some "toy-key") 100 "why?" 70 71 72) Demo.st_counters_full
  = (500, Demo.st_counters_full).
Proof. reflexivity. Qed.

Example toy_ask_without_analytics :
  exists st',
    serve Demo.t0 (ToyAsk (Some "toy-key") 100 "why?" 70 71 72) Demo.st_no_analytics
    = (200, st')
    /\ List.length (messages st') = 2%nat
    /\ child_analytics st' = [].
Proof. eexists. repeat split. Qed.

(** The toy that was never paired answers 401, the paired toy without an
    active child 409; with Bob as the active child one question adds one
    to each counter and stores one message of each role. *)
Lemma toy_ask_postconditions_witness :
  run_request (toy_ask "why?" 100 Demo.machine_key Demo.t0 70 71 72) Demo.st0
  = (Raise (HTTPException 401 "Invalid or inactive toy"), Demo.st0)
  /\ run_request (toy_ask "why?" 100 Demo.machine_key Demo.t0 70 71 72) Demo.st_paired
     = (Raise (HTTPException 409 "No active child set on toy"), Demo.st_paired)
  /\ exists reply st' a',
       run_request (toy_ask "why?" 100 Demo.machine_key Demo.t0 70 71 72) Demo.st_active
       = (Ok reply, st')
       /\ analytics_of 21 st' = Some a'
       /\ ChildAnalytics.total_questions a' = 1
       /\ ChildAnalytics.weekly_questions a' = 1
       /\ count_messages (resp_conversation_id reply) user st' = 1%nat
       /\ count_messages (resp_conversation_id reply) assistant st' = 1%nat.
Proof.
  split; [|split].
  - apply (proj1 (@toy_ask_postconditions Demo.settings Demo.st0 "why?" 100
                    Demo.machine_key Demo.t0 70 71 72 Demo.robot eq_refl)).
    reflexivity.
  - apply (proj1 (proj2 (@toy_ask_postconditions Demo.settings Demo.st_paired "why?" 100
                           Demo.machine_key Demo.t0 70 71 72 Demo.robot_paired eq_refl)));
      reflexivity.
  - assert (Hfresh : fresh_ask_ids 21 70 71 72 Demo.st_active)
      by (repeat split; vm_compute; intuition discriminate).
    destruct (proj2 (proj2 (@toy_ask_postconditions Demo.settings Demo.st_active "why?" 100
                              Demo.machine_key Demo.t0 70 71 72
                              (Toy.set_active_child_id (Some 21%N) Demo.robot_paired)
                              eq_refl))
                21%N (Child.mk 21 1 None "Bob" 4) (ChildAnalytics.new 31 21)
                eq_refl eq_refl eq_refl eq_refl eq_refl eq_refl eq_refl Hfresh)
      as (reply & st' & a' & Hrun & Ha & Htotal & Hweekly & _ & Huser & Hassistant).
    exists reply, st', a'.
    assert (Hreply : resp_conversation_id reply = 70%N)
      by (vm_compute in Hrun; now injection Hrun as <- _).
    rewrite Hreply in *.
    repeat split; assumption.
Defined.

(** The paired toy, last seen at [Demo.t0], is online 119 seconds later and
    offline 121 seconds later. *)
Lemma get_toy_status_online_iff_witness :
  (exists reply,
      run_request (get_toy_status 100 Demo.alice (Demo.t0 + 119 * 1000000)) Demo.st_paired
      = (Ok reply, Demo.st_paired)
      /\ status_is_active reply = true)
  /\ (exists reply,
        run_request (get_toy_status 100 Demo.alice (Demo.t0 + 121 * 1000000)) Demo.st_paired
        = (Ok reply, Demo.st_paired)
        /\ status_is_active reply = false).
Proof.
  split.
  - destruct (@get_toy_status_online_iff Demo.st_paired 100 Demo.alice
                (Demo.t0 + 119 * 1000000) Demo.robot_paired
                (timestamptz (datetime_utcnow Demo.t0))
                eq_refl eq_refl)
      as (reply & Hrun & _ & Hon & _).
    exists reply. split; [exact Hrun | apply Hon; reflexivity].
  - destruct (@get_toy_status_online_iff Demo.st_paired 100 Demo.alice
                (Demo.t0 + 121 * 1000000) Demo.robot_paired
                (timestamptz (datetime_utcnow Demo.t0))
                eq_refl eq_refl)
      as (reply & Hrun & _ & _ & Hoff).
    exists reply. split; [exact Hrun | apply Hoff; reflexivity].
Defined.

(** Pairing Ann with the toy a second time changes nothing. *)
Lemma pair_toy_idempotent_witness :
  run_request (pair_toy 100 20 Demo.alice (Demo.t0 + 5)) Demo.st_paired
  = (Ok "already_paired", Demo.st_paired).
Proof.
  apply (@pair_toy_idempotent Demo.settings Demo.st_paired 100 20 Demo.alice (Demo.t0 + 5)
           (Child.mk 20 1 (Some 10%N) "Ann" 6) Demo.robot_paired);
    reflexivity.
Defined.

(** After a run of requests that never pairs the toy 100 nor carries its
    heartbeat (the other toy does send one), the factory key still cannot
    ask through it. *)
Lemma inactive_toy_cannot_ask_witness :
  let st' := serve_all Demo.quiet_trace Demo.st0 in
  run_request (POST_toy_ask (Some "toy-key") 100 "why?" Demo.t0 70 71 72) st'
  = (Raise (HTTPException 401 "Invalid or inactive toy"), st').
Proof.
  refine (proj2 (@inactive_toy_cannot_ask _ _ Demo.st0 100 Demo.robot Demo.quiet_trace
                   _ _ eq_refl eq_refl _)
                (Some "toy-key") Demo.machine_key "why?" Demo.t0 70%N 71%N 72%N eq_refl).
  - distinct.
  - distinct.
  - repeat constructor.
Defined.

(* ================================================================== *)
(** * Further runs: the second deployment *)

(** An ask whose two message ids collide ends in a 500 and stores
    nothing, not even the user's message. *)
Lemma failed_request_writes_nothing_witness :
  fst (serve Demo.t0 (ToyAsk (Some "toy-key") 100 "why?" 70 71 71) Demo.st_active) = 500
  /\ snd (serve Demo.t0 (ToyAsk (Some "toy-key") 100 "why?" 70 71 71) Demo.st_active)
     = Demo.st_active.
Proof.
  split; [reflexivity|].
  apply failed_request_writes_nothing; [reflexivity | vm_compute; discriminate].
Defined.

(** Mallory signs up; her email cannot be registered a second time. *)
Lemma signup_registers_once_witness :
  exists st',
    run_request (signup "Mallory" "mallory@example.org" "hunter2hunter2" "salt" 2) Demo.st0
    = (Ok (2%N, "mallory@example.org"), st')
    /\ parents st' = [Demo.alice; Scenario.mallory]
    /\ exists detail,
         run_request (signup "Eve" "mallory@example.org" "another-password" "pepper" 9) st'
         = (Raise (HTTPException 400 detail), st').
Proof.
  eexists. split; [reflexivity|]. split; [reflexivity|].
  destruct (@signup_registers_once Demo.crypto Demo.st0 _ "Mallory" "mallory@example.org"
              "hunter2hunter2" "salt" 2 _ eq_refl) as (_ & _ & _ & _ & _ & H).
  apply H.
Defined.

(** Alice's token, made at time 0 for 15 minutes, is good during the
    900th second and refused from the 901st on. *)
Lemma access_token_round_trip_witness :
  run_request (get_current_parent Demo.alice_token (900 * 1000000 + 999999)) Demo.st0
  = (Ok Demo.alice, Demo.st0)
  /\ run_request (get_current_parent Demo.alice_token (901 * 1000000)) Demo.st0
     = (Raise (HTTPException 401 "Access token expired"), Demo.st0).
Proof.
  split.
  - exact (@access_token_round_trip Demo.settings Demo.st0 Demo.alice 0 (900 * 1000000 + 999999)
             eq_refl eq_refl).
  - exact (@access_token_round_trip Demo.settings Demo.st0 Demo.alice 0 (901 * 1000000)
             eq_refl eq_refl).
Defined.


(** A User-Agent header of 256 characters does not fit its column: the
    login of a parent with the right password ends in a 500. *)
Example login_user_agent_too_long :
  serve Demo.t0 (Login "alice@example.org" "correct horse"
                       (Some (Demo.replicate 256 "a")) "refresh-1" 40) Demo.st0
  = (500, Demo.st0).
Proof. reflexivity. Qed.


(** Alice, logged in with "refresh-1", trades it for "refresh-2". *)
Lemma login_then_refresh_witness :
  exists pair' st2,
    run_request (refresh "refresh-1" (Demo.t0 + 1) "refresh-2" 41) Demo.st_logged_in
    = (Ok pair', st2)
    /\ refresh_token pair' = "refresh-2"
    /\ map RefreshToken.id (refresh_tokens st2) = [41%N].
Proof.
  destruct (@login_then_refresh Demo.settings Demo.crypto Demo.st0 Demo.st_logged_in
              "alice@example.org" "correct horse" None Demo.t0 "refresh-1" 40
              (mk_token_pair (create_access_token Demo.alice Demo.t0) "refresh-1" "bearer" 900)
              (Demo.t0 + 1)
              "refresh-2" 41)
    as (pair' & st2 & parent_id & Hrun & Hraw & Hrows).
  - distinct.
  - reflexivity.
  - vm_compute. discriminate.
  - intros [].
  - intros [].
  - exists pair', st2. split; [exact Hrun|]. split; [exact Hraw|].
    rewrite Hrows. reflexivity.
Defined.

(** Alice's refresh token, presented a microsecond after its thirty days:
    refused, deleted, and unknown from then on. *)
Lemma refresh_refusals_witness :
  let late := 2592001000001 in
  exists st',
    run_request (refresh "alice-refresh" late "new" 42) Scenario.st_sessions
    = (Raise (HTTPException 401 "Refresh token expired"), st')
    /\ map RefreshToken.id (refresh_tokens st') = [41%N]
    /\ run_request (refresh "alice-refresh" late "new" 42) st'
       = (Raise (HTTPException 401 "Invalid refresh token"), st').
Proof.
  intros late.
  pose proof (@refresh_refusals Demo.settings Demo.crypto Scenario.st_sessions "alice-refresh" late "new" 42
                (RefreshToken.mk 40 1 (hash_refresh_token "alice-refresh") None
                                 2592001000000) eq_refl) as H.
  cbn zeta in H. destruct H as [H _].
  destruct (H eq_refl) as (Hrun & _ & Hagain).
  eexists. split; [exact Hrun|]. split; [reflexivity|].
  apply Hagain. unfold token_hash_unique. distinct.
Defined.

(** Mallory, an active parent, may not create an API key; Root may, and
    the key she is shown is accepted by the toy routes. *)
Lemma api_key_round_trip_witness :
  run_request (POST_auth_apikey_create Scenario.mallory_token Demo.t0 "lab" "fresh-key" 52)
              Scenario.st
  = (Raise (HTTPException 403 "Admin only"), Scenario.st)
  /\ exists st',
       run_request (POST_auth_apikey_create Scenario.root_token Demo.t0 "lab" "fresh-key" 52)
                   Scenario.st
       = (Ok ("fresh-key", "lab"), st')
       /\ run_request (verify_api_key (Some "fresh-key")) st'
          = (Ok (APIKey.mk 52 (hash_api_key "fresh-key") "lab" false), st').
Proof.
  split.
  - pose proof (@api_key_round_trip Demo.settings Demo.crypto Scenario.st Scenario.mallory_token Demo.t0
                  Scenario.mallory "lab" "fresh-key" 52 eq_refl) as H.
    cbn zeta in H. apply (proj1 H). discriminate.
  - pose proof (@api_key_round_trip Demo.settings Demo.crypto Scenario.st Scenario.root_token Demo.t0
                  Scenario.root "lab" "fresh-key" 52 eq_refl) as H.
    cbn zeta in H. eexists. split; [reflexivity|].
    refine (proj2 (proj2 (proj2 (proj2 H _ _ eq_refl _)))). discriminate.
Defined.


(** Alice pairs Bob with the second toy and makes him its speaker. *)
Lemma pair_then_set_active_child_witness :
  exists st1 st2,
    run_request (pair_toy 101 21 Demo.alice Demo.t0) Demo.st_paired = (Ok "paired", st1)
    /\ run_request (set_active_child 101 21 Demo.alice) st1
       = (Ok (mk_active_child_set "active_child_set" 101 21), st2).
Proof.
  destruct (@pair_then_set_active_child Demo.settings Demo.st_paired 101 21 Demo.alice Demo.t0
              (Child.mk 21 1 None "Bob" 4) Demo.rover eq_refl eq_refl)
    as (st1 & Hpair & _ & _ & _ & st2 & Hset).
  - discriminate.
  - exists st1, st2. split; assumption.
Defined.

(** Bob, made the active child of the toy, is the child reported for it. *)
Lemma active_child_round_trip_witness :
  exists name,
    run_request (get_active_child 100 Demo.alice) Demo.st_active
    = (Ok (mk_active_child 100 21 name), Demo.st_active).
Proof.
  exact (@active_child_round_trip Demo.st_paired Demo.st_active 100 21 Demo.alice
           (mk_active_child_set "active_child_set" 100 21) eq_refl).
Defined.

(** Mallory has no child paired with Alice's toy and cannot see it. *)
Lemma toy_hidden_from_unpaired_parent_witness :
  run_request (get_toy_status 100 Scenario.mallory Demo.t0) Scenario.st
  = (Raise (HTTPException 404 "Toy not found"), Scenario.st)
  /\ run_request (get_active_child 100 Scenario.mallory) Scenario.st
     = (Raise (HTTPException 404 "No active child set"), Scenario.st).
Proof.
  assert (H : forall t, In t (toys Scenario.st) -> Toy.toy_uuid t = 100%N ->
                        paired_with_parent (Parent.id Scenario.mallory) Scenario.st t
                        = false).
  { intros t Hin _. vm_compute in Hin. destruct Hin as [<-|[<-|[]]]; reflexivity. }
  destruct (@toy_hidden_from_unpaired_parent Scenario.st 100 Scenario.mallory H)
    as (Hstatus & Hactive & _).
  split; [apply Hstatus | exact Hactive].
Defined.

(** Ann is Alice's child: Mallory can neither pair her nor read her
    analytics. *)
Lemma child_hidden_from_other_parent_witness :
  run_request (pair_toy 101 20 Scenario.mallory Demo.t0) Scenario.st
  = (Raise (HTTPException 403 "Child not owned by parent"), Scenario.st)
  /\ run_request (get_child_analytics 20 Scenario.mallory) Scenario.st
     = (Raise (HTTPException 404 "Analytics not initialized for this child"), Scenario.st).
Proof.
  assert (H : forall c, In c (children Scenario.st) -> Child.id c = 20%N ->
                        Child.parent_id c <> Parent.id Scenario.mallory).
  { intros c Hin _. vm_compute in Hin. destruct Hin as [<-|[<-|[]]]; discriminate. }
  destruct (@child_hidden_from_other_parent Demo.settings Scenario.st 20 Scenario.mallory H)
    as (Hpair & _ & Hanalytics).
  split; [apply Hpair | exact Hanalytics].
Defined.

(** Alice's third child has its analytics row at once; Mallory gets a 404
    for it. *)
Lemma new_child_analytics_witness :
  exists child st',
    run_request (create_child "Cid" 9 Demo.alice 22 32) Demo.st_paired = (Ok child, st')
    /\ run_request (get_child_analytics 22 Demo.alice) st'
       = (Ok (ChildAnalytics.mk 32 22 0 0 None), st')
    /\ run_request (get_child_analytics 22 Scenario.mallory) st'
       = (Raise (HTTPException 404 "Analytics not initialized for this child"), st').
Proof.
  destruct (@new_child_analytics Demo.st_paired "Cid" 9 Demo.alice 22 32 "Cid")
    as (child & st' & Hrun & _ & _ & Hmine & Hother).
  - vm_compute. discriminate.
  - left. reflexivity.
  - repeat split; vm_compute; intuition discriminate.
  - reflexivity.
  - reflexivity.
  - exists child, st'. split; [exact Hrun|]. split; [exact Hmine|].
    apply Hother. discriminate.
Defined.

(** Bob's question leaves the toys and Ann's analytics alone. *)
Lemma toy_ask_frame_witness :
  exists reply st',
    run_request (toy_ask "why?" 100 Demo.machine_key Demo.t0 70 71 72) Demo.st_active
    = (Ok reply, st')
    /\ toys st' = toys Demo.st_active
    /\ analytics_rows_of 20 st' = analytics_rows_of 20 Demo.st_active.
Proof.
  set (run := run_request (toy_ask "why?" 100 Demo.machine_key Demo.t0 70 71 72)
                          Demo.st_active).
  assert (Hrun : run = (Ok (mk_toy_ask_response 70 "Answer to: why?"), snd run))
    by reflexivity.
  assert (Hpk : NoDup (map ChildAnalytics.id (child_analytics Demo.st_active)))
    by distinct.
  destruct (@toy_ask_frame Demo.settings Demo.st_active (snd run) "why?" 100
              Demo.machine_key Demo.t0 70 71 72
              (mk_toy_ask_response 70 "Answer to: why?") Hpk Hrun)
    as (toy & active & Htoy & Hset & _ & Htoys & _ & _ & _ & Hrows & _).
  assert (Hactive : active = 21%N).
  { vm_compute in Htoy. injection Htoy as <-. vm_compute in Hset. now injection Hset. }
  eexists. exists (snd run). split; [exact Hrun|]. split; [exact Htoys|].
  apply Hrows. rewrite Hactive. discriminate.
Defined.


(** Alice logs out; Mallory's refresh token is still stored and her access
    token is still accepted. *)
Lemma logout_leaves_other_parents_witness :
  exists st',
    run_request (POST_auth_logout Demo.alice_token Demo.t0) Scenario.st_sessions
    = (Ok "logged_out", st')
    /\ In (RefreshToken.mk 41 2 (hash_refresh_token "mallory-refresh") None 2592001000000)
          (refresh_tokens st')
    /\ fst (run_request (get_current_parent Scenario.mallory_token Demo.t0) st')
       = Ok Scenario.mallory.
Proof.
  set (st' := snd (run_request (POST_auth_logout Demo.alice_token Demo.t0)
                               Scenario.st_sessions)).
  exists st'. split; [reflexivity|].
  destruct (@logout_leaves_other_parents Scenario.st_sessions st' Demo.alice_token Demo.t0
              "logged_out" Demo.alice)
    as (_ & Hrows & Hguard & _).
  - distinct.
  - reflexivity.
  - reflexivity.
  - split.
    + apply Hrows; [right; left; reflexivity | discriminate].
    + unfold Scenario.mallory_token, create_access_token.
      rewrite Hguard; [reflexivity | discriminate].
Defined.

(** The store reached by the quiet run of the first deployment satisfies
    the constraints. *)
Lemma serve_all_consistent_witness :
  consistent (serve_all Demo.quiet_trace Demo.st0).
Proof.
  exact (@serve_all_consistent Demo.settings Demo.crypto Demo.quiet_trace Demo.st0 demo_consistent).
Defined.
